(** * SaveSMPL: a shallow embedding of [save_smpl_node.py]

    The node [SaveSMPL.save_smpl] takes a parameter bundle and two path
    strings, writes an [.npz] archive and a pickle file, and returns a
    pair (file path, info text).  Everything it does goes through
    external collaborators: [pathlib], the operating system's file
    system, [torch], [numpy] and [pickle].  The first half of this file
    models the part of each collaborator that the node calls; the second
    half is the node itself ([save_smpl_body] for the [try] block,
    [save_smpl_call] for the whole method, [save_smpl] for the method
    where the handler's own calls return), followed by the theorems. *)

From Stdlib Require Import String Ascii NArith DecimalString.
From stdpp Require Import gmap strings list.

Local Open Scope string_scope.
Local Open Scope list_scope.

(** ** Python strings *)

Module PyStr.

Definition NL : string := String "010"%char EmptyString.
Definition DQ : string := String "034"%char EmptyString.
Definition SQ : string := "'".
Definition BSL : string := String "092"%char EmptyString.

(** [s.split(sep)] for a one-character separator. *)
Fixpoint split_on (sep : ascii) (s : string) : list string :=
  match s with
  | EmptyString => [EmptyString]
  | String c s' =>
      if Ascii.eqb c sep then EmptyString :: split_on sep s'
      else match split_on sep s' with
           | [] => [String c EmptyString]
           | w :: ws => String c w :: ws
           end
  end.

(** [sep.join(l)] *)
Fixpoint join (sep : string) (l : list string) : string :=
  match l with
  | [] => EmptyString
  | x :: xs => match xs with
               | [] => x
               | _ :: _ => x +:+ sep +:+ join sep xs
               end
  end.

(** [s.rfind(c)], with [None] for Python's [-1]. *)
Fixpoint rfind (c : ascii) (s : string) : option nat :=
  match s with
  | EmptyString => None
  | String a s' =>
      match rfind c s' with
      | Some i => Some (S i)
      | None => if Ascii.eqb a c then Some 0 else None
      end
  end.

(** [s[i:]] *)
Fixpoint drop (i : nat) (s : string) : string :=
  match i, s with
  | O, _ => s
  | S _, EmptyString => EmptyString
  | S i', String _ s' => drop i' s'
  end.

(** [s[:i]] *)
Fixpoint take (i : nat) (s : string) : string :=
  match i, s with
  | O, _ => EmptyString
  | S _, EmptyString => EmptyString
  | S i', String c s' => String c (take i' s')
  end.

Fixpoint has_char (c : ascii) (s : string) : bool :=
  match s with
  | EmptyString => false
  | String a s' => Ascii.eqb a c || has_char c s'
  end.

(** [s.endswith(x)] *)
Definition endswith (x s : string) : bool :=
  (String.length x <=? String.length s)%nat &&
  String.eqb (drop (String.length s - String.length x) s) x.

(** [needle in hay] *)
Fixpoint contains (needle hay : string) : bool :=
  String.prefix needle hay ||
  match hay with
  | EmptyString => false
  | String _ hay' => contains needle hay'
  end.

(** Text is held as its UTF-8 bytes.  [is_ascii s]: every byte of [s]
    is below 128, so that bytes and code points coincide. *)
Fixpoint is_ascii (s : string) : bool :=
  match s with
  | EmptyString => true
  | String c s' => (N_of_ascii c <? 128)%N && is_ascii s'
  end.

Definition hex_digit (n : N) : ascii :=
  match n with
  | 0 => "0" | 1 => "1" | 2 => "2" | 3 => "3" | 4 => "4" | 5 => "5"
  | 6 => "6" | 7 => "7" | 8 => "8" | 9 => "9" | 10 => "a" | 11 => "b"
  | 12 => "c" | 13 => "d" | 14 => "e" | _ => "f"
  end%N%char.

(** The escape [\xhh] of a byte. *)
Definition hex_escape (c : ascii) : string :=
  BSL +:+ "x" +:+
  String (hex_digit (N_of_ascii c / 16)) 
    (String (hex_digit (N_of_ascii c mod 16)) EmptyString).

(** [repr(s)] for a [str]: double quotes when the text has a single
    quote and no double quote, single quotes otherwise; backslash, the
    chosen quote, newline, carriage return and tab are escaped with a
    backslash, the other control characters and DEL as [\xhh].  Bytes
    from 128 up are copied: they encode code points beyond ASCII, which
    CPython copies when they are printable (as those of the node's own
    messages are) and escapes otherwise; the model is exact on ASCII
    text. *)
Fixpoint escape (q : ascii) (s : string) : string :=
  match s with
  | EmptyString => EmptyString
  | String c s' =>
      (if Ascii.eqb c "092" then BSL +:+ BSL
       else if Ascii.eqb c q then BSL +:+ String q EmptyString
       else if Ascii.eqb c "010" then BSL +:+ "n"
       else if Ascii.eqb c "013" then BSL +:+ "r"
       else if Ascii.eqb c "009" then BSL +:+ "t"
       else if (N_of_ascii c <? 32)%N || (N_of_ascii c =? 127)%N
            then hex_escape c
       else String c EmptyString) +:+ escape q s'
  end.

Definition repr (s : string) : string :=
  if has_char "'" s && negb (has_char "034" s)
  then DQ +:+ escape "034" s +:+ DQ
  else SQ +:+ escape "'" s +:+ SQ.

(** [str(n)] for a non-negative [int]. *)
Definition of_N (n : N) : string := NilEmpty.string_of_uint (N.to_uint n).

End PyStr.

(** ** Exceptions

    Every exception the modelled calls can raise is a subclass of
    [Exception]; [exn_str] is [str(e)]. *)

Inductive os_error := ENOENT | EEXIST | ENOTDIR | EISDIR.

Inductive exn :=
| ValueError (msg : string)
| KeyError (arg : string)
| TypeError (msg : string)
| AttributeError (msg : string)
| IndexError (msg : string)
| RuntimeError (msg : string)
| OSError (code : os_error) (filename : string).

Definition os_errno (c : os_error) : N :=
  match c with ENOENT => 2 | EEXIST => 17 | ENOTDIR => 20 | EISDIR => 21 end.

Definition os_strerror (c : os_error) : string :=
  match c with
  | ENOENT => "No such file or directory"
  | EEXIST => "File exists"
  | ENOTDIR => "Not a directory"
  | EISDIR => "Is a directory"
  end.

(** [str(KeyError(x))] is [repr(x)]; an [OSError] built by the
    interpreter prints errno, message and the quoted file name. *)
Definition exn_str (e : exn) : string :=
  match e with
  | ValueError m | TypeError m | AttributeError m
  | IndexError m | RuntimeError m => m
  | KeyError a => PyStr.repr a
  | OSError c f =>
      "[Errno " +:+ PyStr.of_N (os_errno c) +:+ "] " +:+ os_strerror c
        +:+ ": " +:+ PyStr.repr f
  end.

(** ** pathlib (POSIX flavour, CPython 3.12)

    A path is its root ([""], ["/"] or ["//"]) and its components. *)

Record path := mkPath { root : string; tail : list string }.

Module Path.

(** [posixpath.splitroot] *)
Definition splitroot (p : string) : string * string :=
  match p with
  | String c0 r1 =>
      if Ascii.eqb c0 "/" then
        match r1 with
        | String c1 r2 =>
            if Ascii.eqb c1 "/" then
              match r2 with
              | String c2 _ =>
                  if Ascii.eqb c2 "/" then ("/", r1) else ("//", r2)
              | EmptyString => ("//", r2)
              end
            else ("/", r1)
        | EmptyString => ("/", r1)
        end
      else (EmptyString, p)
  | EmptyString => (EmptyString, p)
  end.

Definition keep_part (x : string) : bool :=
  negb (String.eqb x EmptyString) && negb (String.eqb x ".").

(** [Path(s)]: empty and ["."] components are dropped, [".."] stays. *)
Definition of_string (s : string) : path :=
  let '(r, rel) := splitroot s in
  mkPath r (List.filter keep_part (PyStr.split_on "/" rel)).

(** [str(p)] *)
Definition str (p : path) : string :=
  match root p, tail p with
  | EmptyString, [] => "."
  | r, t => r +:+ PyStr.join "/" t
  end.

(** [p.name] *)
Definition name (p : path) : string := List.last (tail p) EmptyString.

(** [p.parent] *)
Definition parent (p : path) : path :=
  match tail p with
  | [] => p
  | _ :: _ => mkPath (root p) (List.removelast (tail p))
  end.

(** [p.suffix] *)
Definition suffix_of_name (n : string) : string :=
  match PyStr.rfind "." n with
  | Some i =>
      if (0 <? i)%nat && (i <? String.length n - 1)%nat
      then PyStr.drop i n else EmptyString
  | None => EmptyString
  end.

Definition suffix (p : path) : string := suffix_of_name (name p).

(** [p.with_suffix(sfx)] for a well-formed [sfx] (the node passes the
    literals [".npz"] and [".pkl"]): a path without a name is refused. *)
Definition with_suffix (p : path) (sfx : string) : exn + path :=
  let n := name p in
  if String.eqb n EmptyString then
    inl (ValueError ("PosixPath(" +:+ PyStr.repr (str p)
                       +:+ ") has an empty name"))
  else
    let old := suffix p in
    let n' := PyStr.take (String.length n - String.length old) n +:+ sfx in
    inr (mkPath (root p) (List.removelast (tail p) ++ [n'])).

(** [p.absolute()] with current directory [cwd] *)
Definition absolute (cwd p : path) : path :=
  if String.eqb (root p) EmptyString
  then mkPath (root cwd) (tail cwd ++ tail p)
  else p.

End Path.

(** The names on the way to a path: the path itself and every path
    above it, nearest first. *)
Fixpoint rev_ancestors (r : string) (rt : list string) : list string :=
  Path.str (mkPath r (rev rt)) ::
  match rt with
  | [] => []
  | _ :: rt' => rev_ancestors r rt'
  end.

Definition ancestors (p : path) : list string :=
  rev_ancestors (root p) (rev (tail p)).

(** ** Python dictionaries

    A [dict] keeps its entries in insertion order; [d[k] = v] replaces
    the value of an existing key in place and appends a new key. *)

Definition dict (V : Type) : Type := list (string * V).

Section Dict.
Context {V : Type}.

Fixpoint dict_get (k : string) (d : dict V) : option V :=
  match d with
  | [] => None
  | (k', v) :: d' => if String.eqb k' k then Some v else dict_get k d'
  end.

(** [k in d] *)
Definition dict_mem (k : string) (d : dict V) : bool :=
  match dict_get k d with Some _ => true | None => false end.

(** [d[k] = v] *)
Fixpoint dict_set (k : string) (v : V) (d : dict V) : dict V :=
  match d with
  | [] => [(k, v)]
  | (k', v') :: d' =>
      if String.eqb k' k then (k', v) :: d' else (k', v') :: dict_set k v d'
  end.

(** [d[k]] *)
Definition dict_getitem (k : string) (d : dict V) : exn + V :=
  match dict_get k d with
  | Some v => inr v
  | None => inl (KeyError k)
  end.

Definition keys (d : dict V) : list string := List.map fst d.

End Dict.

(** ** numpy arrays and torch tensors

    An array is its dtype, its shape and its buffer.  Two arrays are
    bit-for-bit equal when the three agree. *)

Inductive np_dtype :=
| np_bool | np_uint8 | np_int32 | np_int64
| np_float16 | np_float32 | np_float64.

Record ndarray := mkArray {
  dtype : np_dtype;
  shape : list nat;
  data : list Byte.byte
}.

Inductive torch_dtype :=
| t_bool | t_uint8 | t_int32 | t_int64
| t_float16 | t_bfloat16 | t_float32 | t_float64.

Inductive device := cpu | cuda (index : nat).

Record tensor := mkTensor {
  t_dtype : torch_dtype;
  t_shape : list nat;
  t_storage : list Byte.byte;
  requires_grad : bool;
  t_device : device
}.

Module Torch.

(** numpy has no bfloat16. *)
Definition numpy_dtype (d : torch_dtype) : option np_dtype :=
  match d with
  | t_bool => Some np_bool
  | t_uint8 => Some np_uint8
  | t_int32 => Some np_int32
  | t_int64 => Some np_int64
  | t_float16 => Some np_float16
  | t_float32 => Some np_float32
  | t_float64 => Some np_float64
  | t_bfloat16 => None
  end.

(** [t.detach()] *)
Definition detach (t : tensor) : tensor :=
  mkTensor (t_dtype t) (t_shape t) (t_storage t) false (t_device t).

(** [t.cpu()] *)
Definition to_cpu (t : tensor) : tensor :=
  mkTensor (t_dtype t) (t_shape t) (t_storage t) (requires_grad t) cpu.

(** [t.numpy()], with gradient mode enabled (the default):
    [tensor_to_numpy] tests the device first, then the gradient flag,
    then the dtype. *)
Definition numpy (t : tensor) : exn + ndarray :=
  match t_device t with
  | cuda i =>
      inl (TypeError ("can't convert cuda:" +:+ PyStr.of_N (N.of_nat i)
                        +:+ " device type tensor to numpy. Use Tensor.cpu() to copy the tensor to host memory first."))
  | cpu =>
      if requires_grad t then
        inl (RuntimeError "Can't call numpy() on Tensor that requires grad. Use tensor.detach().numpy() instead.")
      else
        match numpy_dtype (t_dtype t) with
        | Some d => inr (mkArray d (t_shape t) (t_storage t))
        | None => inl (TypeError "Got unsupported ScalarType BFloat16")
        end
  end.

End Torch.

(** A value stored under a parameter name: a [torch.Tensor], an
    [np.ndarray], or any other object, which is represented by what
    [np.array] makes of it (an array, or the exception it raises, e.g.
    [ValueError] for a ragged nested sequence). *)
Inductive pyvalue :=
| Tensor (t : tensor)
| NdArray (a : ndarray)
| Other (as_array : exn + ndarray).

(** A value stored in the bundle itself: a dictionary of parameters, or
    an object of some other type, which has no [items]. *)
Inductive pyobject :=
| PyDict (d : dict pyvalue)
| NotMapping (type_name : string).

Module Np.

(** [np.array(value)] *)
Definition array (value : pyvalue) : exn + ndarray :=
  match value with
  | NdArray a => inr a
  | Other r => r
  | Tensor t => Torch.numpy t
  end.

End Np.

(** [obj.items()], [key in obj] and [obj[key]] on a bundle entry. *)
Definition py_items (o : pyobject) : exn + dict pyvalue :=
  match o with
  | PyDict d => inr d
  | NotMapping ty =>
      inl (AttributeError ("'" +:+ ty +:+ "' object has no attribute 'items'"))
  end.

Definition py_contains (key : string) (o : pyobject) : exn + bool :=
  match o with
  | PyDict d => inr (dict_mem key d)
  | NotMapping ty =>
      inl (TypeError ("argument of type '" +:+ ty +:+ "' is not iterable"))
  end.

Definition py_getitem (key : string) (o : pyobject) : exn + pyvalue :=
  match o with
  | PyDict d => dict_getitem key d
  | NotMapping ty =>
      inl (TypeError ("'" +:+ ty +:+ "' object is not subscriptable"))
  end.

(** The object pickled by the node: a dictionary of dictionaries. *)
Definition pred_record : Type := dict (dict ndarray).

(** ** The file system

    Entries are keyed by the path text handed to the operating system;
    ["."], ["/"] and ["//"] always exist as directories.  The model does
    not resolve [".."], symbolic links or the current directory, and it
    takes every name as one the system accepts (the system refuses a
    NUL byte and an over-long name); it knows no permissions or quotas.
    The [log] records, oldest first, every operation that changed the
    file system. *)

Inductive content :=
| Bytes (nbytes : N)
| NpzArchive (arrays : dict ndarray)
| Pickled (dumps : list (N * pred_record)).

Inductive node := Dir | File (c : content).

Inductive event :=
| EvMkdir (p : string)
| EvOpenW (p : string)
| EvSavez (p : string) (arrays : dict ndarray)
| EvDump (p : string) (protocol : N) (obj : pred_record).

Record world := mkWorld {
  entries : gmap string node;
  cwd : path;
  log : list event
}.

(** What depends on the interpreter and the serializers: the pickle
    protocol number and the byte sizes [stat] reports. *)
Class Platform := {
  HIGHEST_PROTOCOL : N;
  npz_nbytes : dict ndarray → N;
  pickle_nbytes : N → pred_record → N;
  dir_nbytes : N
}.

(** ** Effects: state that survives an exception *)

Definition M (A : Type) : Type := world → world * (exn + A).

Definition ret {A} (a : A) : M A := λ w, (w, inr a).
Definition raise {A} (e : exn) : M A := λ w, (w, inl e).
Definition lift {A} (r : exn + A) : M A := λ w, (w, r).
Definition bind {A B} (m : M A) (k : A → M B) : M B :=
  λ w, match m w with
       | (w', inr a) => k a w'
       | (w', inl e) => (w', inl e)
       end.

Definition ebind {A B} (r : exn + A) (k : A → exn + B) : exn + B :=
  match r with inr a => k a | inl e => inl e end.

Declare Scope py_scope.
Delimit Scope py_scope with py.
Notation "x <- m ;; k" := (bind m (λ x, k))
  (at level 100, m at next level, right associativity) : py_scope.
Notation "m ;; k" := (bind m (λ _, k))
  (at level 100, right associativity) : py_scope.
Notation "x <~ r ;; k" := (ebind r (λ x, k))
  (at level 100, r at next level, right associativity) : py_scope.

Local Open Scope py_scope.

Module Fs.

Definition lookup (p : string) (w : world) : option node :=
  if String.eqb p "." || String.eqb p "/" || String.eqb p "//"
  then Some Dir
  else entries w !! p.

Definition is_dir (p : string) (w : world) : bool :=
  match lookup p w with Some Dir => true | _ => false end.

Definition put (p : string) (n : node) (ev : event) (w : world) : world :=
  mkWorld (<[p := n]> (entries w)) (cwd w) (log w ++ [ev]).

(** The directory in which the operating system looks a file name up. *)
Definition dirname (s : string) : string :=
  Path.str (Path.parent (Path.of_string s)).

(** Is the path, or a path above it, a regular file? *)
Definition file_above (p : path) (w : world) : bool :=
  List.existsb
    (λ a, match lookup a w with Some (File _) => true | _ => false end)
    (ancestors p).

(** [os.mkdir(p)].  The system walks the path from the top: where the
    parent is missing, the error is [ENOTDIR] if the walk met a regular
    file, [ENOENT] otherwise. *)
Definition os_mkdir (p : path) : M unit := λ w,
  let s := Path.str p in
  match lookup (Path.str (Path.parent p)) w with
  | None =>
      if file_above (Path.parent p) w then (w, inl (OSError ENOTDIR s))
      else (w, inl (OSError ENOENT s))
  | Some (File _) => (w, inl (OSError ENOTDIR s))
  | Some Dir =>
      match lookup s w with
      | Some _ => (w, inl (OSError EEXIST s))
      | None => (put s Dir (EvMkdir s) w, inr tt)
      end
  end.

(** [p.mkdir(parents=False, exist_ok=True)]: [FileNotFoundError] is
    re-raised, any other [OSError] is dropped when [p] is a directory. *)
Definition mkdir_leaf (p : path) : M unit := λ w,
  match os_mkdir p w with
  | (w', inr u) => (w', inr u)
  | (w', inl (OSError ENOENT f)) => (w', inl (OSError ENOENT f))
  | (w', inl e) =>
      if is_dir (Path.str p) w' then (w', inr tt) else (w', inl e)
  end.

(** [p.mkdir(parents=True, exist_ok=True)], on the components of [p]
    in reverse: on [FileNotFoundError] the parent is made first, unless
    [p] is its own parent. *)
Fixpoint mkdir_rev (r : string) (rt : list string) : M unit := λ w,
  let p := mkPath r (rev rt) in
  match os_mkdir p w with
  | (w', inr u) => (w', inr u)
  | (w', inl (OSError ENOENT f)) =>
      match rt with
      | [] => (w', inl (OSError ENOENT f))
      | _ :: rt' =>
          match mkdir_rev r rt' w' with
          | (w1, inr _) => mkdir_leaf p w1
          | (w1, inl e) => (w1, inl e)
          end
      end
  | (w', inl e) =>
      if is_dir (Path.str p) w' then (w', inr tt) else (w', inl e)
  end.

Definition mkdir_parents (p : path) : M unit :=
  mkdir_rev (root p) (rev (tail p)).

(** Can a file named [s] be created or truncated? *)
Definition check_writable (s : string) : M unit := λ w,
  match lookup (dirname s) w with
  | None => (w, inl (OSError ENOENT s))
  | Some (File _) => (w, inl (OSError ENOTDIR s))
  | Some Dir =>
      match lookup s w with
      | Some Dir => (w, inl (OSError EISDIR s))
      | _ => (w, inr tt)
      end
  end.

(** [open(p, "wb")]: the file is created empty, or truncated; the
    handle is represented by the file's name. *)
Definition open_wb (p : path) : M string :=
  let s := Path.str p in
  check_writable s ;;
  λ w, (put s (File (Bytes 0)) (EvOpenW s) w, inr s).

Section Sizes.
Context `{Platform}.

Definition content_nbytes (c : content) : N :=
  match c with
  | Bytes n => n
  | NpzArchive a => npz_nbytes a
  | Pickled l =>
      List.fold_right (λ d acc, (pickle_nbytes (fst d) (snd d) + acc)%N)
        0%N l
  end.

(** [p.stat().st_size] *)
Definition stat_size (p : path) : M N := λ w,
  match lookup (Path.str p) w with
  | Some Dir => (w, inr dir_nbytes)
  | Some (File c) => (w, inr (content_nbytes c))
  | None => (w, inl (OSError ENOENT (Path.str p)))
  end.
End Sizes.

End Fs.

Module Pickle.

(** [pickle.dump(obj, handle, protocol=...)] appends one pickled
    object to the open file. *)
Definition dump (obj : pred_record) (handle : string) (protocol : N)
  : M unit := λ w,
  let prev := match entries w !! handle with
              | Some (File (Pickled l)) => l
              | _ => []
              end in
  (Fs.put handle (File (Pickled (prev ++ [(protocol, obj)])))
     (EvDump handle protocol obj) w, inr tt).

(** Reading a pickle file back: the first pickled object. *)
Definition load (p : string) (w : world) : exn + pred_record :=
  match Fs.lookup p w with
  | Some (File (Pickled ((_, obj) :: _))) => inr obj
  | Some (File _) => inl (ValueError "not a pickle")
  | Some Dir => inl (OSError EISDIR p)
  | None => inl (OSError ENOENT p)
  end.

End Pickle.

Module Savez.

(** numpy, [_savez]: when [file] is a path, [".npz"] is appended to
    the file name unless the name ends in it already. *)
Definition filename (file : path) : string :=
  let f := Path.str file in
  if PyStr.endswith ".npz" f then f else f +:+ ".npz".

(** The keywords that become archive members.  The signature is
    [savez(file, *args, allow_pickle=True, **kwds)] (numpy 2.x): a
    keyword called [allow_pickle] is taken as the function's own
    parameter and not stored.  Its value is looked at for arrays of
    dtype [object] only, which [np_dtype] does not have. *)
Definition members (kwds : dict ndarray) : dict ndarray :=
  List.filter (λ kv, negb (String.eqb (fst kv) "allow_pickle")) kwds.

(** [np.savez(file, **kwds)]: a keyword called [file] collides with
    the positional parameter (a [TypeError]; its text names [savez] or
    its dispatcher, depending on the numpy version); otherwise one
    archive member is written per member keyword, under the keyword's
    name.  The event records the call as it was made. *)
Definition savez (file : path) (kwds : dict ndarray) : M unit :=
  if dict_mem "file" kwds then
    raise (TypeError "savez() got multiple values for argument 'file'")
  else
    let fname := filename file in
    Fs.check_writable fname ;;
    λ w, (Fs.put fname (File (NpzArchive (members kwds)))
            (EvSavez fname kwds) w,
          inr tt).

(** [np.load(p)]: the named arrays of the archive stored at [p]. *)
Definition load (p : string) (w : world) : exn + dict ndarray :=
  match Fs.lookup p w with
  | Some (File (NpzArchive a)) => inr a
  | Some (File _) => inl (ValueError "not an npz archive")
  | Some Dir => inl (OSError EISDIR p)
  | None => inl (OSError ENOENT p)
  end.

End Savez.

(** ** The node *)

Definition msg_no_global : string :=
  "smpl_params に 'global' が含まれていません。".

Definition msg_missing (key : string) : string :=
  "'global' に '" +:+ key +:+ "' が含まれていません。".

Definition required_keys : list string :=
  ["body_pose"; "global_orient"; "transl"; "betas"].

(** Lines 68-71 and 88-91: a tensor is detached, moved to host memory
    and viewed as an array; anything else goes through [np.array]. *)
Definition to_numpy (value : pyvalue) : exn + ndarray :=
  match value with
  | Tensor t => Torch.numpy (Torch.to_cpu (Torch.detach t))
  | _ => Np.array value
  end.

(** Lines 66-71: the loop over [global_params.items()], threading
    [np_params]. *)
Fixpoint convert_items (items : dict pyvalue) (np_params : dict ndarray)
  : exn + dict ndarray :=
  match items with
  | [] => inr np_params
  | (key, value) :: rest =>
      arr <~ to_numpy value ;;
      convert_items rest (dict_set key arr np_params)
  end.

(** Lines 82-91: the array of one required key. *)
Definition resolve (key : string) (np_params : dict ndarray)
    (global_params : pyobject) : exn + ndarray :=
  if dict_mem key np_params then dict_getitem key np_params
  else
    present <~ py_contains key global_params ;;
    if negb present then inl (KeyError (msg_missing key))
    else val <~ py_getitem key global_params ;; to_numpy val.

(** [pred_np[ns][key] = arr] *)
Definition set_nested (ns key : string) (arr : ndarray) (pred_np : pred_record)
  : exn + pred_record :=
  inner <~ dict_getitem ns pred_np ;;
  inr (dict_set ns (dict_set key arr inner) pred_np).

(** Lines 81-94: the loop over [required_keys], threading [pred_np]. *)
Fixpoint fill_pred (ks : list string) (np_params : dict ndarray)
    (global_params : pyobject) (pred_np : pred_record) : exn + pred_record :=
  match ks with
  | [] => inr pred_np
  | key :: rest =>
      arr <~ resolve key np_params global_params ;;
      p1 <~ set_nested "smpl_params_global" key arr pred_np ;;
      p2 <~ set_nested "smpl_params_incam" key arr p1 ;;
      fill_pred rest np_params global_params p2
  end.

(** Lines 61-64: the default extension. *)
Definition default_suffix (p : path) (sfx : string) : exn + path :=
  if String.eqb (Path.suffix p) EmptyString then Path.with_suffix p sfx
  else inr p.

(** [shape[0]] *)
Definition shape0 (a : ndarray) : exn + nat :=
  match shape a with
  | n :: _ => inr n
  | [] => inl (IndexError "tuple index out of range")
  end.

(** The integer nearest to [n] that has at most 53 significant bits,
    ties to even: the numerator of the double that [n / 1024] gives
    (dividing by a power of two only changes the exponent). *)
Definition round53 (n : N) : N :=
  let sh := (N.size n - 53)%N in
  if (sh =? 0)%N then n
  else
    let q := N.shiftr n sh in
    let r := (n - N.shiftl q sh)%N in
    let half := N.shiftl 1 (sh - 1) in
    let q' := if (half <? r)%N then (q + 1)%N
              else if (r =? half)%N then (if N.even q then q else q + 1)%N
              else q in
    N.shiftl q' sh.

(** [f"{n / 1024:.1f}"] for a file size [n]: the quotient is rounded
    to a double, and the conversion to one decimal rounds its exact
    value to nearest, ties to even. *)
Definition fmt_kb (size : N) : string :=
  let n := round53 size in
  let q := (n * 10 / 1024)%N in
  let r := (n * 10 mod 1024)%N in
  let tenths :=
    if (512 <? r)%N then (q + 1)%N
    else if (r =? 512)%N then (if N.even q then q else q + 1)%N
    else q in
  PyStr.of_N (tenths / 10) +:+ "." +:+ PyStr.of_N (tenths mod 10).

(** Lines 103-108 *)
Definition info_text (npz_path : path) (npz_size : N) (pkl_path : path)
    (pkl_size : N) (num_frames : nat) : string :=
  "SaveSMPL Complete" +:+ PyStr.NL
  +:+ "NPZ: " +:+ Path.str npz_path +:+ " (" +:+ fmt_kb npz_size +:+ " KB)"
  +:+ PyStr.NL
  +:+ "PKL: " +:+ Path.str pkl_path +:+ " (" +:+ fmt_kb pkl_size +:+ " KB)"
  +:+ PyStr.NL
  +:+ "Frames: " +:+ PyStr.of_N (N.of_nat num_frames) +:+ PyStr.NL.



Section Node.
Context `{Platform}.

(** Lines 46-73 of the [try] block: validation, paths, directories,
    conversion and the archive.  [Log.info] has no effect on the
    modelled state. *)
Definition archive_phase (smpl_params : dict pyobject)
    (npz_output_path pkl_output_path : string)
  : M (pyobject * path * path * dict ndarray) :=
  (if negb (dict_mem "global" smpl_params)
   then raise (ValueError msg_no_global) else ret tt) ;;
  global_params <- lift (dict_getitem "global" smpl_params) ;;
  let npz_path := Path.of_string npz_output_path in
  let pkl_path := Path.of_string pkl_output_path in
  Fs.mkdir_parents (Path.parent npz_path) ;;
  Fs.mkdir_parents (Path.parent pkl_path) ;;
  npz_path <- lift (default_suffix npz_path ".npz") ;;
  pkl_path <- lift (default_suffix pkl_path ".pkl") ;;
  np_params <- lift (items <~ py_items global_params ;;
                     convert_items items []) ;;
  Savez.savez npz_path np_params ;;
  ret (global_params, npz_path, pkl_path, np_params).

(** Lines 75-113 of the [try] block: the record, the pickle file and
    the report. *)
Definition record_phase (global_params : pyobject) (npz_path pkl_path : path)
    (np_params : dict ndarray) : M (string * string) :=
  let pred_np : pred_record :=
    [("smpl_params_global", []); ("smpl_params_incam", [])] in
  pred_np <- lift (fill_pred required_keys np_params global_params pred_np) ;;
  handle <- Fs.open_wb pkl_path ;;
  Pickle.dump pred_np handle HIGHEST_PROTOCOL ;;
  num_frames <- lift (g <~ dict_getitem "smpl_params_global" pred_np ;;
                      a <~ dict_getitem "body_pose" g ;;
                      shape0 a) ;;
  npz_size <- Fs.stat_size npz_path ;;
  pkl_size <- Fs.stat_size pkl_path ;;
  let info := info_text npz_path npz_size pkl_path pkl_size num_frames in
  λ w, (w, inr (Path.str (Path.absolute (cwd w) npz_path), info)).

(** The [try] block, lines 46-113. *)
Definition save_smpl_body (smpl_params : dict pyobject)
    (npz_output_path pkl_output_path : string) : M (string * string) :=
  st <- archive_phase smpl_params npz_output_path pkl_output_path ;;
  let '(global_params, npz_path, pkl_path, np_params) := st in
  record_phase global_params npz_path pkl_path np_params.


(** The method where the handler's own calls return ([sys.stderr] is
    writable): its result is always a pair. *)
Definition save_smpl (smpl_params : dict pyobject)
    (npz_output_path pkl_output_path : string)
  : world → world * (string * string) := λ w,
  match save_smpl_body smpl_params npz_output_path pkl_output_path w with
  | (w', inr result) => (w', result)
  | (w', inl e) =>
      let error_msg := "SaveSMPL failed: " +:+ exn_str e in
      (w', (EmptyString, error_msg))
  end.

End Node.

(** ** Vocabulary of the statements *)

Definition is_mkdir_ev (ev : event) : bool :=
  match ev with EvMkdir _ => true | _ => false end.

(** An event of the object file: opening it for writing, or a dump. *)
Definition is_pickle_ev (ev : event) : bool :=
  match ev with EvOpenW _ | EvDump _ _ _ => true | _ => false end.

(** [w'] is [w] after some directories were made, and nothing else. *)
Definition mkdirs_only (w w' : world) : Prop :=
  cwd w' = cwd w ∧
  ∃ evs, log w' = log w ++ evs ∧ Forall (λ ev, is_mkdir_ev ev = true) evs.

(** The world after [open(pkl_path, "wb")] and one [pickle.dump]. *)
Definition dumped `{Platform} (pkl_path : path) (pred_np : pred_record)
    (w : world) : world :=
  let s := Path.str pkl_path in
  Fs.put s (File (Pickled [(HIGHEST_PROTOCOL, pred_np)]))
    (EvDump s HIGHEST_PROTOCOL pred_np)
    (Fs.put s (File (Bytes 0)) (EvOpenW s) w).

(** The world after [np.savez] wrote [np_params] for [npz_path]. *)
Definition archived (npz_path : path) (np_params : dict ndarray) (w : world)
  : world :=
  let f := Savez.filename npz_path in
  Fs.put f (File (NpzArchive (Savez.members np_params)))
    (EvSavez f np_params) w.

(** The record [fill_pred] starts from, and the one it ends with. *)
Definition pred_empty : pred_record :=
  [("smpl_params_global", []); ("smpl_params_incam", [])].

Definition pred_of (a1 a2 a3 a4 : ndarray) : pred_record :=
  let d := [("body_pose", a1); ("global_orient", a2);
            ("transl", a3); ("betas", a4)] in
  [("smpl_params_global", d); ("smpl_params_incam", d)].

(** [d[ns][k]] as an option. *)
Definition nested_get (ns k : string) (r : pred_record) : option ndarray :=
  match dict_get ns r with
  | Some d => dict_get k d
  | None => None
  end.

(** Element-wise relation between the raw and the converted set. *)
Definition converted (kv : string * pyvalue) (ka : string * ndarray) : Prop :=
  fst kv = fst ka ∧ to_numpy (snd kv) = inr (snd ka).

(** What is known once lines 46-73 have run to the end on bundle [sp]
    and path strings [p], [q] from world [w]: [g] is the raw set, [npz]
    and [pkl] the two paths after lines 61-64, [np] the converted set and
    [wd] the world the archive was written into. *)
Record archive_facts (sp : dict pyobject) (p q : string) (w : world)
    (g : dict pyvalue) (npz pkl : path) (np : dict ndarray) (wd : world)
  : Prop := {
  af_global : dict_get "global" sp = Some (PyDict g);
  af_npz : default_suffix (Path.of_string p) ".npz" = inr npz;
  af_pkl : default_suffix (Path.of_string q) ".pkl" = inr pkl;
  af_convert : convert_items g [] = inr np;
  af_file : dict_mem "file" np = false;
  af_mkdirs : mkdirs_only w wd;
  af_writable : Fs.check_writable (Savez.filename npz) wd = (wd, inr tt)
}.

(** ** Worked inputs

    A platform for the examples: protocol 5, as in CPython 3.8 and
    later; the sizes are stand-ins, no statement depends on them. *)

Module Examples.

Definition platform : Platform :=
  {| HIGHEST_PROTOCOL := 5;
     npz_nbytes := λ a, (1024 * N.of_nat (List.length a))%N;
     pickle_nbytes := λ _ _, 2048%N;
     dir_nbytes := 4096%N |}.

(** An empty file system, current directory [/home/user]. *)
Definition w0 : world := mkWorld ∅ (mkPath "/" ["home"; "user"]) [].

Definition f32 (sh : list nat) : ndarray :=
  mkArray np_float32 sh
    (List.repeat Byte.x00 (4 * List.fold_right Nat.mul 1 sh)).

Definition body_pose : ndarray := f32 [5; 24; 3].
Definition global_orient : ndarray := f32 [5; 3].
Definition transl : ndarray := f32 [5; 3].
Definition betas : ndarray := f32 [10].

(** A valid bundle, with one key beyond the required four. *)
Definition motion : dict pyvalue :=
  [("body_pose", NdArray body_pose);
   ("global_orient", NdArray global_orient);
   ("transl", NdArray transl);
   ("betas", NdArray betas);
   ("K_fullimg", NdArray (f32 [3; 3]))].

Definition bundle : dict pyobject := [("global", PyDict motion)].

(** The same bundle without [betas] and without the extra key. *)
Definition motion_no_betas : dict pyvalue :=
  [("body_pose", NdArray body_pose);
   ("global_orient", NdArray global_orient);
   ("transl", NdArray transl)].

Definition no_betas : dict pyobject := [("global", PyDict motion_no_betas)].

(** A bundle with the camera namespace only. *)
Definition incam_only : dict pyobject := [("incam", PyDict motion)].



(** The converted set of [motion] and of [no_betas]. *)
Definition motion_np : dict ndarray :=
  [("body_pose", body_pose); ("global_orient", global_orient);
   ("transl", transl); ("betas", betas); ("K_fullimg", f32 [3; 3])].

Definition no_betas_np : dict ndarray :=
  [("body_pose", body_pose); ("global_orient", global_orient);
   ("transl", transl)].

(** The paths [output/motion] and [output_pkl/motion] after lines 61-64. *)
Definition npz_path : path := mkPath EmptyString ["output"; "motion.npz"].
Definition pkl_path : path := mkPath EmptyString ["output_pkl"; "motion.pkl"].

(** A file system in which [output] is a regular file. *)
Definition w_blocked : world :=
  mkWorld {[ "output" := File (Bytes 0) ]} (mkPath "/" ["home"; "user"]) [].

(** Runs from the empty file system. *)
Definition run (sp : dict pyobject) (p q : string)
  : world * (exn + string * string) :=
  @save_smpl_body platform sp p q w0.

Definition call (sp : dict pyobject) (p q : string)
  : world * (string * string) :=
  @save_smpl platform sp p q w0.

Definition result_of (r : world * (exn + string * string))
  : string * string :=
  match snd r with inr out => out | inl _ => (EmptyString, EmptyString) end.

End Examples.

(** ** Further vocabulary *)

(** [w'] is [w] with directories added, under names of [A] that were
    free, and nothing else changed. *)
Definition grows (A : list string) (w w' : world) : Prop :=
  cwd w' = cwd w ∧
  ∀ f, entries w' !! f = entries w !! f ∨
       (entries w !! f = None ∧ entries w' !! f = Some Dir ∧ f ∈ A).

(** A component as [Path(s)] keeps them: not empty, not ["."], without
    a separator; and the three roots of the POSIX flavour. *)
Definition wf_part (x : string) : Prop :=
  Path.keep_part x = true ∧ PyStr.has_char "/" x = false.

Definition wf_root (r : string) : Prop :=
  r = EmptyString ∨ r = "/" ∨ r = "//".

Definition wf_path (p : path) : Prop :=
  wf_root (root p) ∧ Forall wf_part (tail p).

(** The world is not in the way of a run on [npz] and [pkl], the two
    paths after lines 61-64, of which [P] and [Q] are the parents: no
    regular file stands where a directory is needed, and neither output
    name is a directory or one of the directories to be made. *)
Definition clear_for (P Q : path) (npz pkl : path) (w : world) : Prop :=
  (∀ a c, a ∈ ancestors P ++ ancestors Q → Fs.lookup a w ≠ Some (File c)) ∧
  (∀ o, o ∈ [Path.str npz; Path.str pkl] →
        Fs.lookup o w ≠ Some Dir ∧ o ∉ ancestors P ++ ancestors Q).

(** ** Failures and their texts *)



(** ** Names and files

    The file system is keyed by path text, so two texts are two
    entries.  The operating system agrees with that for paths written
    alike: both relative or both with the same root, and without a
    [".."] component ([pathlib] has removed ["."] and empty components
    already).  Such paths name the same file exactly when their texts
    are equal.  Statements that compare the files behind two names
    assume it. *)

Definition plain (p : path) : bool :=
  negb (List.existsb (String.eqb "..") (tail p)).

Definition comparable (a b : path) : bool :=
  String.eqb (root a) (root b) && plain a && plain b.

(** A path the operating system accepts as a name: no NUL byte, no
    component above 255 bytes ([NAME_MAX]), the whole text below 4096
    bytes ([PATH_MAX]).  The model of the file system does not refuse
    the others; statements that promise success assume [ordinary]. *)
Definition ordinary (p : path) : bool :=
  List.forallb (λ x, negb (PyStr.has_char "000" x)
                     && (String.length x <=? 255)%nat) (tail p)
  && (String.length (Path.str p) <? 4096)%nat.

(** ** The node's interface

    Lines 11-37: what [INPUT_TYPES] returns, and the class attributes
    that name the outputs and the method. *)

Inductive input_spec :=
  | Socket (type : string)
  | StringField (default : string) (multiline : bool).

Definition INPUT_TYPES : dict (dict input_spec) :=
  [("required",
    [("smpl_params", Socket "SMPL_PARAMS");
     ("npz_output_path", StringField "output/motion.npz" false);
     ("pkl_output_path", StringField "output_pkl/motion.pkl" false)])].

Definition RETURN_TYPES : list string := ["STRING"; "STRING"].
Definition RETURN_NAMES : list string := ["file_path"; "info"].
Definition FUNCTION : string := "save_smpl".

(** The text the front end fills a string input with when the user
    leaves it alone. *)
Definition default_of (name : string) : option string :=
  match dict_get "required" INPUT_TYPES with
  | Some req =>
      match dict_get name req with
      | Some (StringField d _) => Some d
      | _ => None
      end
  | None => None
  end.

(** ** Further inputs

    Inputs for the properties that follow the claims. *)

Module Cases.



(** A bundle whose [body_pose] is a tensor of seven frames. *)
Definition seven : tensor :=
  mkTensor t_float32 [7; 24; 3] [] true (cuda 1).

Definition motion_seven : dict pyvalue :=
  [("betas", NdArray Examples.betas);
   ("transl", NdArray Examples.transl);
   ("global_orient", NdArray Examples.global_orient);
   ("body_pose", Tensor seven)].

Definition bundle_seven : dict pyobject := [("global", PyDict motion_seven)].

(** A bundle with a parameter called [file]. *)
Definition motion_file : dict pyvalue :=
  Examples.motion ++ [("file", NdArray (Examples.f32 [1]))].

Definition bundle_file : dict pyobject := [("global", PyDict motion_file)].

(** A bundle whose second value is a ragged sequence and whose fourth
    value is a bfloat16 tensor. *)
Definition ragged : pyvalue :=
  Other (inl (ValueError "setting an array element with a sequence."))%string.

Definition bf16 : pyvalue :=
  Tensor (mkTensor t_bfloat16 [10] [] false cpu).

Definition motion_bad : dict pyvalue :=
  [("body_pose", NdArray Examples.body_pose); ("global_orient", ragged);
   ("transl", NdArray Examples.transl); ("betas", bf16)].



(** A bundle whose [body_pose] is a scalar. *)
Definition motion_scalar : dict pyvalue :=
  [("body_pose", NdArray (Examples.f32 []));
   ("global_orient", NdArray Examples.global_orient);
   ("transl", NdArray Examples.transl);
   ("betas", NdArray Examples.betas)].

Definition bundle_scalar : dict pyobject := [("global", PyDict motion_scalar)].

(** A file system with a note next to the output directory, a
    directory where the object file should go, and an old archive. *)
Definition w_used : world :=
  mkWorld (<["notes.txt" := File (Bytes 12)]>
             (<["output" := Dir]>
                (<["output/motion.npz" := File (Bytes 99)]>
                   (<["out.pkl" := Dir]> ∅))))
          (mkPath "/" ["srv"]) [].

End Cases.

(** ** Properties *)

(** Membership of a literal key in a literal list. *)
Ltac key_in :=
  unfold required_keys;
  repeat first [apply list_elem_of_here | apply list_elem_of_further].

(** Required keys of a literal dictionary. *)
Ltac all_keys Hk :=
  unfold required_keys in Hk;
  repeat (apply elem_of_cons in Hk as [->|Hk]);
  try reflexivity; by apply elem_of_nil in Hk.

Section Properties.
Context `{Platform}.

(** *** The file-system operations *)

Lemma mkdirs_only_refl w : mkdirs_only w w.
Proof.
  split; [reflexivity|]. exists []. rewrite app_nil_r. by split.
Qed.

Lemma mkdirs_only_trans w1 w2 w3 :
  mkdirs_only w1 w2 → mkdirs_only w2 w3 → mkdirs_only w1 w3.
Proof.
  intros [Hc1 (e1 & Hl1 & Hf1)] [Hc2 (e2 & Hl2 & Hf2)].
  split; [congruence|]. exists (e1 ++ e2). split.
  - rewrite Hl2, Hl1. by rewrite app_assoc.
  - by apply Forall_app.
Qed.

Lemma os_mkdir_only p w w' r :
  Fs.os_mkdir p w = (w', r) → mkdirs_only w w'.
Proof.
  unfold Fs.os_mkdir. intros Hrun.
  destruct (Fs.lookup (Path.str (Path.parent p)) w) as [[|c]|];
    [destruct (Fs.lookup (Path.str p) w)|
     |destruct (Fs.file_above (Path.parent p) w)];
    inversion Hrun; subst; try apply mkdirs_only_refl.
  split; [reflexivity|]. exists [EvMkdir (Path.str p)].
  split; [reflexivity|]. by repeat constructor.
Qed.

Lemma mkdir_leaf_only p w w' r :
  Fs.mkdir_leaf p w = (w', r) → mkdirs_only w w'.
Proof.
  unfold Fs.mkdir_leaf. intros Hrun.
  destruct (Fs.os_mkdir p w) as [w1 [e|u]] eqn:Hmk;
    apply os_mkdir_only in Hmk.
  - destruct e as [| | | | | |[] f];
      try destruct (Fs.is_dir (Path.str p) w1);
      inversion Hrun; subst; assumption.
  - inversion Hrun; subst; assumption.
Qed.

Lemma mkdir_rev_only r rt : ∀ w w' res,
  Fs.mkdir_rev r rt w = (w', res) → mkdirs_only w w'.
Proof.
  induction rt as [|x rt IH]; intros w w' res Hrun; simpl in Hrun.
  - destruct (Fs.os_mkdir _ w) as [w1 [e|u]] eqn:Hmk;
      apply os_mkdir_only in Hmk.
    + destruct e as [| | | | | |[] f];
        try destruct (Fs.is_dir _ w1);
        inversion Hrun; subst; assumption.
    + inversion Hrun; subst; assumption.
  - destruct (Fs.os_mkdir _ w) as [w1 [e|u]] eqn:Hmk;
      apply os_mkdir_only in Hmk.
    + destruct e as [| | | | | |[] f];
        try (destruct (Fs.is_dir _ w1);
             inversion Hrun; subst; assumption).
      destruct (Fs.mkdir_rev r rt w1) as [w2 [e2|u2]] eqn:Hrec;
        apply IH in Hrec.
      * inversion Hrun; subst. eapply mkdirs_only_trans; eassumption.
      * apply mkdir_leaf_only in Hrun.
        eapply mkdirs_only_trans; [eassumption|].
        eapply mkdirs_only_trans; eassumption.
    + inversion Hrun; subst; assumption.
Qed.

Lemma mkdir_parents_only p w w' res :
  Fs.mkdir_parents p w = (w', res) → mkdirs_only w w'.
Proof. apply mkdir_rev_only. Qed.

Lemma check_writable_pure s w w' r :
  Fs.check_writable s w = (w', r) → w' = w.
Proof.
  unfold Fs.check_writable. intros Hrun.
  destruct (Fs.lookup (Fs.dirname s) w) as [[|c]|];
    [destruct (Fs.lookup s w) as [[|c']|]| |];
    inversion Hrun; reflexivity.
Qed.

(** *** Running the two phases *)

Lemma bind_inv {A B} (m : M A) (k : A → M B) w w' r :
  bind m k w = (w', r) →
  (∃ w1 a, m w = (w1, inr a) ∧ k a w1 = (w', r)) ∨
  (∃ e, m w = (w', inl e) ∧ r = inl e).
Proof.
  unfold bind. destruct (m w) as [w1 [e|a]]; intros Hrun.
  - right. exists e. by inversion Hrun.
  - left. by exists w1, a.
Qed.

Lemma lift_inv {A} (x : exn + A) w w' r :
  lift x w = (w', r) → w' = w ∧ x = r.
Proof. unfold lift. intros Hrun. by inversion Hrun. Qed.

Lemma savez_inv npz_path kwds w w' r :
  Savez.savez npz_path kwds w = (w', r) →
  (∃ e, r = inl e ∧ w' = w) ∨
  (r = inr tt ∧ dict_mem "file" kwds = false ∧
   Fs.check_writable (Savez.filename npz_path) w = (w, inr tt) ∧
   w' = archived npz_path kwds w).
Proof.
  unfold Savez.savez. destruct (dict_mem "file" kwds) eqn:Hfile.
  - intros Hrun. left. inversion Hrun. eauto.
  - intros Hrun. apply bind_inv in Hrun
      as [(w1 & [] & Hchk & Hput)|(e & Hchk & ->)].
    + pose proof (check_writable_pure _ _ _ _ Hchk) as ->.
      right. inversion Hput. auto.
    + pose proof (check_writable_pure _ _ _ _ Hchk) as ->.
      left. eauto.
Qed.

(** Without the key ["global"] the block stops at line 49, before any
    file-system call. *)
Lemma archive_phase_no_global sp p q w :
  dict_mem "global" sp = false →
  archive_phase sp p q w = (w, inl (ValueError msg_no_global)).
Proof. intros Hmem. unfold archive_phase. by rewrite Hmem. Qed.

(** What a run of lines 46-73 leaves behind. *)
Lemma archive_phase_inv sp p q w w1 r :
  archive_phase sp p q w = (w1, r) →
  match r with
  | inl e => mkdirs_only w w1
  | inr (gp, npz_path, pkl_path, np_params) =>
      ∃ g wd,
        dict_get "global" sp = Some gp ∧ gp = PyDict g ∧
        default_suffix (Path.of_string p) ".npz" = inr npz_path ∧
        default_suffix (Path.of_string q) ".pkl" = inr pkl_path ∧
        convert_items g [] = inr np_params ∧
        dict_mem "file" np_params = false ∧
        mkdirs_only w wd ∧
        Fs.check_writable (Savez.filename npz_path) wd = (wd, inr tt) ∧
        w1 = archived npz_path np_params wd
  end.
Proof.
  unfold archive_phase. intros Hrun.
  apply bind_inv in Hrun as [(wa & [] & Hchk & Hrun)|(e & Hchk & ->)]; cycle 1.
  { destruct (dict_mem "global" sp); inversion Hchk; subst.
    apply mkdirs_only_refl. }
  assert (wa = w) as ->.
  { destruct (dict_mem "global" sp); by inversion Hchk. }
  apply bind_inv in Hrun as [(wa & gp & Hget & Hrun)|(e & Hget & ->)];
    apply lift_inv in Hget as [-> Hget]; [|apply mkdirs_only_refl].
  unfold dict_getitem in Hget.
  destruct (dict_get "global" sp) as [gp'|] eqn:Hglobal; [|discriminate].
  injection Hget as Heq; subst gp'.
  apply bind_inv in Hrun as [(wa & [] & Hmk1 & Hrun)|(e & Hmk1 & ->)];
    apply mkdir_parents_only in Hmk1; [|assumption].
  apply bind_inv in Hrun as [(wb & [] & Hmk2 & Hrun)|(e & Hmk2 & ->)];
    apply mkdir_parents_only in Hmk2;
    pose proof (mkdirs_only_trans _ _ _ Hmk1 Hmk2) as Hmk; [|assumption].
  apply bind_inv in Hrun as [(wc & npz_path & Hnpz & Hrun)|(e & Hnpz & ->)];
    apply lift_inv in Hnpz as [-> Hnpz]; [|assumption].
  apply bind_inv in Hrun as [(wc & pkl_path & Hpkl & Hrun)|(e & Hpkl & ->)];
    apply lift_inv in Hpkl as [-> Hpkl]; [|assumption].
  apply bind_inv in Hrun as [(wc & np_params & Hconv & Hrun)|(e & Hconv & ->)];
    apply lift_inv in Hconv as [-> Hconv]; [|assumption].
  destruct gp as [g|ty]; [|discriminate]. simpl in Hconv.
  apply bind_inv in Hrun as [(wc & [] & Hsave & Hrun)|(e & Hsave & ->)];
    apply savez_inv in Hsave
      as [(e' & He' & ->)|(Hok & Hfile & Hw & ->)]; try discriminate;
    try assumption.
  inversion Hrun; subst. exists g, wb. done.
Qed.

(** The loop over the four required keys, unrolled. *)
Lemma fill_pred_required np_params global_params :
  fill_pred required_keys np_params global_params pred_empty =
    (a1 <~ resolve "body_pose" np_params global_params ;;
     a2 <~ resolve "global_orient" np_params global_params ;;
     a3 <~ resolve "transl" np_params global_params ;;
     a4 <~ resolve "betas" np_params global_params ;;
     inr (pred_of a1 a2 a3 a4)).
Proof.
  unfold required_keys, fill_pred, ebind.
  destruct (resolve "body_pose" _ _); [reflexivity|].
  destruct (resolve "global_orient" _ _); [reflexivity|].
  destruct (resolve "transl" _ _); [reflexivity|].
  destruct (resolve "betas" _ _); reflexivity.
Qed.

Lemma stat_size_pure p w w' r :
  Fs.stat_size p w = (w', r) → w' = w.
Proof.
  unfold Fs.stat_size.
  destruct (Fs.lookup (Path.str p) w) as [[|c]|]; intros Hrun;
    by inversion Hrun.
Qed.

(** What a run of lines 75-113 leaves behind: nothing when the record
    cannot be built or the object file cannot be opened; otherwise the
    object file, whatever comes after. *)
Lemma record_phase_inv gp npz_path pkl_path np_params w w' r :
  record_phase gp npz_path pkl_path np_params w = (w', r) →
  match fill_pred required_keys np_params gp pred_empty with
  | inl e => w' = w ∧ r = inl e
  | inr pred_np =>
      (w' = w ∧ ∃ e, r = inl e) ∨
      (w' = dumped pkl_path pred_np w ∧
       match r with
       | inl e => True
       | inr (file_path, info) =>
           ∃ a npz_size pkl_size n,
             nested_get "smpl_params_global" "body_pose" pred_np = Some a ∧
             shape0 a = inr n ∧
             Fs.stat_size npz_path w' = (w', inr npz_size) ∧
             Fs.stat_size pkl_path w' = (w', inr pkl_size) ∧
             file_path = Path.str (Path.absolute (cwd w') npz_path) ∧
             info = info_text npz_path npz_size pkl_path pkl_size n
       end)
  end.
Proof.
  unfold record_phase. fold pred_empty. intros Hrun.
  apply bind_inv in Hrun as [(wa & pred_np & Hfill & Hrun)|(e & Hfill & ->)];
    apply lift_inv in Hfill as [-> Hfill]; rewrite Hfill; [|done].
  apply bind_inv in Hrun as [(wa & handle & Hopen & Hrun)|(e & Hopen & ->)].
  - unfold Fs.open_wb in Hopen.
    apply bind_inv in Hopen as [(wb & [] & Hchk & Hput)|(e & Hchk & ?)];
      [|discriminate].
    apply check_writable_pure in Hchk as ->.
    inversion Hput; subst wa handle; clear Hput.
    apply bind_inv in Hrun as [(wa & [] & Hdump & Hrun)|(e & Hdump & ->)];
      [|discriminate].
    assert (wa = dumped pkl_path pred_np w) as ->.
    { unfold Pickle.dump in Hdump. simpl in Hdump.
      rewrite lookup_insert_eq in Hdump. by inversion Hdump. }
    clear Hdump. right.
    apply bind_inv in Hrun as [(wa & n & Hn & Hrun)|(e & Hn & ->)];
      apply lift_inv in Hn as [-> Hn]; [|done].
    apply bind_inv in Hrun as [(wa & s1 & Hs1 & Hrun)|(e & Hs1 & ->)];
      pose proof (stat_size_pure _ _ _ _ Hs1) as Hw; subst; [|done].
    apply bind_inv in Hrun as [(wa & s2 & Hs2 & Hrun)|(e & Hs2 & ->)];
      pose proof (stat_size_pure _ _ _ _ Hs2) as Hw; subst; [|done].
    inversion Hrun; subst w' r; clear Hrun. split; [reflexivity|].
    unfold dict_getitem, ebind in Hn. unfold nested_get.
    destruct (dict_get "smpl_params_global" pred_np) as [d|]; [|discriminate].
    destruct (dict_get "body_pose" d) as [a|]; [|discriminate].
    exists a, s1, s2, n. done.
  - unfold Fs.open_wb in Hopen.
    apply bind_inv in Hopen as [(wb & [] & Hchk & Hput)|(e' & Hchk & ?)];
      [discriminate|].
    apply check_writable_pure in Hchk as ->. left. eauto.
Qed.

(** *** Dictionaries and the conversion loop *)

Lemma dict_get_set {V} (k k' : string) (v : V) (d : dict V) :
  dict_get k (dict_set k' v d) =
    if String.eqb k' k then Some v else dict_get k d.
Proof.
  induction d as [|[k0 v0] d IH]; simpl; [reflexivity|].
  destruct (String.eqb k0 k') eqn:E0; simpl.
  - apply String.eqb_eq in E0 as ->. by destruct (String.eqb k' k).
  - rewrite IH. destruct (String.eqb k0 k) eqn:E1; [|reflexivity].
    apply String.eqb_eq in E1 as ->. by rewrite String.eqb_sym, E0.
Qed.

Lemma dict_mem_set {V} (k k' : string) (v : V) (d : dict V) :
  dict_mem k (dict_set k' v d) = String.eqb k' k || dict_mem k d.
Proof.
  unfold dict_mem. rewrite dict_get_set. by destruct (String.eqb k' k).
Qed.

Lemma dict_mem_cons {V} (k k' : string) (v : V) (d : dict V) :
  dict_mem k ((k', v) :: d) = String.eqb k' k || dict_mem k d.
Proof. unfold dict_mem. simpl. by destruct (String.eqb k' k). Qed.

Lemma dict_mem_keys {V} (k : string) (d : dict V) :
  dict_mem k d = true ↔ k ∈ keys d.
Proof.
  induction d as [|[k0 v0] d IH]; simpl.
  - split; [discriminate|]. intros Hin. by apply elem_of_nil in Hin.
  - rewrite dict_mem_cons, orb_true_iff, IH, elem_of_cons, String.eqb_eq.
    split; intros [?|?]; auto.
Qed.

Lemma dict_set_fresh {V} (k : string) (v : V) (d : dict V) :
  dict_mem k d = false → dict_set k v d = d ++ [(k, v)].
Proof.
  induction d as [|[k0 v0] d IH]; simpl; [reflexivity|].
  rewrite dict_mem_cons. intros [E0 Hd]%orb_false_iff.
  rewrite E0. by rewrite IH.
Qed.

(** Line 67-71 put a key into [np_params] for every key of
    [global_params], and no other. *)
Lemma convert_items_mem items : ∀ acc np_params,
  convert_items items acc = inr np_params →
  ∀ k, dict_mem k np_params = dict_mem k items || dict_mem k acc.
Proof.
  induction items as [|[k0 v0] items IH]; intros acc np_params Hrun k;
    simpl in Hrun.
  - by inversion Hrun.
  - destruct (to_numpy v0) as [e|a]; [discriminate|]. simpl in Hrun.
    rewrite (IH _ _ Hrun), dict_mem_set, dict_mem_cons.
    destruct (String.eqb k0 k), (dict_mem k items), (dict_mem k acc); done.
Qed.

(** For a dictionary (keys pairwise distinct), the converted set is
    the raw set entry by entry, in the same order. *)
Lemma convert_items_Forall2 items : ∀ acc np_params,
  convert_items items acc = inr np_params →
  NoDup (keys items) →
  (∀ k, k ∈ keys items → dict_mem k acc = false) →
  ∃ cv, np_params = acc ++ cv ∧ Forall2 converted items cv.
Proof.
  induction items as [|[k0 v0] items IH]; intros acc np_params Hrun Hnd Hacc;
    simpl in Hrun.
  - inversion Hrun; subst. exists []. by rewrite app_nil_r.
  - destruct (to_numpy v0) as [e|a] eqn:Hconv; [discriminate|].
    simpl in Hrun, Hnd. apply NoDup_cons in Hnd as [Hk0 Hnd].
    rewrite dict_set_fresh in Hrun
      by (apply Hacc; simpl; apply list_elem_of_here).
    apply IH in Hrun as (cv & -> & Hcv); [|assumption|].
    + exists ((k0, a) :: cv). split; [by rewrite <- app_assoc|].
      constructor; [by split|assumption].
    + intros k Hk. unfold dict_mem.
      destruct (dict_get k (acc ++ [(k0, a)])) as [x|] eqn:Hget;
        [|reflexivity].
      exfalso. assert (dict_mem k (acc ++ [(k0, a)]) = true) as Hm
        by (unfold dict_mem; by rewrite Hget).
      apply dict_mem_keys in Hm. unfold keys in Hm.
      rewrite map_app in Hm. apply elem_of_app in Hm as [Hm|Hm].
      * apply dict_mem_keys in Hm.
        rewrite Hacc in Hm; [discriminate|]. simpl. by apply list_elem_of_further.
      * simpl in Hm. apply list_elem_of_singleton in Hm as ->. contradiction.
Qed.


Lemma converted_get g cv k v :
  Forall2 converted g cv → dict_get k g = Some v →
  ∃ a, to_numpy v = inr a ∧ dict_get k cv = Some a.
Proof.
  induction 1 as [|[k0 v0] [k1 a1] g cv [Hk Hc] _ IH]; simpl;
    [discriminate|].
  simpl in Hk, Hc. subst k1. destruct (String.eqb k0 k).
  - intros [= ->]. eauto.
  - assumption.
Qed.

(** Line 82-91 on a converted set: the fallback never runs. *)
Lemma resolve_converted g np_params k :
  (∀ k, dict_mem k np_params = dict_mem k g) →
  resolve k np_params (PyDict g) =
    match dict_get k np_params with
    | Some a => inr a
    | None => inl (KeyError (msg_missing k))
    end.
Proof.
  intros Hsame. unfold resolve. specialize (Hsame k).
  unfold dict_getitem. simpl. rewrite <- Hsame. unfold dict_mem.
  by destruct (dict_get k np_params).
Qed.

(** The record loop on a converted set: it stops at the first
    required key that is missing. *)
Lemma fill_pred_converted g np_params :
  (∀ k, dict_mem k np_params = dict_mem k g) →
  fill_pred required_keys np_params (PyDict g) pred_empty =
    match dict_get "body_pose" np_params,
          dict_get "global_orient" np_params,
          dict_get "transl" np_params,
          dict_get "betas" np_params with
    | None, _, _, _ => inl (KeyError (msg_missing "body_pose"))
    | Some _, None, _, _ => inl (KeyError (msg_missing "global_orient"))
    | Some _, Some _, None, _ => inl (KeyError (msg_missing "transl"))
    | Some _, Some _, Some _, None => inl (KeyError (msg_missing "betas"))
    | Some a1, Some a2, Some a3, Some a4 => inr (pred_of a1 a2 a3 a4)
    end.
Proof.
  intros Hsame. rewrite fill_pred_required.
  rewrite !(resolve_converted g) by assumption. unfold ebind.
  destruct (dict_get "body_pose" np_params); [|reflexivity].
  destruct (dict_get "global_orient" np_params); [|reflexivity].
  destruct (dict_get "transl" np_params); [|reflexivity].
  by destruct (dict_get "betas" np_params).
Qed.

(** *** The whole [try] block *)

Lemma save_smpl_body_inv sp p q w w' r :
  save_smpl_body sp p q w = (w', r) →
  (∃ e, r = inl e ∧ archive_phase sp p q w = (w', inl e) ∧
        mkdirs_only w w') ∨
  (∃ g npz pkl np wd,
      archive_facts sp p q w g npz pkl np wd ∧
      archive_phase sp p q w =
        (archived npz np wd, inr (PyDict g, npz, pkl, np)) ∧
      record_phase (PyDict g) npz pkl np (archived npz np wd) = (w', r)).
Proof.
  unfold save_smpl_body. intros Hrun.
  apply bind_inv in Hrun
    as [(w1 & [[[gp npz] pkl] np] & Harch & Hrec)|(e & Harch & ->)].
  - right. pose proof (archive_phase_inv _ _ _ _ _ _ Harch) as Hinv.
    simpl in Hinv.
    destruct Hinv as (g & wd & Hg & -> & Hn & Hp & Hc & Hf & Hm & Hw & ->).
    exists g, npz, pkl, np, wd. split; [by constructor|]. by split.
  - left. exists e. split; [reflexivity|]. split; [assumption|].
    apply (archive_phase_inv _ _ _ _ _ _ Harch).
Qed.

(** A successful run: both files are written, in this order, after
    the directories. *)
Lemma save_smpl_body_success sp p q w w' file_path info :
  save_smpl_body sp p q w = (w', inr (file_path, info)) →
  ∃ g npz pkl np wd a1 a2 a3 a4 n npz_size pkl_size,
    archive_facts sp p q w g npz pkl np wd ∧
    dict_get "body_pose" np = Some a1 ∧
    dict_get "global_orient" np = Some a2 ∧
    dict_get "transl" np = Some a3 ∧
    dict_get "betas" np = Some a4 ∧
    w' = dumped pkl (pred_of a1 a2 a3 a4) (archived npz np wd) ∧
    shape0 a1 = inr n ∧
    file_path = Path.str (Path.absolute (cwd w') npz) ∧
    info = info_text npz npz_size pkl pkl_size n.
Proof.
  intros Hrun. apply save_smpl_body_inv in Hrun
    as [(e & ? & _)|(g & npz & pkl & np & wd & Hf & _ & Hrec)];
    [discriminate|].
  apply record_phase_inv in Hrec.
  pose proof (convert_items_mem _ _ _ (af_convert _ _ _ _ _ _ _ _ _ Hf))
    as Hsame.
  rewrite fill_pred_converted in Hrec
    by (intros k; rewrite Hsame; apply orb_false_r).
  destruct (dict_get "body_pose" np) as [a1|] eqn:H1;
    [|by destruct Hrec].
  destruct (dict_get "global_orient" np) as [a2|] eqn:H2;
    [|by destruct Hrec].
  destruct (dict_get "transl" np) as [a3|] eqn:H3; [|by destruct Hrec].
  destruct (dict_get "betas" np) as [a4|] eqn:H4; [|by destruct Hrec].
  destruct Hrec as [[_ [e ?]]|[-> Hrest]]; [discriminate|].
  destruct Hrest as (a & s1 & s2 & n & Ha & Hn & _ & _ & -> & ->).
  injection Ha as <-.
  exists g, npz, pkl, np, wd, a1, a2, a3, a4, n, s1, s2. done.
Qed.

Lemma converted_mem g np : convert_items g [] = inr np →
  ∀ k, dict_mem k np = dict_mem k g.
Proof.
  intros Hc k. rewrite (convert_items_mem _ _ _ Hc). apply orb_false_r.
Qed.

Lemma dict_get_mem {V} (k : string) (d : dict V) v :
  dict_get k d = Some v → dict_mem k d = true.
Proof. unfold dict_mem. by intros ->. Qed.

(** The events of one run: directories, then at most the archive,
    then at most the object file; the object file is only reached
    with all four required keys in the converted set. *)
Lemma save_smpl_body_log sp p q w w' r :
  save_smpl_body sp p q w = (w', r) →
  ∃ dirs, Forall (λ ev, is_mkdir_ev ev = true) dirs ∧
    ((log w' = log w ++ dirs ∧ ∃ e, r = inl e) ∨
     (∃ g npz pkl np wd,
         archive_facts sp p q w g npz pkl np wd ∧
         ((log w' = log w ++ dirs ++ [EvSavez (Savez.filename npz) np] ∧
           ∃ e, r = inl e) ∨
          (∃ a1 a2 a3 a4,
              dict_get "body_pose" np = Some a1 ∧
              dict_get "global_orient" np = Some a2 ∧
              dict_get "transl" np = Some a3 ∧
              dict_get "betas" np = Some a4 ∧
              log w' = log w ++ dirs ++
                [EvSavez (Savez.filename npz) np; EvOpenW (Path.str pkl);
                 EvDump (Path.str pkl) HIGHEST_PROTOCOL
                   (pred_of a1 a2 a3 a4)])))).
Proof.
  intros Hrun. apply save_smpl_body_inv in Hrun
    as [(e & -> & _ & _ & dirs & Hlog & Hdirs)
       |(g & npz & pkl & np & wd & Hf & _ & Hrec)].
  { exists dirs. split; [assumption|]. left. eauto. }
  destruct (af_mkdirs _ _ _ _ _ _ _ _ _ Hf) as (_ & dirs & Hlog & Hdirs).
  exists dirs. split; [assumption|]. right.
  exists g, npz, pkl, np, wd. split; [assumption|].
  pose proof (converted_mem _ _ (af_convert _ _ _ _ _ _ _ _ _ Hf)) as Hsame.
  apply record_phase_inv in Hrec. rewrite fill_pred_converted in Hrec
    by assumption.
  assert (log (archived npz np wd) =
          log w ++ dirs ++ [EvSavez (Savez.filename npz) np]) as Harch.
  { simpl. rewrite Hlog. by rewrite <- app_assoc. }
  destruct (dict_get "body_pose" np) as [a1|] eqn:H1;
    [|destruct Hrec as [-> ->]; left; eauto].
  destruct (dict_get "global_orient" np) as [a2|] eqn:H2;
    [|destruct Hrec as [-> ->]; left; eauto].
  destruct (dict_get "transl" np) as [a3|] eqn:H3;
    [|destruct Hrec as [-> ->]; left; eauto].
  destruct (dict_get "betas" np) as [a4|] eqn:H4;
    [|destruct Hrec as [-> ->]; left; eauto].
  destruct Hrec as [[-> [e ->]]|[-> _]]; [left; eauto|].
  right. exists a1, a2, a3, a4. repeat (split; [reflexivity|]).
  simpl. rewrite Hlog. by rewrite <- !app_assoc.
Qed.


(** *** Paths *)

Lemma length_append s t :
  String.length (s +:+ t) = String.length s + String.length t.
Proof.
  induction s as [|a s IH]; [reflexivity|].
  change (String a s +:+ t) with (String a (s +:+ t)). simpl. by rewrite IH.
Qed.

Lemma append_assoc s t u : (s +:+ t) +:+ u = s +:+ (t +:+ u).
Proof.
  induction s as [|a s IH]; [reflexivity|].
  change (String a s +:+ t) with (String a (s +:+ t)).
  change (String a (s +:+ t) +:+ u) with (String a ((s +:+ t) +:+ u)).
  by rewrite IH.
Qed.

Lemma take_all s : PyStr.take (String.length s) s = s.
Proof. induction s as [|a s IH]; simpl; [reflexivity|]. by rewrite IH. Qed.

Lemma last_snoc (l : list string) x d : List.last (l ++ [x]) d = x.
Proof.
  induction l as [|y l IH]; [reflexivity|].
  simpl. destruct (l ++ [x]) eqn:E; [by destruct l|assumption].
Qed.

Lemma snoc_removelast (l : list string) :
  l ≠ [] → l = List.removelast l ++ [List.last l EmptyString].
Proof.
  induction l as [|y l IH]; [done|]. intros _.
  destruct l as [|z l]; [reflexivity|].
  change (y :: z :: l = y :: (List.removelast (z :: l)
                                ++ [List.last (z :: l) EmptyString])).
  by rewrite <- IH.
Qed.

Lemma join_cons sep x y l :
  PyStr.join sep (x :: y :: l) = x +:+ sep +:+ PyStr.join sep (y :: l).
Proof. reflexivity. Qed.

(** Appending to the last component appends to the joined text. *)
Lemma join_snoc sep l x y :
  PyStr.join sep (l ++ [x +:+ y]) = PyStr.join sep (l ++ [x]) +:+ y.
Proof.
  induction l as [|a l IH]; [reflexivity|].
  destruct l as [|b l].
  - simpl. by rewrite !append_assoc.
  - change ((a :: b :: l) ++ [x +:+ y]) with (a :: b :: (l ++ [x +:+ y])).
    change ((a :: b :: l) ++ [x]) with (a :: b :: (l ++ [x])).
    change ((b :: l) ++ [x +:+ y]) with (b :: (l ++ [x +:+ y])) in IH.
    change ((b :: l) ++ [x]) with (b :: (l ++ [x])) in IH.
    rewrite !join_cons, IH. by rewrite !append_assoc.
Qed.

Lemma join_last_length sep l :
  (String.length (List.last l EmptyString)
     ≤ String.length (PyStr.join sep l))%nat.
Proof.
  induction l as [|a l IH]; [reflexivity|].
  destruct l as [|b l]; [reflexivity|].
  rewrite join_cons, !length_append.
  change (List.last (a :: b :: l) EmptyString)
    with (List.last (b :: l) EmptyString). lia.
Qed.

Lemma str_nonempty_tail p :
  tail p ≠ [] → Path.str p = root p +:+ PyStr.join "/" (tail p).
Proof.
  unfold Path.str. destruct (root p), (tail p); done.
Qed.

Lemma name_nonempty_tail p : Path.name p ≠ EmptyString → tail p ≠ [].
Proof. unfold Path.name. by destruct (tail p). Qed.

Lemma str_length_name p :
  (String.length (Path.name p) ≤ String.length (Path.str p))%nat.
Proof.
  destruct (tail p) as [|a l] eqn:Ht.
  - unfold Path.name. rewrite Ht. simpl. lia.
  - rewrite str_nonempty_tail by (by rewrite Ht).
    rewrite length_append. unfold Path.name.
    pose proof (join_last_length "/" (tail p)). lia.
Qed.

Lemma drop_nonempty_length i s :
  PyStr.drop i s ≠ EmptyString → (i < String.length s)%nat.
Proof.
  revert s. induction i as [|i IH]; intros [|a s]; simpl; try done.
  - lia.
  - intros Hne. apply IH in Hne. lia.
Qed.

(** A name with an extension has at least three characters. *)
Lemma suffix_of_name_length n :
  Path.suffix_of_name n ≠ EmptyString → (3 ≤ String.length n)%nat.
Proof.
  unfold Path.suffix_of_name. destruct (PyStr.rfind "." n) as [i|]; [|done].
  destruct ((0 <? i)%nat && (i <? String.length n - 1)%nat) eqn:E; [|done].
  apply andb_true_iff in E as [E1%Nat.ltb_lt E2%Nat.ltb_lt]. lia.
Qed.

(** Lines 61-64, on a path with a name and no extension: the default
    extension is appended to the text of the path. *)
Lemma default_suffix_appends p sfx :
  Path.name p ≠ EmptyString → Path.suffix p = EmptyString →
  ∃ p', default_suffix p sfx = inr p' ∧
        Path.str p' = Path.str p +:+ sfx ∧
        Path.name p' = Path.name p +:+ sfx.
Proof.
  intros Hname Hsfx. unfold default_suffix, Path.with_suffix.
  rewrite Hsfx. simpl.
  destruct (String.eqb (Path.name p) EmptyString) eqn:E;
    [by apply String.eqb_eq in E|].
  eexists. split; [reflexivity|]. rewrite Nat.sub_0_r, take_all.
  pose proof (name_nonempty_tail _ Hname) as Ht. split.
  - rewrite !str_nonempty_tail; simpl; [|assumption|by destruct (removelast _)].
    rewrite join_snoc, append_assoc.
    unfold Path.name. by rewrite <- snoc_removelast.
  - unfold Path.name at 1. simpl. apply last_snoc.
Qed.

(** Lines 61-64, on a path with an extension: the path is kept. *)
Lemma default_suffix_keeps p sfx :
  Path.suffix p ≠ EmptyString → default_suffix p sfx = inr p.
Proof.
  intros Hsfx. unfold default_suffix.
  destruct (String.eqb (Path.suffix p) EmptyString) eqn:E;
    [by apply String.eqb_eq in E|reflexivity].
Qed.

(** Lines 61-64 refuse a path without a name. *)
Lemma default_suffix_empty_name p sfx :
  Path.name p = EmptyString →
  default_suffix p sfx =
    inl (ValueError ("PosixPath(" +:+ PyStr.repr (Path.str p)
                       +:+ ") has an empty name")).
Proof.
  intros Hname. unfold default_suffix, Path.suffix, Path.with_suffix.
  rewrite Hname. reflexivity.
Qed.

Lemma default_suffix_name p sfx p' :
  default_suffix p sfx = inr p' → (3 ≤ String.length sfx)%nat →
  (3 ≤ String.length (Path.name p'))%nat.
Proof.
  intros Hd Hlen.
  destruct (String.eqb (Path.suffix p) EmptyString) eqn:E.
  - apply String.eqb_eq in E.
    destruct (String.eqb (Path.name p) EmptyString) eqn:En.
    + apply String.eqb_eq in En.
      rewrite default_suffix_empty_name in Hd by assumption. discriminate.
    + apply String.eqb_neq in En.
      destruct (default_suffix_appends p sfx En E) as (p1 & Hp1 & _ & Hn).
      rewrite Hp1 in Hd. injection Hd as <-. rewrite Hn, length_append. lia.
  - apply String.eqb_neq in E. rewrite default_suffix_keeps in Hd by assumption.
    injection Hd as <-. by apply suffix_of_name_length.
Qed.

Lemma lookup_long s w :
  (3 ≤ String.length s)%nat → Fs.lookup s w = entries w !! s.
Proof.
  intros Hlen. unfold Fs.lookup.
  destruct (String.eqb s ".") eqn:E1;
    [apply String.eqb_eq in E1; subst; simpl in Hlen; lia|].
  destruct (String.eqb s "/") eqn:E2;
    [apply String.eqb_eq in E2; subst; simpl in Hlen; lia|].
  destruct (String.eqb s "//") eqn:E3;
    [apply String.eqb_eq in E3; subst; simpl in Hlen; lia|].
  reflexivity.
Qed.

Lemma lookup_defaulted p sfx p' w :
  default_suffix p sfx = inr p' → (3 ≤ String.length sfx)%nat →
  Fs.lookup (Path.str p') w = entries w !! Path.str p'.
Proof.
  intros Hd Hlen. apply lookup_long.
  pose proof (default_suffix_name _ _ _ Hd Hlen).
  pose proof (str_length_name p'). lia.
Qed.

Lemma endswith_length x s :
  PyStr.endswith x s = true → (String.length x ≤ String.length s)%nat.
Proof.
  unfold PyStr.endswith. intros [Hle%Nat.leb_le _]%andb_true_iff. lia.
Qed.

Lemma lookup_filename p w :
  Fs.lookup (Savez.filename p) w = entries w !! Savez.filename p.
Proof.
  unfold Savez.filename.
  destruct (PyStr.endswith ".npz" (Path.str p)) eqn:E.
  - apply lookup_long. apply endswith_length in E. simpl in E. lia.
  - apply lookup_long. rewrite length_append. simpl. lia.
Qed.

Lemma drop_append a x : PyStr.drop (String.length a) (a +:+ x) = x.
Proof. induction a as [|c a IH]; [by destruct x|]. exact IH. Qed.

Lemma endswith_append a x : PyStr.endswith x (a +:+ x) = true.
Proof.
  unfold PyStr.endswith. rewrite length_append. apply andb_true_iff. split.
  - apply Nat.leb_le. lia.
  - replace (String.length a + String.length x - String.length x)%nat
      with (String.length a) by lia.
    rewrite drop_append. apply String.eqb_refl.
Qed.

(** With the default extension in place, [np.savez] keeps the name. *)
Lemma filename_defaulted p npz :
  Path.suffix p = EmptyString →
  default_suffix p ".npz" = inr npz →
  Savez.filename npz = Path.str p +:+ ".npz".
Proof.
  intros Hsfx Hd.
  destruct (String.eqb (Path.name p) EmptyString) eqn:En.
  - apply String.eqb_eq in En.
    rewrite default_suffix_empty_name in Hd by assumption. discriminate.
  - apply String.eqb_neq in En.
    destruct (default_suffix_appends p ".npz" En Hsfx) as (p1 & Hp1 & Hs & _).
    rewrite Hp1 in Hd. injection Hd as <-.
    unfold Savez.filename. by rewrite Hs, endswith_append.
Qed.

Lemma str_defaulted p sfx p' :
  Path.suffix p = EmptyString →
  default_suffix p sfx = inr p' →
  Path.str p' = Path.str p +:+ sfx.
Proof.
  intros Hsfx Hd.
  destruct (String.eqb (Path.name p) EmptyString) eqn:En.
  - apply String.eqb_eq in En.
    rewrite default_suffix_empty_name in Hd by assumption. discriminate.
  - apply String.eqb_neq in En.
    destruct (default_suffix_appends p sfx En Hsfx) as (p1 & Hp1 & Hs & _).
    rewrite Hp1 in Hd. by injection Hd as <-.
Qed.

(** *** Reading the two files back *)

Lemma load_pickle_dumped p pkl pred w :
  default_suffix p ".pkl" = inr pkl →
  Pickle.load (Path.str pkl) (dumped pkl pred w) = inr pred.
Proof.
  intros Hd. unfold Pickle.load.
  rewrite (lookup_defaulted _ _ _ _ Hd) by (simpl; lia).
  unfold dumped. simpl. by rewrite lookup_insert_eq.
Qed.

Lemma entries_dumped_other f pkl pred w :
  f ≠ Path.str pkl → entries (dumped pkl pred w) !! f = entries w !! f.
Proof.
  intros Hne. unfold dumped. simpl. by rewrite !lookup_insert_ne.
Qed.

(** What [np.savez] leaves out of the archive. *)
Lemma members_id (d : dict ndarray) :
  dict_mem "allow_pickle" d = false → Savez.members d = d.
Proof.
  unfold Savez.members. induction d as [|[k a] d IH]; [reflexivity|].
  rewrite dict_mem_cons. intros Hm. apply orb_false_elim in Hm as [Hk Hd].
  simpl. rewrite Hk. simpl. by rewrite IH.
Qed.

Lemma members_get (d : dict ndarray) k :
  k ≠ "allow_pickle" → dict_get k (Savez.members d) = dict_get k d.
Proof.
  intros Hk. unfold Savez.members. induction d as [|[k' a] d IH];
    [reflexivity|].
  simpl. destruct (String.eqb k' "allow_pickle") eqn:E; simpl.
  - apply String.eqb_eq in E as ->.
    destruct (String.eqb "allow_pickle" k) eqn:E'; [|exact IH].
    apply String.eqb_eq in E'. congruence.
  - by rewrite IH.
Qed.

Lemma members_mem (d : dict ndarray) k :
  dict_mem k (Savez.members d)
    = negb (String.eqb k "allow_pickle") && dict_mem k d.
Proof.
  destruct (String.eqb k "allow_pickle") eqn:E; simpl.
  - apply String.eqb_eq in E as ->. unfold Savez.members.
    induction d as [|[k' a] d IH]; [reflexivity|].
    simpl. destruct (String.eqb k' "allow_pickle") eqn:E'; simpl;
      [exact IH|].
    rewrite dict_mem_cons, E'. exact IH.
  - unfold dict_mem. rewrite members_get; [reflexivity|].
    intros ->. by rewrite String.eqb_refl in E.
Qed.

Lemma entries_archived npz np w :
  entries (archived npz np w) !! Savez.filename npz
    = Some (File (NpzArchive (Savez.members np))).
Proof. unfold archived. simpl. apply lookup_insert_eq. Qed.

Lemma load_archive_archived npz np w :
  Savez.load (Savez.filename npz) (archived npz np w)
    = inr (Savez.members np).
Proof.
  unfold Savez.load. by rewrite lookup_filename, entries_archived.
Qed.


Lemma info_text_frames npz npz_size pkl pkl_size n :
  ∃ pre, info_text npz npz_size pkl pkl_size n =
           pre +:+ "Frames: " +:+ PyStr.of_N (N.of_nat n) +:+ PyStr.NL.
Proof.
  exists ("SaveSMPL Complete" +:+ PyStr.NL
          +:+ "NPZ: " +:+ Path.str npz +:+ " (" +:+ fmt_kb npz_size
          +:+ " KB)" +:+ PyStr.NL
          +:+ "PKL: " +:+ Path.str pkl +:+ " (" +:+ fmt_kb pkl_size
          +:+ " KB)" +:+ PyStr.NL).
  unfold info_text. by rewrite !append_assoc.
Qed.

(** *** Failing runs and the events of a run *)

Lemma npz_is_not_pkl x y : x +:+ ".npz" ≠ y +:+ ".pkl".
Proof.
  intros Heq. pose proof (endswith_append x ".npz") as Hx.
  rewrite Heq in Hx. unfold PyStr.endswith in Hx.
  rewrite length_append in Hx.
  replace (String.length y + String.length ".pkl" - String.length ".npz")%nat
    with (String.length y) in Hx by (simpl; lia).
  rewrite drop_append in Hx. apply andb_true_iff in Hx as [_ Hx].
  discriminate.
Qed.

Lemma record_phase_fail gp npz pkl np w e :
  fill_pred required_keys np gp pred_empty = inl e →
  record_phase gp npz pkl np w = (w, inl e).
Proof.
  intros Hfill. unfold record_phase, bind, lift. fold pred_empty.
  by rewrite Hfill.
Qed.

(** With a required key missing, the record loop raises the
    missing-key error of the first required key that is missing. *)
Lemma fill_pred_missing g np k :
  (∀ k, dict_mem k np = dict_mem k g) →
  k ∈ required_keys → dict_mem k g = false →
  ∃ k', k' ∈ required_keys ∧ dict_mem k' g = false ∧
        fill_pred required_keys np (PyDict g) pred_empty
          = inl (KeyError (msg_missing k')).
Proof.
  intros Hsame Hk Hmiss. rewrite fill_pred_converted by assumption.
  assert (∀ k', dict_get k' np = None → dict_mem k' g = false) as Hnone.
  { intros k' Hget. rewrite <- Hsame. unfold dict_mem. by rewrite Hget. }
  destruct (dict_get "body_pose" np) as [a1|] eqn:H1; cycle 1.
  { exists "body_pose". split; [key_in|]. split; [by apply Hnone|done]. }
  destruct (dict_get "global_orient" np) as [a2|] eqn:H2; cycle 1.
  { exists "global_orient". split; [key_in|]. split; [by apply Hnone|done]. }
  destruct (dict_get "transl" np) as [a3|] eqn:H3; cycle 1.
  { exists "transl". split; [key_in|]. split; [by apply Hnone|done]. }
  destruct (dict_get "betas" np) as [a4|] eqn:H4; cycle 1.
  { exists "betas". split; [key_in|]. split; [by apply Hnone|done]. }
  exfalso. rewrite <- Hsame in Hmiss. unfold required_keys in Hk.
  repeat (apply elem_of_cons in Hk as [->|Hk];
          [unfold dict_mem in Hmiss;
           rewrite ?H1, ?H2, ?H3, ?H4 in Hmiss; discriminate|]).
  by apply elem_of_nil in Hk.
Qed.

(** Where one run writes: every archive is named by [np.savez] after
    the archive path of lines 61-62, every event of the object file is
    at the object path of lines 63-64. *)
Lemma events_of_run sp p q w w' r evs :
  save_smpl_body sp p q w = (w', r) →
  log w' = log w ++ evs →
  ∀ ev, ev ∈ evs →
    match ev with
    | EvMkdir _ => True
    | EvSavez f _ =>
        ∃ npz, default_suffix (Path.of_string p) ".npz" = inr npz ∧
               f = Savez.filename npz
    | EvOpenW f | EvDump f _ _ =>
        ∃ pkl, default_suffix (Path.of_string q) ".pkl" = inr pkl ∧
               f = Path.str pkl
    end.
Proof.
  intros Hrun Hlog ev Hin. apply save_smpl_body_log in Hrun
    as (dirs & Hdirs & [[Hl _]|(g & npz & pkl & np & wd & Hf &
          [[Hl _]|(a1 & a2 & a3 & a4 & _ & _ & _ & _ & Hl)])]);
    rewrite Hlog in Hl; apply app_inv_head in Hl; subst evs;
    rewrite Forall_forall in Hdirs.
  - apply Hdirs in Hin. by destruct ev.
  - apply elem_of_app in Hin as [Hin|Hin];
      [apply Hdirs in Hin; by destruct ev|].
    apply list_elem_of_singleton in Hin as ->.
    exists npz. split; [apply (af_npz _ _ _ _ _ _ _ _ _ Hf)|reflexivity].
  - apply elem_of_app in Hin as [Hin|Hin];
      [apply Hdirs in Hin; by destruct ev|].
    repeat (apply elem_of_cons in Hin as [->|Hin];
            [first [ exists npz; split;
                       [apply (af_npz _ _ _ _ _ _ _ _ _ Hf)|reflexivity]
                   | exists pkl; split;
                       [apply (af_pkl _ _ _ _ _ _ _ _ _ Hf)|reflexivity] ]|]).
    by apply elem_of_nil in Hin.
Qed.

Lemma prefix_append s t : String.prefix s (s +:+ t) = true.
Proof.
  induction s as [|a s IH]; [by destruct t|].
  change (String a s +:+ t) with (String a (s +:+ t)). simpl.
  destruct (ascii_dec a a); [assumption|contradiction].
Qed.

(** *** The claims *)

(** C2. For every bundle that reaches the record-building step (lines
    46-73 ran to the end), the converted set [np_params] has exactly
    the keys of the raw set [global_params]; hence no key is absent
    from [np_params] and present in [global_params], the fallback of
    lines 87-91 never runs ([resolve] is a lookup in [np_params] or the
    missing-key error), and the missing-key error for a key is raised
    if and only if the key is absent from [global_params]. *)
Theorem fallback_is_dead sp p q w w1 gp npz_path pkl_path np_params :
  archive_phase sp p q w = (w1, inr (gp, npz_path, pkl_path, np_params)) →
  ∃ g, gp = PyDict g ∧
    (∀ k, dict_mem k np_params = dict_mem k g) ∧
    (∀ k, ¬ (dict_mem k np_params = false ∧ py_contains k gp = inr true)) ∧
    (∀ k, resolve k np_params gp =
            match dict_get k np_params with
            | Some a => inr a
            | None => inl (KeyError (msg_missing k))
            end) ∧
    (∀ k, resolve k np_params gp = inl (KeyError (msg_missing k))
          ↔ dict_mem k g = false).
Proof.
  intros Hrun. apply archive_phase_inv in Hrun.
  destruct Hrun as (g & wd & _ & -> & _ & _ & Hc & _).
  pose proof (converted_mem _ _ Hc) as Hsame.
  exists g. split; [reflexivity|]. split; [assumption|]. split; [|split].
  - intros k [Hnp Hg]. simpl in Hg. rewrite <- Hsame, Hnp in Hg.
    discriminate.
  - intros k. by apply resolve_converted.
  - intros k. rewrite (resolve_converted g) by assumption.
    rewrite <- Hsame. unfold dict_mem.
    destruct (dict_get k np_params); split; done.
Qed.

(** C3. For every bundle without the key ["global"], whatever the two
    path strings and the file system, [save_smpl] returns the empty
    string and an error text that mentions ['global'], and leaves the
    world as it was: no directory is made and no file is written. *)
Theorem missing_global_no_side_effects sp p q w :
  dict_mem "global" sp = false →
  save_smpl sp p q w =
    (w, (EmptyString, "SaveSMPL failed: " +:+ msg_no_global)) ∧
  PyStr.contains "'global'" ("SaveSMPL failed: " +:+ msg_no_global) = true.
Proof.
  intros Hmem. split; [|reflexivity].
  unfold save_smpl, save_smpl_body, bind.
  by rewrite archive_phase_no_global.
Qed.

(** C5. In every run, whatever it returns, a record dumped to the
    object file has the same array under each of the four required
    keys in its two namespaces; indeed the two namespaces are equal. *)
Theorem namespaces_identical sp p q w w' r evs f protocol obj :
  save_smpl_body sp p q w = (w', r) →
  log w' = log w ++ evs →
  EvDump f protocol obj ∈ evs →
  dict_get "smpl_params_global" obj = dict_get "smpl_params_incam" obj ∧
  ∀ k, k ∈ required_keys →
    ∃ a, nested_get "smpl_params_global" k obj = Some a ∧
         nested_get "smpl_params_incam" k obj = Some a.
Proof.
  intros Hrun Hlog Hin. apply save_smpl_body_log in Hrun
    as (dirs & Hdirs & [[Hl _]|(g & npz & pkl & np & wd & _ &
          [[Hl _]|(a1 & a2 & a3 & a4 & _ & _ & _ & _ & Hl)])]);
    rewrite Hlog in Hl; apply app_inv_head in Hl; subst evs.
  - rewrite Forall_forall in Hdirs. by apply Hdirs in Hin.
  - apply elem_of_app in Hin as [Hin|Hin].
    + rewrite Forall_forall in Hdirs. by apply Hdirs in Hin.
    + apply list_elem_of_singleton in Hin. discriminate.
  - apply elem_of_app in Hin as [Hin|Hin].
    + rewrite Forall_forall in Hdirs. by apply Hdirs in Hin.
    + repeat (apply elem_of_cons in Hin as [Hin|Hin]; [try discriminate|]);
        [|by apply elem_of_nil in Hin].
      injection Hin as -> -> ->. split; [reflexivity|].
      intros k Hk. unfold required_keys in Hk.
      repeat (apply elem_of_cons in Hk as [->|Hk];
              [eexists; split; reflexivity|]).
      by apply elem_of_nil in Hk.
Qed.

(** C7. After a successful run the object file holds exactly one
    pickled object, dumped with [pickle.HIGHEST_PROTOCOL]: a dictionary
    with the two entries [smpl_params_global] and [smpl_params_incam],
    in this order, each of them a dictionary whose keys are the four
    required keys and no other; the run opened the object file once and
    dumped once, as its last two events. *)
Theorem object_file_structure sp p q w w' file_path info :
  save_smpl_body sp p q w = (w', inr (file_path, info)) →
  ∃ pkl_path d evs,
    default_suffix (Path.of_string q) ".pkl" = inr pkl_path ∧
    keys d = required_keys ∧
    let obj := [("smpl_params_global", d); ("smpl_params_incam", d)] in
    entries w' !! Path.str pkl_path =
      Some (File (Pickled [(HIGHEST_PROTOCOL, obj)])) ∧
    Pickle.load (Path.str pkl_path) w' = inr obj ∧
    log w' = log w ++ evs ++
      [EvOpenW (Path.str pkl_path);
       EvDump (Path.str pkl_path) HIGHEST_PROTOCOL obj] ∧
    Forall (λ ev, is_pickle_ev ev = false) evs.
Proof.
  intros Hrun. apply save_smpl_body_success in Hrun
    as (g & npz & pkl & np & wd & a1 & a2 & a3 & a4 & n & s1 & s2
        & Hf & _ & _ & _ & _ & -> & _).
  destruct (af_mkdirs _ _ _ _ _ _ _ _ _ Hf) as (_ & dirs & Hlog & Hdirs).
  exists pkl, [("body_pose", a1); ("global_orient", a2);
               ("transl", a3); ("betas", a4)],
    (dirs ++ [EvSavez (Savez.filename npz) np]).
  split; [apply (af_pkl _ _ _ _ _ _ _ _ _ Hf)|].
  split; [reflexivity|]. cbv zeta.
  assert (entries (dumped pkl (pred_of a1 a2 a3 a4) (archived npz np wd))
            !! Path.str pkl
          = Some (File (Pickled [(HIGHEST_PROTOCOL, pred_of a1 a2 a3 a4)])))
    as Hlook by apply lookup_insert_eq.
  split; [exact Hlook|]. split; [|split].
  - unfold Pickle.load.
    rewrite (lookup_defaulted _ _ _ _ (af_pkl _ _ _ _ _ _ _ _ _ Hf))
      by (simpl; lia).
    by rewrite Hlook.
  - simpl. rewrite Hlog. by rewrite <- !app_assoc.
  - apply Forall_app. split; [|by repeat constructor].
    eapply Forall_impl; [exact Hdirs|]. by intros [].
Qed.

(** C9, as amended.  Lines 61-64 append the default extension to the
    text of a path that has a final component and no extension, and
    leave a path with an extension unchanged; a path without a final
    component has an empty extension too, but is refused, and the run
    then fails having made directories at most.  In every run, for a
    path string whose extension is empty, every archive is written at
    [str(Path(p)) + ".npz"] and every event of the object file is at
    [str(Path(q)) + ".pkl"]; when the run succeeds the two files are
    there at the end.  For a path with an extension the object file is
    written at that very path, and the archive under the name
    [np.savez] makes of it ([Savez.filename]). *)
Theorem default_extensions sp p q w w' r evs :
  save_smpl_body sp p q w = (w', r) →
  log w' = log w ++ evs →
  let P := Path.of_string p in
  let Q := Path.of_string q in
  (Path.name P ≠ EmptyString → Path.suffix P = EmptyString →
     ∃ P', default_suffix P ".npz" = inr P' ∧
           Path.str P' = Path.str P +:+ ".npz") ∧
  (Path.name Q ≠ EmptyString → Path.suffix Q = EmptyString →
     ∃ Q', default_suffix Q ".pkl" = inr Q' ∧
           Path.str Q' = Path.str Q +:+ ".pkl") ∧
  (Path.name P = EmptyString ∨ Path.name Q = EmptyString →
     (∃ e, r = inl e) ∧ Forall (λ ev, is_mkdir_ev ev = true) evs) ∧
  (Path.suffix P = EmptyString →
     (∀ f a, EvSavez f a ∈ evs → f = Path.str P +:+ ".npz")) ∧
  (Path.suffix Q = EmptyString →
     (∀ f, EvOpenW f ∈ evs → f = Path.str Q +:+ ".pkl") ∧
     (∀ f n o, EvDump f n o ∈ evs → f = Path.str Q +:+ ".pkl")) ∧
  (Path.suffix P = EmptyString → Path.suffix Q = EmptyString →
     ∀ file_path info, r = inr (file_path, info) →
       ∃ arrays obj,
         entries w' !! (Path.str P +:+ ".npz")
           = Some (File (NpzArchive arrays)) ∧
         entries w' !! (Path.str Q +:+ ".pkl")
           = Some (File (Pickled [(HIGHEST_PROTOCOL, obj)]))) ∧
  (Path.suffix P ≠ EmptyString →
     default_suffix P ".npz" = inr P ∧
     (∀ f a, EvSavez f a ∈ evs → f = Savez.filename P)) ∧
  (Path.suffix Q ≠ EmptyString →
     default_suffix Q ".pkl" = inr Q ∧
     (∀ f, EvOpenW f ∈ evs → f = Path.str Q) ∧
     (∀ f n o, EvDump f n o ∈ evs → f = Path.str Q)).
Proof.
  intros Hrun Hlog P Q.
  pose proof (events_of_run _ _ _ _ _ _ _ Hrun Hlog) as Hev.
  split; [|split; [|split; [|split; [|split; [|split; [|split]]]]]].
  - intros Hn Hs.
    destruct (default_suffix_appends P ".npz" Hn Hs) as (P' & ? & ? & _).
    eauto.
  - intros Hn Hs.
    destruct (default_suffix_appends Q ".pkl" Hn Hs) as (Q' & ? & ? & _).
    eauto.
  - intros Hname. pose proof Hrun as Hl. apply save_smpl_body_log in Hl
      as (dirs & Hdirs & [[Hl He]|(g & npz & pkl & np & wd & Hf & _)]).
    + rewrite Hlog in Hl. apply app_inv_head in Hl. by subst evs.
    + exfalso. pose proof (af_npz _ _ _ _ _ _ _ _ _ Hf) as Hnpz.
      pose proof (af_pkl _ _ _ _ _ _ _ _ _ Hf) as Hpkl.
      destruct Hname as [Hn|Hn].
      * fold P in Hnpz. rewrite default_suffix_empty_name in Hnpz by assumption.
        discriminate.
      * fold Q in Hpkl. rewrite default_suffix_empty_name in Hpkl by assumption.
        discriminate.
  - intros HP f a Hin. apply Hev in Hin as (npz & Hnpz & ->).
    by apply filename_defaulted.
  - intros HQ. split.
    + intros f Hin. apply Hev in Hin as (pkl & Hpkl & ->).
      by apply str_defaulted.
    + intros f n o Hin. apply Hev in Hin as (pkl & Hpkl & ->).
      by apply str_defaulted.
  - intros HP HQ file_path info ->.
    apply save_smpl_body_success in Hrun
      as (g & npz & pkl & np & wd & a1 & a2 & a3 & a4 & n & s1 & s2
          & Hf & _ & _ & _ & _ & -> & _).
    pose proof (filename_defaulted _ _ HP (af_npz _ _ _ _ _ _ _ _ _ Hf))
      as Hname.
    pose proof (str_defaulted _ _ _ HQ (af_pkl _ _ _ _ _ _ _ _ _ Hf))
      as Hstr.
    exists (Savez.members np), (pred_of a1 a2 a3 a4).
    fold P in Hname. fold Q in Hstr.
    rewrite <- Hname, <- Hstr. split.
    + rewrite entries_dumped_other, entries_archived; [reflexivity|].
      rewrite Hname, Hstr. apply npz_is_not_pkl.
    + apply lookup_insert_eq.
  - intros HP. split; [by apply default_suffix_keeps|].
    intros f a Hin. apply Hev in Hin as (npz & Hnpz & ->).
    fold P in Hnpz. rewrite default_suffix_keeps in Hnpz by assumption.
    by injection Hnpz as <-.
  - intros HQ. split; [by apply default_suffix_keeps|]. split.
    + intros f Hin. apply Hev in Hin as (pkl & Hpkl & ->).
      fold Q in Hpkl. rewrite default_suffix_keeps in Hpkl by assumption.
      by injection Hpkl as <-.
    + intros f n o Hin. apply Hev in Hin as (pkl & Hpkl & ->).
      fold Q in Hpkl. rewrite default_suffix_keeps in Hpkl by assumption.
      by injection Hpkl as <-.
Qed.

End Properties.

(** ** Worked runs *)

(** C2 on the valid bundle, with the path strings [output/motion] and
    [output_pkl/motion]. *)
Lemma fallback_is_dead_witness :
  ∃ g, PyDict Examples.motion = PyDict g ∧
    (∀ k, dict_mem k Examples.motion_np = dict_mem k g) ∧
    (∀ k, ¬ (dict_mem k Examples.motion_np = false ∧
             py_contains k (PyDict Examples.motion) = inr true)) ∧
    (∀ k, resolve k Examples.motion_np (PyDict Examples.motion) =
            match dict_get k Examples.motion_np with
            | Some a => inr a
            | None => inl (KeyError (msg_missing k))
            end) ∧
    (∀ k, resolve k Examples.motion_np (PyDict Examples.motion)
            = inl (KeyError (msg_missing k))
          ↔ dict_mem k g = false).
Proof.
  apply (fallback_is_dead Examples.bundle "output/motion" "output_pkl/motion"
           Examples.w0
           (fst (archive_phase Examples.bundle "output/motion"
                   "output_pkl/motion" Examples.w0))
           (PyDict Examples.motion) Examples.npz_path Examples.pkl_path
           Examples.motion_np).
  vm_compute. reflexivity.
Defined.

(** C3 on a bundle that has the camera namespace only. *)
Lemma missing_global_no_side_effects_witness :
  Examples.call Examples.incam_only "output/motion.npz" "output_pkl/motion.pkl"
    = (Examples.w0, (EmptyString, "SaveSMPL failed: " +:+ msg_no_global)) ∧
  PyStr.contains "'global'" ("SaveSMPL failed: " +:+ msg_no_global) = true.
Proof.
  apply (@missing_global_no_side_effects Examples.platform).
  vm_compute. reflexivity.
Defined.

(** C5 on the valid bundle: the record dumped by the run. *)
Lemma namespaces_identical_witness :
  let obj := pred_of Examples.body_pose Examples.global_orient
               Examples.transl Examples.betas in
  dict_get "smpl_params_global" obj = dict_get "smpl_params_incam" obj ∧
  ∀ k, k ∈ required_keys →
    ∃ a, nested_get "smpl_params_global" k obj = Some a ∧
         nested_get "smpl_params_incam" k obj = Some a.
Proof.
  intros obj.
  apply (@namespaces_identical Examples.platform Examples.bundle
           "output/motion" "output_pkl/motion" Examples.w0
           (fst (Examples.run Examples.bundle "output/motion"
                   "output_pkl/motion"))
           (snd (Examples.run Examples.bundle "output/motion"
                   "output_pkl/motion"))
           (log (fst (Examples.run Examples.bundle "output/motion"
                        "output_pkl/motion")))
           "output_pkl/motion.pkl" 5%N obj).
  - vm_compute. reflexivity.
  - vm_compute. reflexivity.
  - vm_compute. repeat first [apply list_elem_of_here | apply list_elem_of_further].
Defined.

(** C7 on the valid bundle. *)
Lemma object_file_structure_witness :
  let w' := fst (Examples.run Examples.bundle "output/motion"
                   "output_pkl/motion") in
  ∃ pkl_path d evs,
    default_suffix (Path.of_string "output_pkl/motion") ".pkl" = inr pkl_path ∧
    keys d = required_keys ∧
    let obj := [("smpl_params_global", d); ("smpl_params_incam", d)] in
    entries w' !! Path.str pkl_path =
      Some (File (Pickled [(@HIGHEST_PROTOCOL Examples.platform, obj)])) ∧
    Pickle.load (Path.str pkl_path) w' = inr obj ∧
    log w' = log Examples.w0 ++ evs ++
      [EvOpenW (Path.str pkl_path);
       EvDump (Path.str pkl_path) (@HIGHEST_PROTOCOL Examples.platform) obj] ∧
    Forall (λ ev, is_pickle_ev ev = false) evs.
Proof.
  intros w'.
  apply (@object_file_structure Examples.platform Examples.bundle
           "output/motion" "output_pkl/motion" Examples.w0 w'
           (fst (Examples.result_of
                   (Examples.run Examples.bundle "output/motion"
                      "output_pkl/motion")))
           (snd (Examples.result_of
                   (Examples.run Examples.bundle "output/motion"
                      "output_pkl/motion")))).
  vm_compute. reflexivity.
Defined.

(** C9 as stated fails: the empty path string has an empty extension,
    and lines 61-62 do not append [".npz"] to it; [with_suffix] refuses
    it, and the call fails having made one directory. *)
Lemma empty_name_is_refused :
  let r := Examples.call Examples.bundle EmptyString "output_pkl/motion" in
  Path.suffix (Path.of_string EmptyString) = EmptyString ∧
  Path.suffix (Path.of_string "output_pkl/motion") = EmptyString ∧
  default_suffix (Path.of_string EmptyString) ".npz"
    = inl (ValueError "PosixPath('.') has an empty name") ∧
  snd r = (EmptyString, "SaveSMPL failed: PosixPath('.') has an empty name") ∧
  log (fst r) = [EvMkdir "output_pkl"].
Proof.
  vm_compute. repeat split.
Defined.

(** C9, as amended, on the example [output/motion] and
    [output_pkl/motion]: the files are created at [output/motion.npz]
    and [output_pkl/motion.pkl]. *)
Lemma default_extensions_witness :
  let w' := fst (Examples.run Examples.bundle "output/motion"
                   "output_pkl/motion") in
  (∃ P', default_suffix (Path.of_string "output/motion") ".npz" = inr P' ∧
         Path.str P' = "output/motion.npz") ∧
  (∃ Q', default_suffix (Path.of_string "output_pkl/motion") ".pkl" = inr Q' ∧
         Path.str Q' = "output_pkl/motion.pkl") ∧
  ∃ arrays obj,
    entries w' !! "output/motion.npz" = Some (File (NpzArchive arrays)) ∧
    entries w' !! "output_pkl/motion.pkl"
      = Some (File (Pickled [(@HIGHEST_PROTOCOL Examples.platform, obj)])).
Proof.
  intros w'.
  pose proof (@default_extensions Examples.platform Examples.bundle
                "output/motion" "output_pkl/motion" Examples.w0 w'
                (snd (Examples.run Examples.bundle "output/motion"
                        "output_pkl/motion"))
                (log w')) as Hthm.
  destruct Hthm as (HP & HQ & _ & _ & _ & Hfiles & _).
  - vm_compute. reflexivity.
  - vm_compute. reflexivity.
  - split; [|split].
    + apply HP; vm_compute; [discriminate|reflexivity].
    + apply HQ; vm_compute; [discriminate|reflexivity].
    + apply (Hfiles eq_refl eq_refl
               (fst (Examples.result_of
                       (Examples.run Examples.bundle "output/motion"
                          "output_pkl/motion")))
               (snd (Examples.result_of
                       (Examples.run Examples.bundle "output/motion"
                          "output_pkl/motion")))).
      vm_compute. reflexivity.
Defined.

(** ** Further properties of the node

    What the code of [save_smpl] shows beyond the first claims: its
    edge and failure behaviour, what it leaves alone, and how its steps
    compose.  The claims on the handler, the missing key, the archive
    and the round trip come last; they rest on the lemmas about paths
    and directories proved on the way. *)

Section Further.
Context `{Platform}.

(** *** Helpers *)

Lemma last_app_nonempty (l t : list string) d :
  t ≠ [] → List.last (l ++ t) d = List.last t d.
Proof.
  intros Ht. induction l as [|x l IH]; [reflexivity|].
  simpl. destruct (l ++ t) eqn:E; [|assumption].
  apply app_eq_nil in E as [_ ->]. contradiction.
Qed.

Lemma name_absolute c p :
  tail p ≠ [] → Path.name (Path.absolute c p) = Path.name p.
Proof.
  intros Ht. unfold Path.absolute, Path.name.
  destruct (String.eqb (root p) EmptyString); [|reflexivity].
  simpl. by apply last_app_nonempty.
Qed.

Lemma defaulted_has_tail p sfx p' :
  default_suffix p sfx = inr p' → (3 ≤ String.length sfx)%nat → tail p' ≠ [].
Proof.
  intros Hd Hlen. pose proof (default_suffix_name _ _ _ Hd Hlen) as Hn.
  apply name_nonempty_tail. intros Heq. rewrite Heq in Hn. simpl in Hn. lia.
Qed.

Lemma str_absolute_nonempty c p sfx p' :
  default_suffix p sfx = inr p' → (3 ≤ String.length sfx)%nat →
  Path.str (Path.absolute c p') ≠ EmptyString.
Proof.
  intros Hd Hlen Heq.
  pose proof (default_suffix_name _ _ _ Hd Hlen) as Hn.
  pose proof (str_length_name (Path.absolute c p')) as Hs.
  rewrite name_absolute in Hs by (eapply defaulted_has_tail; eassumption).
  rewrite Heq in Hs. simpl in Hs. lia.
Qed.

(** *** Conversion *)


(** X2. Lines 66-71.  The loop stops at the first value, in the order
    of the dictionary, that cannot be converted, and raises that value's
    exception, whatever comes after it. *)
Theorem convert_items_first_failure pre k v post e :
  Forall (λ kv, ∃ a, to_numpy (snd kv) = inr a) pre →
  to_numpy v = inl e →
  ∀ acc, convert_items (pre ++ (k, v) :: post) acc = inl e.
Proof.
  intros Hpre Hv. induction Hpre as [|[k0 v0] pre [a Ha] _ IH]; intros acc.
  - simpl. by rewrite Hv.
  - simpl in *. rewrite Ha. simpl. apply IH.
Qed.

(** *** The result pair *)

(** X3. Lines 113 and 120.  The first element of the result tells
    success from failure: it is empty exactly when the [try] block
    raised.  On success it is the text of the archive path of lines
    61-62 made absolute, and it is an absolute path whenever the current
    directory is. *)
Theorem empty_path_signals_failure sp p q w w' file_path info :
  save_smpl sp p q w = (w', (file_path, info)) →
  (file_path = EmptyString ↔ ∃ e, save_smpl_body sp p q w = (w', inl e)) ∧
  (file_path ≠ EmptyString ↔
     save_smpl_body sp p q w = (w', inr (file_path, info))) ∧
  (file_path ≠ EmptyString →
     ∃ npz, default_suffix (Path.of_string p) ".npz" = inr npz ∧
            file_path = Path.str (Path.absolute (cwd w) npz) ∧
            (root (cwd w) ≠ EmptyString →
             root (Path.absolute (cwd w) npz) ≠ EmptyString)).
Proof.
  intros Hsave. unfold save_smpl in Hsave.
  destruct (save_smpl_body sp p q w) as [w1 [e|[fp inf]]] eqn:Hrun.
  - injection Hsave as <- <- <-.
    split; [split; eauto|]. split; [split; [done|discriminate]|done].
  - injection Hsave as <- <- <-.
    pose proof Hrun as Hs. apply save_smpl_body_success in Hs
      as (g & npz & pkl & np & wd & a1 & a2 & a3 & a4 & n & s1 & s2
          & Hf & _ & _ & _ & _ & Hw & _ & Hfp & _).
    assert (cwd w1 = cwd w) as Hcwd.
    { subst w1. simpl. by destruct (af_mkdirs _ _ _ _ _ _ _ _ _ Hf). }
    rewrite Hcwd in Hfp.
    assert (fp ≠ EmptyString) as Hne.
    { rewrite Hfp. eapply str_absolute_nonempty;
        [apply (af_npz _ _ _ _ _ _ _ _ _ Hf)|simpl; lia]. }
    split; [split; [done|intros [e ?]; discriminate]|].
    split; [split; done|]. intros _. exists npz.
    split; [apply (af_npz _ _ _ _ _ _ _ _ _ Hf)|]. split; [assumption|].
    intros Hroot. unfold Path.absolute.
    destruct (String.eqb (root npz) EmptyString) eqn:E; [assumption|].
    by apply String.eqb_neq in E.
Qed.

(** X4. Lines 99 and 107.  After a successful run on a dictionary [g]
    (keys pairwise distinct) the info text ends with the line
    ["Frames: n"], where [n] is the leading dimension of the array that
    [body_pose] converts to, tensor or not. *)
Theorem frames_is_leading_dimension sp g p q w w' file_path info v a n rest :
  dict_get "global" sp = Some (PyDict g) →
  NoDup (keys g) →
  dict_get "body_pose" g = Some v →
  to_numpy v = inr a → shape a = n :: rest →
  save_smpl_body sp p q w = (w', inr (file_path, info)) →
  ∃ pre, info = pre +:+ "Frames: " +:+ PyStr.of_N (N.of_nat n) +:+ PyStr.NL.
Proof.
  intros Hg Hnd Hbp Hv Hsh Hrun. apply save_smpl_body_success in Hrun
    as (g' & npz & pkl & np & wd & a1 & a2 & a3 & a4 & m & s1 & s2
        & Hf & H1 & _ & _ & _ & _ & Hm & _ & ->).
  pose proof (af_global _ _ _ _ _ _ _ _ _ Hf) as Hg'.
  rewrite Hg in Hg'. injection Hg' as <-.
  destruct (convert_items_Forall2 _ _ _ (af_convert _ _ _ _ _ _ _ _ _ Hf) Hnd)
    as (cv & Hcv & Hall); [done|]. simpl in Hcv. subst cv.
  destruct (converted_get _ _ _ _ Hall Hbp) as (x & Hx & Gx).
  rewrite Hv in Hx. injection Hx as <-.
  rewrite H1 in Gx. injection Gx as ->.
  unfold shape0 in Hm. rewrite Hsh in Hm. injection Hm as <-.
  apply info_text_frames.
Qed.

(** X5. Lines 53, 66-73.  A bundle whose [global] entry is not a
    dictionary, or holds a value that cannot be converted, or has a
    parameter called [file] (which [np.savez(npz_path, **np_params)]
    cannot take as a keyword) is rejected before any file is written:
    the first element is empty and the run has made directories at
    most. *)
Theorem invalid_bundle_writes_no_file sp p q w w' out :
  (∃ ty, dict_get "global" sp = Some (NotMapping ty)) ∨
  (∃ g, dict_get "global" sp = Some (PyDict g) ∧
        ((∃ e, convert_items g [] = inl e) ∨ dict_mem "file" g = true)) →
  save_smpl sp p q w = (w', out) →
  fst out = EmptyString ∧ mkdirs_only w w'.
Proof.
  intros Hbad Hsave. unfold save_smpl in Hsave.
  destruct (save_smpl_body sp p q w) as [w1 [e|[fp inf]]] eqn:Hrun;
    injection Hsave as <- <-;
    apply save_smpl_body_inv in Hrun
      as [(e' & He' & _ & Hm)|(g & npz & pkl & np & wd & Hf & _ & _)];
    try discriminate; try (split; [reflexivity|assumption]); exfalso;
    pose proof (af_global _ _ _ _ _ _ _ _ _ Hf) as Hg;
    pose proof (af_convert _ _ _ _ _ _ _ _ _ Hf) as Hc;
    pose proof (af_file _ _ _ _ _ _ _ _ _ Hf) as Hfile;
    rewrite (converted_mem _ _ Hc) in Hfile;
    destruct Hbad as [[ty Hty]|(g' & Hg' & [[e0 He0]|Hfile'])];
    congruence.
Qed.

(** *** The second half of the block, forwards *)

Lemma fill_pred_all g np :
  convert_items g [] = inr np →
  (∀ k, k ∈ required_keys → dict_mem k g = true) →
  ∃ a1 a2 a3 a4,
    dict_get "body_pose" np = Some a1 ∧
    dict_get "global_orient" np = Some a2 ∧
    dict_get "transl" np = Some a3 ∧
    dict_get "betas" np = Some a4 ∧
    fill_pred required_keys np (PyDict g) pred_empty
      = inr (pred_of a1 a2 a3 a4).
Proof.
  intros Hc Hall. pose proof (converted_mem _ _ Hc) as Hsame.
  rewrite fill_pred_converted by assumption.
  assert (∀ k, k ∈ required_keys → is_Some (dict_get k np)) as Hget.
  { intros k Hk. specialize (Hall k Hk). rewrite <- Hsame in Hall.
    unfold dict_mem in Hall. by destruct (dict_get k np). }
  destruct (Hget "body_pose") as [a1 ->]; [key_in|].
  destruct (Hget "global_orient") as [a2 ->]; [key_in|].
  destruct (Hget "transl") as [a3 ->]; [key_in|].
  destruct (Hget "betas") as [a4 ->]; [key_in|].
  exists a1, a2, a3, a4. done.
Qed.

Lemma open_wb_inv pkl w w2 r :
  Fs.open_wb pkl w = (w2, r) →
  (∃ e, r = inl e ∧ w2 = w ∧
        Fs.check_writable (Path.str pkl) w = (w, inl e)) ∨
  (r = inr (Path.str pkl) ∧
   Fs.check_writable (Path.str pkl) w = (w, inr tt) ∧
   w2 = Fs.put (Path.str pkl) (File (Bytes 0)) (EvOpenW (Path.str pkl)) w).
Proof.
  unfold Fs.open_wb. intros Hrun.
  apply bind_inv in Hrun as [(w1 & [] & Hchk & Hput)|(e & Hchk & ->)];
    pose proof (check_writable_pure _ _ _ _ Hchk) as Hw; subst.
  - right. by inversion Hput.
  - left. eauto.
Qed.

(** Lines 96-113 once the record is built. *)
Lemma record_phase_after_fill gp npz pkl np w pred :
  fill_pred required_keys np gp pred_empty = inr pred →
  record_phase gp npz pkl np w =
    match Fs.open_wb pkl w with
    | (_, inl e) => (w, inl e)
    | (_, inr _) =>
        let w2 := dumped pkl pred w in
        match (g <~ dict_getitem "smpl_params_global" pred ;;
               a <~ dict_getitem "body_pose" g ;; shape0 a) with
        | inl e => (w2, inl e)
        | inr n =>
            match Fs.stat_size npz w2 with
            | (_, inl e) => (w2, inl e)
            | (_, inr s1) =>
                match Fs.stat_size pkl w2 with
                | (_, inl e) => (w2, inl e)
                | (_, inr s2) =>
                    (w2, inr (Path.str (Path.absolute (cwd w2) npz),
                              info_text npz s1 pkl s2 n))
                end
            end
        end
    end.
Proof.
  intros Hfill. unfold record_phase. fold pred_empty.
  unfold bind at 1. unfold lift at 1. rewrite Hfill.
  unfold bind at 1.
  destruct (Fs.open_wb pkl w) as [w1 [e|h]] eqn:Hopen;
    apply open_wb_inv in Hopen
      as [(e' & He & -> & _)|(Hh & _ & ->)]; try discriminate.
  { by injection He as ->. }
  injection Hh as ->.
  unfold bind at 1.
  assert (Pickle.dump pred (Path.str pkl) HIGHEST_PROTOCOL
            (Fs.put (Path.str pkl) (File (Bytes 0)) (EvOpenW (Path.str pkl)) w)
          = (dumped pkl pred w, inr tt)) as ->.
  { unfold Pickle.dump. simpl. by rewrite lookup_insert_eq. }
  cbv zeta. unfold bind at 1. unfold lift at 1.
  destruct (g <~ dict_getitem "smpl_params_global" pred ;;
            a <~ dict_getitem "body_pose" g ;; shape0 a) as [e|n];
    [reflexivity|].
  unfold bind at 1.
  destruct (Fs.stat_size npz (dumped pkl pred w)) as [wa [e|s1]] eqn:Hs1;
    pose proof (stat_size_pure _ _ _ _ Hs1) as ->; [reflexivity|].
  unfold bind at 1.
  destruct (Fs.stat_size pkl (dumped pkl pred w)) as [wa [e|s2]] eqn:Hs2;
    pose proof (stat_size_pure _ _ _ _ Hs2) as ->; reflexivity.
Qed.

Lemma save_smpl_after_archive sp p q w w1 gp npz pkl np :
  archive_phase sp p q w = (w1, inr (gp, npz, pkl, np)) →
  save_smpl sp p q w =
    match record_phase gp npz pkl np w1 with
    | (w', inr result) => (w', result)
    | (w', inl e) => (w', (EmptyString, "SaveSMPL failed: " +:+ exn_str e))
    end.
Proof.
  intros Harch. unfold save_smpl, save_smpl_body, bind. by rewrite Harch.
Qed.

Lemma lookup_dumped_other f pkl pred w :
  f ≠ Path.str pkl → Fs.lookup f (dumped pkl pred w) = Fs.lookup f w.
Proof.
  intros Hne. unfold Fs.lookup. by rewrite entries_dumped_other.
Qed.

(** What a run of lines 46-73 to the end tells about lines 75-94. *)
Lemma archive_then_fill sp g p q w w1 gp npz pkl np :
  archive_phase sp p q w = (w1, inr (gp, npz, pkl, np)) →
  dict_get "global" sp = Some (PyDict g) →
  (∀ k, k ∈ required_keys → dict_mem k g = true) →
  gp = PyDict g ∧
  default_suffix (Path.of_string p) ".npz" = inr npz ∧
  default_suffix (Path.of_string q) ".pkl" = inr pkl ∧
  entries w1 !! Savez.filename npz
    = Some (File (NpzArchive (Savez.members np))) ∧
  (dict_mem "allow_pickle" g = false → Savez.members np = np) ∧
  ∃ a1 a2 a3 a4,
    dict_get "body_pose" np = Some a1 ∧
    fill_pred required_keys np gp pred_empty = inr (pred_of a1 a2 a3 a4).
Proof.
  intros Harch Hg Hall.
  pose proof (archive_phase_inv _ _ _ _ _ _ Harch) as Hinv. simpl in Hinv.
  destruct Hinv as (g' & wd & Hg' & -> & Hn & Hp & Hc & _ & _ & _ & ->).
  rewrite Hg in Hg'. injection Hg' as <-.
  destruct (fill_pred_all _ _ Hc Hall) as (a1 & a2 & a3 & a4 & H1 & _ & _ & _ & Hfill).
  split; [reflexivity|]. split; [assumption|]. split; [assumption|].
  split; [apply entries_archived|].
  split; [intros Hap; apply members_id; by rewrite (converted_mem _ _ Hc)|].
  exists a1, a2, a3, a4. done.
Qed.

(** *** Failures after a write *)

(** X6. Lines 73, 96 and 115-120.  When the archive is written and
    [open(pkl_path, "wb")] then raises an [OSError], the call reports
    that exception and the archive stays on disk: nothing is rolled
    back.  The archive holds the converted set less a parameter called
    [allow_pickle], which [np.savez] takes for its own; the error text
    is stated for an object path in ASCII. *)
Theorem archive_stays_when_open_fails sp g p q w w1 gp npz pkl np w2 c f :
  archive_phase sp p q w = (w1, inr (gp, npz, pkl, np)) →
  dict_get "global" sp = Some (PyDict g) →
  (∀ k, k ∈ required_keys → dict_mem k g = true) →
  Fs.open_wb pkl w1 = (w2, inl (OSError c f)) →
  PyStr.is_ascii f = true →
  save_smpl sp p q w
    = (w1, (EmptyString,
            "SaveSMPL failed: [Errno " +:+ PyStr.of_N (os_errno c) +:+ "] "
              +:+ os_strerror c +:+ ": " +:+ PyStr.repr f)) ∧
  f = Path.str pkl ∧
  Savez.load (Savez.filename npz) w1 = inr (Savez.members np) ∧
  (dict_mem "allow_pickle" g = false →
   Savez.load (Savez.filename npz) w1 = inr np).
Proof.
  intros Harch Hg Hall Hopen _.
  destruct (archive_then_fill _ _ _ _ _ _ _ _ _ _ Harch Hg Hall)
    as (-> & _ & _ & Hent & Hid & a1 & a2 & a3 & a4 & _ & Hfill).
  assert (Savez.load (Savez.filename npz) w1 = inr (Savez.members np))
    as Hload by (unfold Savez.load; by rewrite lookup_filename, Hent).
  split; [|split; [|split]].
  - rewrite (save_smpl_after_archive _ _ _ _ _ _ _ _ _ Harch).
    rewrite (record_phase_after_fill _ _ _ _ _ _ Hfill). by rewrite Hopen.
  - apply open_wb_inv in Hopen as [(e' & He & _ & Hchk)|(? & _)];
      [|discriminate].
    injection He as <-. unfold Fs.check_writable in Hchk.
    destruct (Fs.lookup (Fs.dirname (Path.str pkl)) w1) as [[|c0]|];
      [destruct (Fs.lookup (Path.str pkl) w1) as [[|c0]|]| |];
      by inversion Hchk.
  - exact Hload.
  - intros Hap. by rewrite Hload, (Hid Hap).
Qed.

(** X7. Lines 96-99.  When [body_pose] converts to an array without
    dimensions, [shape[0]] raises after both files are written: the call
    reports ["tuple index out of range"], and the archive and the object
    file are on disk. *)
Theorem scalar_body_pose_fails_after_writing sp g p q w w1 gp npz pkl np
    a w2 h :
  archive_phase sp p q w = (w1, inr (gp, npz, pkl, np)) →
  dict_get "global" sp = Some (PyDict g) →
  (∀ k, k ∈ required_keys → dict_mem k g = true) →
  dict_get "body_pose" np = Some a → shape a = [] →
  Fs.open_wb pkl w1 = (w2, inr h) →
  ∃ pred,
    save_smpl sp p q w
      = (dumped pkl pred w1,
         (EmptyString, "SaveSMPL failed: tuple index out of range")) ∧
    Pickle.load (Path.str pkl) (dumped pkl pred w1) = inr pred ∧
    EvSavez (Savez.filename npz) np ∈ log w1.
Proof.
  intros Harch Hg Hall Ha Hsh Hopen.
  destruct (archive_then_fill _ _ _ _ _ _ _ _ _ _ Harch Hg Hall)
    as (-> & _ & Hpkl & _ & _ & a1 & a2 & a3 & a4 & H1 & Hfill).
  rewrite Ha in H1. injection H1 as <-.
  exists (pred_of a a2 a3 a4). split; [|split].
  - rewrite (save_smpl_after_archive _ _ _ _ _ _ _ _ _ Harch).
    rewrite (record_phase_after_fill _ _ _ _ _ _ Hfill), Hopen.
    cbv zeta. unfold pred_of, dict_getitem, ebind. simpl.
    unfold shape0. by rewrite Hsh.
  - by apply (load_pickle_dumped (Path.of_string q)).
  - pose proof (archive_phase_inv _ _ _ _ _ _ Harch) as Hinv. simpl in Hinv.
    destruct Hinv as (g' & wd & _ & _ & _ & _ & _ & _ & _ & _ & ->).
    simpl. apply elem_of_app. right. apply list_elem_of_here.
Qed.

(** X8. Lines 61-62, 73 and 100.  An archive path with an extension
    other than [".npz"] is kept as it is, [np.savez] writes the archive
    under that name followed by [".npz"], and line 100 looks the
    unsuffixed name up: when nothing has that name (the object file is
    another file), the call reports [No such file or directory] although
    both files are written.  The two paths are written alike; the error
    text is stated for an archive path in ASCII. *)
Theorem foreign_extension_fails_after_writing sp g p q w w1 gp npz pkl np
    a n rest w2 h :
  archive_phase sp p q w = (w1, inr (gp, npz, pkl, np)) →
  dict_get "global" sp = Some (PyDict g) →
  (∀ k, k ∈ required_keys → dict_mem k g = true) →
  dict_get "body_pose" np = Some a → shape a = n :: rest →
  Fs.open_wb pkl w1 = (w2, inr h) →
  PyStr.endswith ".npz" (Path.str npz) = false →
  Fs.lookup (Path.str npz) w1 = None →
  comparable npz pkl = true →
  Path.str npz ≠ Path.str pkl →
  PyStr.is_ascii (Path.str npz) = true →
  ∃ pred,
    save_smpl sp p q w
      = (dumped pkl pred w1,
         (EmptyString,
          "SaveSMPL failed: [Errno 2] No such file or directory: "
            +:+ PyStr.repr (Path.str npz))) ∧
    Pickle.load (Path.str pkl) (dumped pkl pred w1) = inr pred ∧
    entries w1 !! (Path.str npz +:+ ".npz")
      = Some (File (NpzArchive (Savez.members np))) ∧
    (dict_mem "allow_pickle" g = false → Savez.members np = np).
Proof.
  intros Harch Hg Hall Ha Hsh Hopen Hends Hnone _ Hne _.
  destruct (archive_then_fill _ _ _ _ _ _ _ _ _ _ Harch Hg Hall)
    as (-> & _ & Hpkl & Hent & Hid & a1 & a2 & a3 & a4 & H1 & Hfill).
  rewrite Ha in H1. injection H1 as <-.
  exists (pred_of a a2 a3 a4). split; [|split; [|split]].
  - rewrite (save_smpl_after_archive _ _ _ _ _ _ _ _ _ Harch).
    rewrite (record_phase_after_fill _ _ _ _ _ _ Hfill), Hopen.
    cbv zeta. unfold pred_of at 2, dict_getitem, ebind. simpl.
    unfold shape0. rewrite Hsh. unfold Fs.stat_size.
    by rewrite lookup_dumped_other, Hnone.
  - by apply (load_pickle_dumped (Path.of_string q)).
  - unfold Savez.filename in Hent. by rewrite Hends in Hent.
  - exact Hid.
Qed.

(** *** Directories *)

Lemma grows_refl A w : grows A w w.
Proof. split; [reflexivity|]. intros f. by left. Qed.

Lemma grows_trans A w1 w2 w3 :
  grows A w1 w2 → grows A w2 w3 → grows A w1 w3.
Proof.
  intros [Hc1 H1] [Hc2 H2]. split; [congruence|]. intros f.
  destruct (H1 f) as [E1|(N1 & D1 & I1)], (H2 f) as [E2|(N2 & D2 & I2)].
  - left. congruence.
  - right. split; [congruence|]. done.
  - right. split; [assumption|]. split; [congruence|assumption].
  - congruence.
Qed.

Lemma grows_mono A B w w' :
  (∀ f, f ∈ A → f ∈ B) → grows A w w' → grows B w w'.
Proof.
  intros Hsub [Hc Hg]. split; [assumption|]. intros f.
  destruct (Hg f) as [?|(? & ? & ?)]; [by left|right; auto].
Qed.

Lemma lookup_None_entries s w : Fs.lookup s w = None → entries w !! s = None.
Proof.
  unfold Fs.lookup.
  by destruct (String.eqb s "." || String.eqb s "/" || String.eqb s "//").
Qed.

Lemma os_mkdir_grows p w w' r :
  Fs.os_mkdir p w = (w', r) → grows [Path.str p] w w'.
Proof.
  unfold Fs.os_mkdir. intros Hrun.
  destruct (Fs.lookup (Path.str (Path.parent p)) w) as [[|c]|];
    [destruct (Fs.lookup (Path.str p) w) eqn:Hs|
     |destruct (Fs.file_above (Path.parent p) w)];
    inversion Hrun; subst; try apply grows_refl.
  apply lookup_None_entries in Hs. split; [reflexivity|]. intros f. simpl.
  destruct (decide (f = Path.str p)) as [->|Hne].
  - right. split; [assumption|]. split; [apply lookup_insert_eq|].
    apply list_elem_of_here.
  - left. by apply lookup_insert_ne.
Qed.

Lemma mkdir_leaf_grows p w w' r :
  Fs.mkdir_leaf p w = (w', r) → grows [Path.str p] w w'.
Proof.
  unfold Fs.mkdir_leaf. intros Hrun.
  destruct (Fs.os_mkdir p w) as [w1 [e|u]] eqn:Hmk;
    apply os_mkdir_grows in Hmk.
  - destruct e as [| | | | | |[] f];
      try destruct (Fs.is_dir (Path.str p) w1);
      inversion Hrun; subst; assumption.
  - inversion Hrun; subst; assumption.
Qed.

Lemma grows_head x A w w' : grows [x] w w' → grows (x :: A) w w'.
Proof.
  apply grows_mono. intros f Hf. apply list_elem_of_singleton in Hf as ->.
  apply list_elem_of_here.
Qed.

Lemma grows_tail x A w w' : grows A w w' → grows (x :: A) w w'.
Proof. apply grows_mono. intros f Hf. by apply list_elem_of_further. Qed.

Lemma mkdir_rev_grows r rt : ∀ w w' res,
  Fs.mkdir_rev r rt w = (w', res) → grows (rev_ancestors r rt) w w'.
Proof.
  induction rt as [|x rt IH]; intros w w' res Hrun; simpl in Hrun.
  - destruct (Fs.os_mkdir _ w) as [w1 [e|u]] eqn:Hmk;
      apply os_mkdir_grows in Hmk.
    + destruct e as [| | | | | |[] f];
        try destruct (Fs.is_dir _ w1);
        inversion Hrun; subst; assumption.
    + inversion Hrun; subst; assumption.
  - destruct (Fs.os_mkdir _ w) as [w1 [e|u]] eqn:Hmk;
      apply os_mkdir_grows, (grows_head _ (rev_ancestors r rt)) in Hmk.
    + destruct e as [| | | | | |[] f];
        try (destruct (Fs.is_dir _ w1);
             inversion Hrun; subst; assumption).
      destruct (Fs.mkdir_rev r rt w1) as [w2 [e2|u2]] eqn:Hrec;
        apply IH, (grows_tail (Path.str (mkPath r (rev (x :: rt))))) in Hrec.
      * inversion Hrun; subst. eapply grows_trans; eassumption.
      * apply mkdir_leaf_grows, (grows_head _ (rev_ancestors r rt)) in Hrun.
        eapply grows_trans; [eassumption|].
        eapply grows_trans; eassumption.
    + inversion Hrun; subst; assumption.
Qed.

Lemma mkdir_parents_grows p w w' res :
  Fs.mkdir_parents p w = (w', res) → grows (ancestors p) w w'.
Proof. apply mkdir_rev_grows. Qed.

Lemma lookup_put_eq s n ev w :
  Fs.lookup s w = None → Fs.lookup s (Fs.put s n ev w) = Some n.
Proof.
  unfold Fs.lookup.
  destruct (String.eqb s "." || String.eqb s "/" || String.eqb s "//");
    [discriminate|].
  intros _. simpl. apply lookup_insert_eq.
Qed.

Lemma os_mkdir_is_dir p w w' :
  Fs.os_mkdir p w = (w', inr tt) → Fs.is_dir (Path.str p) w' = true.
Proof.
  unfold Fs.os_mkdir. intros Hrun.
  destruct (Fs.lookup (Path.str (Path.parent p)) w) as [[|c]|];
    [destruct (Fs.lookup (Path.str p) w) eqn:Hs|
     |destruct (Fs.file_above (Path.parent p) w)];
    inversion Hrun; subst.
  unfold Fs.is_dir. by rewrite lookup_put_eq.
Qed.

Lemma mkdir_leaf_is_dir p w w' :
  Fs.mkdir_leaf p w = (w', inr tt) → Fs.is_dir (Path.str p) w' = true.
Proof.
  unfold Fs.mkdir_leaf. intros Hrun.
  destruct (Fs.os_mkdir p w) as [w1 [e|[]]] eqn:Hmk.
  - destruct e as [| | | | | |[] f];
      try (destruct (Fs.is_dir (Path.str p) w1) eqn:Hd;
           inversion Hrun; subst; assumption).
  - inversion Hrun; subst. by apply os_mkdir_is_dir in Hmk.
Qed.

(** A directory made with [parents=True, exist_ok=True] is there. *)
Lemma mkdir_rev_is_dir r rt w w' :
  Fs.mkdir_rev r rt w = (w', inr tt) →
  Fs.is_dir (Path.str (mkPath r (rev rt))) w' = true.
Proof.
  destruct rt as [|x rt]; intros Hrun; simpl in Hrun.
  - destruct (Fs.os_mkdir _ w) as [w1 [e|[]]] eqn:Hmk.
    + destruct e as [| | | | | |[] f];
        try (destruct (Fs.is_dir _ w1) eqn:Hd;
             inversion Hrun; subst; assumption);
        discriminate.
    + inversion Hrun; subst. by apply os_mkdir_is_dir in Hmk.
  - destruct (Fs.os_mkdir _ w) as [w1 [e|[]]] eqn:Hmk.
    + destruct e as [| | | | | |[] f];
        try (destruct (Fs.is_dir _ w1) eqn:Hd;
             inversion Hrun; subst; assumption).
      destruct (Fs.mkdir_rev r rt w1) as [w2 [e2|u2]]; [discriminate|].
      by apply mkdir_leaf_is_dir in Hrun.
    + inversion Hrun; subst. by apply os_mkdir_is_dir in Hmk.
Qed.

Lemma lookup_grows A w w' f n :
  grows A w w' → Fs.lookup f w = Some n → Fs.lookup f w' = Some n.
Proof.
  intros [_ Hg]. unfold Fs.lookup.
  destruct (String.eqb f "." || String.eqb f "/" || String.eqb f "//");
    [done|].
  destruct (Hg f) as [->|(Hn & _)]; [done|]. rewrite Hn. discriminate.
Qed.

Lemma is_dir_grows A w w' f :
  grows A w w' → Fs.is_dir f w = true → Fs.is_dir f w' = true.
Proof.
  intros Hg. unfold Fs.is_dir.
  destruct (Fs.lookup f w) as [[|c]|] eqn:Hl; try discriminate.
  by rewrite (lookup_grows _ _ _ _ _ Hg Hl).
Qed.

Lemma check_writable_not_dir s w :
  Fs.check_writable s w = (w, inr tt) → Fs.lookup s w ≠ Some Dir.
Proof.
  unfold Fs.check_writable.
  destruct (Fs.lookup (Fs.dirname s) w) as [[|c]|]; try discriminate.
  by destruct (Fs.lookup s w) as [[|c']|].
Qed.

Lemma path_eta x : mkPath (root x) (tail x) = x.
Proof. by destruct x. Qed.

(** Lines 46-73 with the directories spelled out. *)
Lemma archive_phase_grows sp p q w w1 r :
  archive_phase sp p q w = (w1, r) →
  let P := Path.parent (Path.of_string p) in
  let Q := Path.parent (Path.of_string q) in
  match r with
  | inl e => grows (ancestors P ++ ancestors Q) w w1
  | inr (gp, npz, pkl, np) =>
      ∃ wd, grows (ancestors P ++ ancestors Q) w wd ∧
            Fs.is_dir (Path.str P) wd = true ∧
            Fs.is_dir (Path.str Q) wd = true ∧
            default_suffix (Path.of_string p) ".npz" = inr npz ∧
            default_suffix (Path.of_string q) ".pkl" = inr pkl ∧
            Fs.check_writable (Savez.filename npz) wd = (wd, inr tt) ∧
            w1 = archived npz np wd
  end.
Proof.
  intros Hrun P Q. unfold archive_phase in Hrun.
  set (A := ancestors P ++ ancestors Q).
  apply bind_inv in Hrun as [(wa & [] & Hchk & Hrun)|(e & Hchk & ->)]; cycle 1.
  { destruct (dict_mem "global" sp); inversion Hchk; subst. apply grows_refl. }
  assert (wa = w) as ->.
  { destruct (dict_mem "global" sp); by inversion Hchk. }
  apply bind_inv in Hrun as [(wa & gp & Hget & Hrun)|(e & Hget & ->)];
    apply lift_inv in Hget as [-> Hget]; [|apply grows_refl].
  apply bind_inv in Hrun as [(wa & [] & Hmk1 & Hrun)|(e & Hmk1 & ->)];
    pose proof (mkdir_parents_grows _ _ _ _ Hmk1) as Hg1;
    apply (grows_mono _ A) in Hg1;
    try (intros f Hf; apply elem_of_app; by left); [|assumption].
  apply mkdir_rev_is_dir in Hmk1. rewrite rev_involutive in Hmk1.
  apply bind_inv in Hrun as [(wb & [] & Hmk2 & Hrun)|(e & Hmk2 & ->)];
    pose proof (mkdir_parents_grows _ _ _ _ Hmk2) as Hg2;
    apply (grows_mono _ A) in Hg2;
    try (intros f Hf; apply elem_of_app; by right);
    pose proof (grows_trans _ _ _ _ Hg1 Hg2) as Hg; [|assumption].
  apply mkdir_rev_is_dir in Hmk2. rewrite rev_involutive in Hmk2.
  apply (is_dir_grows _ _ _ _ Hg2) in Hmk1.
  apply bind_inv in Hrun as [(wc & npz & Hnpz & Hrun)|(e & Hnpz & ->)];
    apply lift_inv in Hnpz as [-> Hnpz]; [|assumption].
  apply bind_inv in Hrun as [(wc & pkl & Hpkl & Hrun)|(e & Hpkl & ->)];
    apply lift_inv in Hpkl as [-> Hpkl]; [|assumption].
  apply bind_inv in Hrun as [(wc & np & Hconv & Hrun)|(e & Hconv & ->)];
    apply lift_inv in Hconv as [-> Hconv]; [|assumption].
  apply bind_inv in Hrun as [(wc & [] & Hsave & Hrun)|(e & Hsave & ->)];
    apply savez_inv in Hsave
      as [(e' & He' & ->)|(Hok & Hfile & Hw & ->)]; try discriminate;
    try assumption.
  inversion Hrun; subst. exists wb.
  rewrite path_eta in Hmk1, Hmk2. done.
Qed.

(** *** Paths and their text *)

Lemma has_char_append c s t :
  PyStr.has_char c (s +:+ t) = PyStr.has_char c s || PyStr.has_char c t.
Proof.
  induction s as [|a s IH]; [reflexivity|].
  change (String a s +:+ t) with (String a (s +:+ t)). simpl.
  rewrite IH. by destruct (Ascii.eqb a c).
Qed.

Lemma split_on_single x :
  PyStr.has_char "/" x = false → PyStr.split_on "/" x = [x].
Proof.
  induction x as [|c x IH]; [reflexivity|]. simpl.
  intros [Hc Hx]%orb_false_iff. rewrite Hc, (IH Hx). reflexivity.
Qed.

Lemma split_on_app x rest :
  PyStr.has_char "/" x = false →
  PyStr.split_on "/" (x +:+ "/" +:+ rest) = x :: PyStr.split_on "/" rest.
Proof.
  induction x as [|c x IH]; [reflexivity|].
  change (String c x +:+ "/" +:+ rest) with (String c (x +:+ "/" +:+ rest)).
  simpl. intros [Hc Hx]%orb_false_iff. rewrite Hc, (IH Hx). reflexivity.
Qed.

Lemma split_on_join l :
  l ≠ [] → Forall (λ x, PyStr.has_char "/" x = false) l →
  PyStr.split_on "/" (PyStr.join "/" l) = l.
Proof.
  induction l as [|x l IH]; [done|]. intros _ Hall.
  apply Forall_cons in Hall as [Hx Hl]. destruct l as [|y l].
  - by apply split_on_single.
  - rewrite join_cons, split_on_app by assumption. by rewrite IH.
Qed.

Lemma split_on_no_slash s :
  Forall (λ x, PyStr.has_char "/" x = false) (PyStr.split_on "/" s).
Proof.
  induction s as [|c s IH]; [by repeat constructor|]. simpl.
  destruct (Ascii.eqb c "/") eqn:Hc; [by constructor|].
  destruct (PyStr.split_on "/" s) as [|w ws].
  - repeat constructor. simpl. by rewrite Hc.
  - apply Forall_cons in IH as [Hw Hws]. constructor; [|assumption].
    simpl. by rewrite Hc, Hw.
Qed.

Lemma filter_keep l : Forall wf_part l → List.filter Path.keep_part l = l.
Proof.
  induction 1 as [|x l [Hk _] _ IH]; [reflexivity|].
  simpl. by rewrite Hk, IH.
Qed.

Lemma wf_part_no_slash l :
  Forall wf_part l → Forall (λ x, PyStr.has_char "/" x = false) l.
Proof. intros Hl. eapply Forall_impl; [exact Hl|]. by intros x [_ ?]. Qed.

Lemma wf_part_head x :
  wf_part x → ∃ c x', x = String c x' ∧ Ascii.eqb c "/" = false.
Proof.
  intros [Hk Hs]. destruct x as [|c x']; [discriminate|].
  exists c, x'. split; [reflexivity|]. simpl in Hs.
  by apply orb_false_iff in Hs as [? _].
Qed.

Lemma join_head c x' l :
  ∃ s, PyStr.join "/" (String c x' :: l) = String c s.
Proof. destruct l as [|y l]; [by exists x'|]. rewrite join_cons. by eexists. Qed.

(** [Path(str(p)) == p] for the paths [Path] makes. *)
Lemma of_string_str p : wf_path p → Path.of_string (Path.str p) = p.
Proof.
  destruct p as [r t]. intros [Hr Ht]. simpl in Hr, Ht.
  destruct t as [|x t].
  { destruct Hr as [->|[->| ->]]; reflexivity. }
  pose proof Ht as Hall. apply Forall_cons in Hall as [Hx _].
  destruct (wf_part_head _ Hx) as (c & x' & -> & Hc).
  destruct (join_head c x' t) as [s Hs].
  assert (List.filter Path.keep_part
            (PyStr.split_on "/" (PyStr.join "/" (String c x' :: t)))
          = String c x' :: t) as Hparts.
  { rewrite split_on_join; [by apply filter_keep|done|].
    by apply wf_part_no_slash. }
  unfold Path.of_string, Path.str. simpl root. simpl tail.
  destruct Hr as [->|[->| ->]].
  - change (EmptyString +:+ PyStr.join "/" (String c x' :: t))
      with (PyStr.join "/" (String c x' :: t)).
    rewrite Hs. simpl. rewrite Hc. rewrite <- Hs. by rewrite Hparts.
  - change ("/" +:+ PyStr.join "/" (String c x' :: t))
      with (String "/" (PyStr.join "/" (String c x' :: t))).
    rewrite Hs. simpl. rewrite Hc. rewrite <- Hs. by rewrite Hparts.
  - change ("//" +:+ PyStr.join "/" (String c x' :: t))
      with (String "/" (String "/" (PyStr.join "/" (String c x' :: t)))).
    rewrite Hs. simpl. rewrite Hc. rewrite <- Hs. by rewrite Hparts.
Qed.

Lemma splitroot_root s : wf_root (fst (Path.splitroot s)).
Proof.
  unfold Path.splitroot, wf_root.
  destruct s as [|c0 [|c1 [|c2 s]]]; simpl;
    repeat match goal with
           | |- context [Ascii.eqb ?a ?b] => destruct (Ascii.eqb a b)
           end; simpl; auto.
Qed.

Lemma of_string_wf s : wf_path (Path.of_string s).
Proof.
  unfold Path.of_string.
  pose proof (splitroot_root s) as Hr.
  destruct (Path.splitroot s) as [r rel]. split; [exact Hr|]. simpl.
  pose proof (split_on_no_slash rel) as Hno.
  induction Hno as [|x l Hx _ IH]; [constructor|]. simpl.
  destruct (Path.keep_part x) eqn:Hk; [|assumption].
  constructor; [by split|assumption].
Qed.

Lemma removelast_snoc (l : list string) x : List.removelast (l ++ [x]) = l.
Proof.
  induction l as [|y l IH]; [reflexivity|].
  simpl. destruct (l ++ [x]) eqn:E; [by destruct l|]. by rewrite IH.
Qed.

Lemma parent_snoc r l x : Path.parent (mkPath r (l ++ [x])) = mkPath r l.
Proof.
  unfold Path.parent. simpl. destruct (l ++ [x]) eqn:E; [by destruct l|].
  by rewrite <- E, removelast_snoc.
Qed.

(** Lines 61-64 keep the path or replace its last component. *)
Lemma default_suffix_shape p sfx p' :
  default_suffix p sfx = inr p' →
  p' = p ∨
  (tail p ≠ [] ∧ Path.name p ≠ EmptyString ∧
   p' = mkPath (root p) (List.removelast (tail p) ++ [Path.name p +:+ sfx])).
Proof.
  intros Hd. destruct (String.eqb (Path.suffix p) EmptyString) eqn:E.
  - apply String.eqb_eq in E. right.
    destruct (String.eqb (Path.name p) EmptyString) eqn:En.
    + apply String.eqb_eq in En.
      rewrite default_suffix_empty_name in Hd by assumption. discriminate.
    + apply String.eqb_neq in En. split; [by apply name_nonempty_tail|].
      split; [assumption|].
      unfold default_suffix, Path.with_suffix in Hd. rewrite E in Hd.
      simpl in Hd. apply String.eqb_neq in En. rewrite En in Hd.
      rewrite Nat.sub_0_r, take_all in Hd. by injection Hd as <-.
  - apply String.eqb_neq in E. rewrite default_suffix_keeps in Hd by assumption.
    left. by injection Hd as <-.
Qed.

Lemma parent_defaulted p sfx p' :
  default_suffix p sfx = inr p' → Path.parent p' = Path.parent p.
Proof.
  intros Hd. apply default_suffix_shape in Hd as [->|(Ht & _ & ->)];
    [reflexivity|].
  rewrite parent_snoc. unfold Path.parent. by destruct (tail p).
Qed.

Lemma wf_part_append x sfx :
  wf_part x → PyStr.has_char "/" sfx = false → wf_part (x +:+ sfx).
Proof.
  intros [Hk Hs] Hsfx. split.
  - destruct x as [|c x]; [discriminate|].
    change (String c x +:+ sfx) with (String c (x +:+ sfx)).
    unfold Path.keep_part in *. simpl.
    destruct x as [|d x]; [|by destruct (Ascii.eqb c ".")].
    simpl in Hk. destruct (Ascii.eqb c "."); [discriminate|reflexivity].
  - by rewrite has_char_append, Hs, Hsfx.
Qed.

Lemma wf_defaulted p sfx p' :
  wf_path p → PyStr.has_char "/" sfx = false →
  default_suffix p sfx = inr p' → wf_path p'.
Proof.
  intros [Hr Ht] Hsfx Hd.
  apply default_suffix_shape in Hd as [->|(Hne & _ & ->)]; [by split|].
  split; [exact Hr|]. simpl.
  rewrite (snoc_removelast _ Hne) in Ht. apply Forall_app in Ht as [Hinit Hl].
  apply Forall_app. split; [assumption|].
  apply Forall_cons in Hl as [Hl _]. constructor; [|constructor].
  by apply wf_part_append.
Qed.

(** The directory of the object file is the one line 59 makes; so is
    the directory of an archive whose path ends in [".npz"]. *)
Lemma dirname_defaulted s sfx p' :
  PyStr.has_char "/" sfx = false →
  default_suffix (Path.of_string s) sfx = inr p' →
  Fs.dirname (Path.str p') = Path.str (Path.parent (Path.of_string s)).
Proof.
  intros Hsfx Hd. unfold Fs.dirname.
  rewrite of_string_str
    by (eapply wf_defaulted; [apply of_string_wf|eassumption|eassumption]).
  by rewrite (parent_defaulted _ _ _ Hd).
Qed.

(** *** Making the directories *)

Lemma lookup_grows_back A w w' f c :
  grows A w w' → Fs.lookup f w' = Some (File c) →
  Fs.lookup f w = Some (File c).
Proof.
  intros [_ Hg]. unfold Fs.lookup.
  destruct (String.eqb f "." || String.eqb f "/" || String.eqb f "//");
    [done|].
  destruct (Hg f) as [->|(_ & -> & _)]; [done|discriminate].
Qed.

Lemma lookup_grows_out A w w' f :
  grows A w w' → f ∉ A → Fs.lookup f w' = Fs.lookup f w.
Proof.
  intros [_ Hg] Hout. unfold Fs.lookup.
  destruct (String.eqb f "." || String.eqb f "/" || String.eqb f "//");
    [done|].
  destruct (Hg f) as [->|(_ & _ & Hin)]; [done|contradiction].
Qed.

Lemma lookup_root r w :
  wf_root r → Fs.lookup (Path.str (mkPath r [])) w = Some Dir.
Proof. intros [->|[->| ->]]; reflexivity. Qed.

Lemma file_above_clear d w :
  (∀ a c, a ∈ ancestors d → Fs.lookup a w ≠ Some (File c)) →
  Fs.file_above d w = false.
Proof.
  intros Hclear. unfold Fs.file_above. apply not_true_is_false. intros Hex.
  apply existsb_exists in Hex as (a & Hin & Ha).
  destruct (Fs.lookup a w) as [[|c]|] eqn:E; try discriminate.
  apply (Hclear a c); [by apply list_elem_of_In|exact E].
Qed.

Lemma os_mkdir_eq p w :
  Fs.os_mkdir p w =
    match Fs.lookup (Path.str (Path.parent p)) w with
    | None =>
        if Fs.file_above (Path.parent p) w
        then (w, inl (OSError ENOTDIR (Path.str p)))
        else (w, inl (OSError ENOENT (Path.str p)))
    | Some (File _) => (w, inl (OSError ENOTDIR (Path.str p)))
    | Some Dir =>
        match Fs.lookup (Path.str p) w with
        | Some _ => (w, inl (OSError EEXIST (Path.str p)))
        | None =>
            (Fs.put (Path.str p) Dir (EvMkdir (Path.str p)) w, inr tt)
        end
    end.
Proof. reflexivity. Qed.

(** [os.mkdir] on a path whose parent is a directory and which is not
    a regular file either makes it or finds it made. *)
Lemma mkdir_leaf_succeeds p w :
  Fs.lookup (Path.str (Path.parent p)) w = Some Dir →
  (∀ c, Fs.lookup (Path.str p) w ≠ Some (File c)) →
  ∃ w', Fs.mkdir_leaf p w = (w', inr tt).
Proof.
  intros Hpar Hfile. unfold Fs.mkdir_leaf. rewrite os_mkdir_eq, Hpar.
  destruct (Fs.lookup (Path.str p) w) as [[|c]|] eqn:Hs.
  - unfold Fs.is_dir. rewrite Hs. eauto.
  - by destruct (Hfile c).
  - eauto.
Qed.

(** Line 58-59: [mkdir(parents=True, exist_ok=True)] succeeds when no
    regular file stands at the path or above it. *)
Lemma mkdir_rev_succeeds r rt :
  wf_root r → ∀ w,
  (∀ a c, a ∈ rev_ancestors r rt → Fs.lookup a w ≠ Some (File c)) →
  ∃ w', Fs.mkdir_rev r rt w = (w', inr tt).
Proof.
  intros Hr. induction rt as [|x rt IH]; intros w Hclear.
  - simpl. rewrite os_mkdir_eq. simpl Path.parent.
    change (Path.parent (mkPath r [])) with (mkPath r []).
    rewrite !(lookup_root r w Hr). unfold Fs.is_dir.
    rewrite (lookup_root r w Hr). eauto.
  - assert (Path.parent (mkPath r (rev (x :: rt))) = mkPath r (rev rt)) as Hp
      by (simpl; apply parent_snoc).
    assert (∀ c, Fs.lookup (Path.str (mkPath r (rev (x :: rt)))) w
                 ≠ Some (File c)) as Hself.
    { intros c. apply Hclear. simpl. apply list_elem_of_here. }
    assert (∀ a c, a ∈ rev_ancestors r rt → Fs.lookup a w ≠ Some (File c))
      as Habove.
    { intros a c Ha. apply Hclear. simpl. by apply list_elem_of_further. }
    change (Fs.mkdir_rev r (x :: rt) w) with
      (match Fs.os_mkdir (mkPath r (rev (x :: rt))) w with
       | (w', inr u) => (w', inr u)
       | (w', inl (OSError ENOENT f)) =>
           match Fs.mkdir_rev r rt w' with
           | (w1, inr _) => Fs.mkdir_leaf (mkPath r (rev (x :: rt))) w1
           | (w1, inl e) => (w1, inl e)
           end
       | (w', inl e) =>
           if Fs.is_dir (Path.str (mkPath r (rev (x :: rt)))) w'
           then (w', inr tt) else (w', inl e)
       end).
    rewrite os_mkdir_eq, Hp.
    destruct (Fs.lookup (Path.str (mkPath r (rev rt))) w) as [[|c]|] eqn:Hpar.
    + destruct (Fs.lookup (Path.str (mkPath r (rev (x :: rt)))) w)
        as [[|c]|] eqn:Hs.
      * unfold Fs.is_dir. rewrite Hs. eauto.
      * by destruct (Hself c).
      * eauto.
    + exfalso. apply (Habove (Path.str (mkPath r (rev rt))) c); [|assumption].
      destruct rt; simpl; apply list_elem_of_here.
    + rewrite file_above_clear
        by (unfold ancestors; simpl; by rewrite rev_involutive).
      destruct (IH w Habove) as [w1 Hrec]. rewrite Hrec.
      apply mkdir_leaf_succeeds.
      * rewrite Hp. pose proof (mkdir_rev_is_dir _ _ _ _ Hrec) as Hd.
        unfold Fs.is_dir in Hd.
        by destruct (Fs.lookup (Path.str (mkPath r (rev rt))) w1) as [[|c]|].
      * intros c Hc. apply mkdir_rev_grows in Hrec.
        apply (lookup_grows_back _ _ _ _ _ Hrec) in Hc. by destruct (Hself c).
Qed.

Lemma mkdir_parents_succeeds p w :
  wf_root (root p) →
  (∀ a c, a ∈ ancestors p → Fs.lookup a w ≠ Some (File c)) →
  ∃ w', Fs.mkdir_parents p w = (w', inr tt) ∧
        grows (ancestors p) w w' ∧ Fs.is_dir (Path.str p) w' = true.
Proof.
  intros Hr Hclear.
  destruct (mkdir_rev_succeeds _ _ Hr w Hclear) as [w' Hrun].
  exists w'. split; [exact Hrun|]. split; [by apply mkdir_rev_grows in Hrun|].
  apply mkdir_rev_is_dir in Hrun. by rewrite rev_involutive, path_eta in Hrun.
Qed.

Lemma root_parent p : root (Path.parent p) = root p.
Proof. unfold Path.parent. by destruct (tail p). Qed.

(** Lines 46-73, forwards. *)
Lemma archive_phase_run sp p q w g wa wb npz pkl np :
  dict_get "global" sp = Some (PyDict g) →
  Fs.mkdir_parents (Path.parent (Path.of_string p)) w = (wa, inr tt) →
  Fs.mkdir_parents (Path.parent (Path.of_string q)) wa = (wb, inr tt) →
  default_suffix (Path.of_string p) ".npz" = inr npz →
  default_suffix (Path.of_string q) ".pkl" = inr pkl →
  convert_items g [] = inr np →
  dict_mem "file" np = false →
  Fs.check_writable (Savez.filename npz) wb = (wb, inr tt) →
  archive_phase sp p q w = (archived npz np wb, inr (PyDict g, npz, pkl, np)).
Proof.
  intros Hg Hm1 Hm2 Hn Hp Hc Hf Hw.
  unfold archive_phase, bind, lift, ret, raise, dict_getitem, dict_mem.
  rewrite Hg. simpl. rewrite Hm1, Hm2, Hn, Hp. simpl. rewrite Hc.
  unfold Savez.savez. rewrite Hf. unfold bind. by rewrite Hw.
Qed.

(** *** What a run changes *)

Lemma record_phase_world gp npz pkl np w w' r :
  record_phase gp npz pkl np w = (w', r) →
  w' = w ∨
  ∃ pred, w' = dumped pkl pred w ∧
          Fs.check_writable (Path.str pkl) w = (w, inr tt).
Proof.
  intros Hrun.
  destruct (fill_pred required_keys np gp pred_empty) as [e|pred] eqn:Hfill.
  - rewrite (record_phase_fail _ _ _ _ _ _ Hfill) in Hrun. left.
    by inversion Hrun.
  - rewrite (record_phase_after_fill _ _ _ _ _ _ Hfill) in Hrun.
    destruct (Fs.open_wb pkl w) as [w2 [e|h]] eqn:Hopen;
      apply open_wb_inv in Hopen
        as [(e' & He & -> & _)|(Hh & Hchk & ->)]; try discriminate.
    + left. by inversion Hrun.
    + right. exists pred. split; [|assumption]. cbv zeta in Hrun.
      repeat match type of Hrun with
             | context [match ?x with _ => _ end] => destruct x
             end; by inversion Hrun.
Qed.

Lemma dir_grows A w w' f :
  grows A w w' → entries w !! f = Some Dir → entries w' !! f = Some Dir.
Proof.
  intros [_ Hg] Hd. destruct (Hg f) as [->|(Hn & _)]; [done|congruence].
Qed.

(** What a run changes, name by name. *)
Lemma run_changes sp p q w w' out :
  save_smpl sp p q w = (w', out) →
  ∀ f,
    entries w' !! f = entries w !! f ∨
    (entries w !! f = None ∧ entries w' !! f = Some Dir ∧
     f ∈ ancestors (Path.parent (Path.of_string p))
           ++ ancestors (Path.parent (Path.of_string q))) ∨
    (entries w !! f ≠ Some Dir ∧ (∃ c, entries w' !! f = Some (File c)) ∧
     ((∃ npz, default_suffix (Path.of_string p) ".npz" = inr npz ∧
              f = Savez.filename npz) ∨
      (∃ pkl, default_suffix (Path.of_string q) ".pkl" = inr pkl ∧
              f = Path.str pkl))).
Proof.
  intros Hsave f.
  assert (∃ r, save_smpl_body sp p q w = (w', r)) as [r Hrun].
  { unfold save_smpl in Hsave.
    destruct (save_smpl_body sp p q w) as [w1 [e|res]];
      injection Hsave as <- _; eauto. }
  clear Hsave. unfold save_smpl_body in Hrun.
  apply bind_inv in Hrun
    as [(w1 & [[[gp npz] pkl] np] & Harch & Hrec)|(e & Harch & ->)];
    apply archive_phase_grows in Harch; cbv zeta in Harch.
  2: { destruct Harch as [_ Hg].
       destruct (Hg f) as [?|?]; [by left|by right; left]. }
  destruct Harch as (wd & Hg & _ & _ & Hnpz & Hpkl & Hchk & ->).
  apply check_writable_not_dir in Hchk. rewrite lookup_filename in Hchk.
  assert (entries w !! Savez.filename npz ≠ Some Dir) as Hnd.
  { intros Hd. by apply (dir_grows _ _ _ _ Hg) in Hd. }
  assert (f ≠ Savez.filename npz →
          entries w' !! f = entries (archived npz np wd) !! f →
          entries w' !! f = entries w !! f ∨
          (entries w !! f = None ∧ entries w' !! f = Some Dir ∧
           f ∈ ancestors (Path.parent (Path.of_string p))
                 ++ ancestors (Path.parent (Path.of_string q)))) as Hother.
  { intros Hne ->. simpl. rewrite lookup_insert_ne by done.
    destruct Hg as [_ Hg]. apply Hg. }
  apply record_phase_world in Hrec as [->|(pred & -> & Hchk2)].
  - destruct (decide (f = Savez.filename npz)) as [->|Hne].
    + right. right. split; [assumption|]. split; [|left; eauto].
      rewrite entries_archived. eauto.
    + destruct (Hother Hne eq_refl) as [?|?]; [by left|by right; left].
  - apply check_writable_not_dir in Hchk2.
    rewrite (lookup_defaulted _ _ _ _ Hpkl) in Hchk2 by (simpl; lia).
    destruct (decide (f = Path.str pkl)) as [->|Hne].
    + right. right. split; [|split; [|right; eauto]].
      * intros Hd. apply Hchk2. simpl.
        destruct (decide (Path.str pkl = Savez.filename npz)) as [Heq|Hne];
          [by rewrite Heq in Hd|].
        rewrite lookup_insert_ne by done. by apply (dir_grows _ _ _ _ Hg).
      * eexists. apply lookup_insert_eq.
    + destruct (decide (f = Savez.filename npz)) as [->|Hne2].
      * right. right. split; [assumption|]. split; [|left; eauto].
        rewrite entries_dumped_other, entries_archived by done. eauto.
      * destruct (Hother Hne2) as [?|?]; [|by left|by right; left].
        by rewrite entries_dumped_other.
Qed.

(** X9. Lines 58-59, 73 and 96-97.  Whatever it returns, a call
    changes the file system in three ways only: it makes directories,
    under free names, at and above the parents of the two paths; it
    writes the archive under the name [np.savez] makes of the archive
    path; and it writes the object file at the object path.  A name
    that held a directory still holds it, and every other entry is as
    it was.  This is said of the two paths and of every name [F]
    written alike (one root, no [".."]), where a name stands for one
    file. *)
Theorem only_outputs_and_directories_change sp p q w w' out F :
  save_smpl sp p q w = (w', out) →
  comparable (Path.of_string p) (Path.of_string q) = true →
  comparable (Path.of_string p) F = true →
  wf_path F →
  let f := Path.str F in
  entries w' !! f = entries w !! f ∨
  (entries w !! f = None ∧ entries w' !! f = Some Dir ∧
   f ∈ ancestors (Path.parent (Path.of_string p))
         ++ ancestors (Path.parent (Path.of_string q))) ∨
  (entries w !! f ≠ Some Dir ∧ (∃ c, entries w' !! f = Some (File c)) ∧
   ((∃ npz, default_suffix (Path.of_string p) ".npz" = inr npz ∧
            f = Savez.filename npz) ∨
    (∃ pkl, default_suffix (Path.of_string q) ".pkl" = inr pkl ∧
            f = Path.str pkl))).
Proof.
  intros Hsave _ _ _ f. by apply (run_changes sp p q w w' out).
Qed.

(** *** A run that succeeds *)

Lemma lookup_archived_other f npz np w :
  f ≠ Savez.filename npz → Fs.lookup f (archived npz np w) = Fs.lookup f w.
Proof.
  intros Hne. unfold Fs.lookup, archived. simpl.
  by rewrite lookup_insert_ne.
Qed.

Lemma lookup_archived_self npz np w :
  Fs.lookup (Savez.filename npz) (archived npz np w)
    = Some (File (NpzArchive (Savez.members np))).
Proof. by rewrite lookup_filename, entries_archived. Qed.

Lemma self_in_ancestors p : Path.str p ∈ ancestors p.
Proof.
  assert (∀ r rt, Path.str (mkPath r (rev rt)) ∈ rev_ancestors r rt) as Hin
    by (intros r [|x rt]; apply list_elem_of_here).
  specialize (Hin (root p) (rev (tail p))).
  by rewrite rev_involutive, path_eta in Hin.
Qed.

Lemma check_writable_ok s w :
  Fs.lookup (Fs.dirname s) w = Some Dir → Fs.lookup s w ≠ Some Dir →
  Fs.check_writable s w = (w, inr tt).
Proof.
  intros Hdir Hs. unfold Fs.check_writable. rewrite Hdir.
  by destruct (Fs.lookup s w) as [[|c]|].
Qed.

Lemma is_dir_lookup f w : Fs.is_dir f w = true → Fs.lookup f w = Some Dir.
Proof.
  unfold Fs.is_dir. by destruct (Fs.lookup f w) as [[|c]|].
Qed.

(** The run under the conditions of the success theorem, step by step. *)
Lemma export_run sp g p q w np npz pkl :
  dict_get "global" sp = Some (PyDict g) →
  convert_items g [] = inr np →
  dict_mem "file" g = false →
  (∀ k, k ∈ required_keys → dict_mem k g = true) →
  (∀ a, dict_get "body_pose" np = Some a → shape a ≠ []) →
  default_suffix (Path.of_string p) ".npz" = inr npz →
  default_suffix (Path.of_string q) ".pkl" = inr pkl →
  PyStr.endswith ".npz" (Path.str npz) = true →
  clear_for (Path.parent (Path.of_string p)) (Path.parent (Path.of_string q))
    npz pkl w →
  ∃ w' info,
    save_smpl sp p q w
      = (w', (Path.str (Path.absolute (cwd w) npz), info)) ∧
    Path.str (Path.absolute (cwd w) npz) ≠ EmptyString ∧
    Fs.is_dir (Path.str (Path.parent (Path.of_string p))) w' = true ∧
    Fs.is_dir (Path.str (Path.parent (Path.of_string q))) w' = true.
Proof.
  intros Hg Hc Hfile Hall Hdim Hnpz Hpkl Hends [Hfiles Houts].
  set (P := Path.parent (Path.of_string p)) in *.
  set (Q := Path.parent (Path.of_string q)) in *.
  set (A := ancestors P ++ ancestors Q) in *.
  assert (Savez.filename npz = Path.str npz) as Hname
    by (unfold Savez.filename; by rewrite Hends).
  destruct (Houts (Path.str npz)) as [Hnd1 Hout1]; [apply list_elem_of_here|].
  destruct (Houts (Path.str pkl)) as [Hnd2 Hout2];
    [apply list_elem_of_further, list_elem_of_here|].
  (* the directories *)
  destruct (mkdir_parents_succeeds P w) as (wa & Hm1 & Hg1 & Hd1).
  { unfold P. rewrite root_parent. apply of_string_wf. }
  { intros a c Ha. apply Hfiles, elem_of_app. by left. }
  destruct (mkdir_parents_succeeds Q wa) as (wb & Hm2 & Hg2 & Hd2).
  { unfold Q. rewrite root_parent. apply of_string_wf. }
  { intros a c Ha Hl. apply (lookup_grows_back _ _ _ _ _ Hg1) in Hl.
    revert Hl. apply Hfiles, elem_of_app. by right. }
  apply (is_dir_grows _ _ _ _ Hg2) in Hd1.
  assert (grows A w wb) as Hgrow.
  { eapply grows_trans; eapply grows_mono; try eassumption;
      intros f Hf; apply elem_of_app; auto. }
  assert (Path.str P ∈ A) as HPA
    by (apply elem_of_app; left; apply self_in_ancestors).
  assert (Path.str Q ∈ A) as HQA
    by (apply elem_of_app; right; apply self_in_ancestors).
  assert (Path.str P ≠ Path.str npz) as HPn
    by (intros Heq; apply Hout1; rewrite <- Heq; exact HPA).
  assert (Path.str P ≠ Path.str pkl) as HPk
    by (intros Heq; apply Hout2; rewrite <- Heq; exact HPA).
  assert (Path.str Q ≠ Path.str npz) as HQn
    by (intros Heq; apply Hout1; rewrite <- Heq; exact HQA).
  assert (Path.str Q ≠ Path.str pkl) as HQk
    by (intros Heq; apply Hout2; rewrite <- Heq; exact HQA).
  (* the archive *)
  assert (Fs.check_writable (Savez.filename npz) wb = (wb, inr tt)) as Hw1.
  { rewrite Hname. apply check_writable_ok.
    - rewrite (dirname_defaulted p ".npz") by done. by apply is_dir_lookup.
    - by rewrite (lookup_grows_out _ _ _ _ Hgrow Hout1). }
  assert (dict_mem "file" np = false) as Hfile'
    by (by rewrite (converted_mem _ _ Hc)).
  pose proof (archive_phase_run _ _ _ _ _ _ _ _ _ _
                Hg Hm1 Hm2 Hnpz Hpkl Hc Hfile' Hw1) as Harch.
  set (w1 := archived npz np wb) in *.
  (* the object file *)
  destruct (fill_pred_all _ _ Hc Hall)
    as (a1 & a2 & a3 & a4 & H1 & _ & _ & _ & Hfill).
  assert (Fs.check_writable (Path.str pkl) w1 = (w1, inr tt)) as Hw2.
  { apply check_writable_ok.
    - rewrite (dirname_defaulted q ".pkl") by done.
      unfold w1. rewrite lookup_archived_other
        by (rewrite Hname; exact HQn).
      by apply is_dir_lookup.
    - destruct (decide (Path.str pkl = Savez.filename npz)) as [Heq|Hne].
      + rewrite Heq. unfold w1. by rewrite lookup_archived_self.
      + unfold w1. rewrite lookup_archived_other by done.
        by rewrite (lookup_grows_out _ _ _ _ Hgrow Hout2). }
  assert (Fs.open_wb pkl w1
          = (Fs.put (Path.str pkl) (File (Bytes 0)) (EvOpenW (Path.str pkl)) w1,
             inr (Path.str pkl))) as Hopen.
  { unfold Fs.open_wb, bind. by rewrite Hw2. }
  set (w2 := dumped pkl (pred_of a1 a2 a3 a4) w1).
  assert (∃ c, Fs.lookup (Path.str pkl) w2 = Some (File c)) as [c2 Hl2].
  { rewrite (lookup_defaulted _ _ _ _ Hpkl) by (simpl; lia).
    eexists. apply lookup_insert_eq. }
  assert (∃ c, Fs.lookup (Path.str npz) w2 = Some (File c)) as [c1 Hl1].
  { destruct (decide (Path.str npz = Path.str pkl)) as [Heq|Hne].
    - rewrite Heq. eauto.
    - unfold w2. rewrite lookup_dumped_other by done.
      rewrite <- Hname. unfold w1. rewrite lookup_archived_self. eauto. }
  destruct (shape a1) as [|n rest] eqn:Hsh; [by destruct (Hdim a1 H1)|].
  assert (cwd w2 = cwd w) as Hcwd by (simpl; apply Hgrow).
  exists w2, (info_text npz (Fs.content_nbytes c1) pkl (Fs.content_nbytes c2) n).
  split; [|split; [|split]].
  - rewrite (save_smpl_after_archive _ _ _ _ _ _ _ _ _ Harch).
    rewrite (record_phase_after_fill _ _ _ _ _ _ Hfill), Hopen.
    cbv zeta. fold w2. unfold pred_of at 1, dict_getitem, ebind. simpl.
    unfold shape0. rewrite Hsh. unfold Fs.stat_size.
    rewrite Hl1, Hl2. simpl in Hcwd. by rewrite Hcwd.
  - eapply str_absolute_nonempty; [exact Hnpz|simpl; lia].
  - unfold Fs.is_dir, w2. rewrite lookup_dumped_other
      by exact HPk.
    unfold w1. rewrite lookup_archived_other
      by (rewrite Hname; exact HPn).
    by rewrite (is_dir_lookup _ _ Hd1).
  - unfold Fs.is_dir, w2. rewrite lookup_dumped_other
      by exact HQk.
    unfold w1. rewrite lookup_archived_other
      by (rewrite Hname; exact HQn).
    by rewrite (is_dir_lookup _ _ Hd2).
Qed.

(** X10. Sufficient conditions for an export.  Let [global] be a
    dictionary whose values all convert, without a parameter called
    [file], with the four required keys, and with a [body_pose] that
    has at least one dimension; let the two path strings have a final
    component, be written alike (one root, no [".."]) with names the
    operating system accepts, the archive path end in [".npz"] after
    lines 61-62, and the file system be clear (no regular file where a
    directory is needed, neither output name a directory or one of the
    directories to be made; the modelled file system knows no
    permissions or quotas).  Then the call succeeds: it returns the
    absolute archive path, which is not empty, and the parents of both
    paths exist as directories afterwards, whether they existed before
    or not. *)
Theorem export_succeeds sp g p q w np npz pkl :
  dict_get "global" sp = Some (PyDict g) →
  convert_items g [] = inr np →
  dict_mem "file" g = false →
  (∀ k, k ∈ required_keys → dict_mem k g = true) →
  (∀ a, dict_get "body_pose" np = Some a → shape a ≠ []) →
  default_suffix (Path.of_string p) ".npz" = inr npz →
  default_suffix (Path.of_string q) ".pkl" = inr pkl →
  PyStr.endswith ".npz" (Path.str npz) = true →
  comparable npz pkl = true →
  ordinary npz = true → ordinary pkl = true →
  clear_for (Path.parent (Path.of_string p)) (Path.parent (Path.of_string q))
    npz pkl w →
  ∃ w' info,
    save_smpl sp p q w
      = (w', (Path.str (Path.absolute (cwd w) npz), info)) ∧
    Path.str (Path.absolute (cwd w) npz) ≠ EmptyString ∧
    Fs.is_dir (Path.str (Path.parent (Path.of_string p))) w' = true ∧
    Fs.is_dir (Path.str (Path.parent (Path.of_string q))) w' = true.
Proof. intros ? ? ? ? ? ? ? ? _ _ _. by apply (export_run sp g p q w np). Qed.

(** *** A second run *)

Lemma check_writable_parent s w :
  Fs.check_writable s w = (w, inr tt) → Fs.lookup (Fs.dirname s) w = Some Dir.
Proof.
  unfold Fs.check_writable.
  by destruct (Fs.lookup (Fs.dirname s) w) as [[|c]|].
Qed.

Lemma lookup_put_file s c ev w :
  Fs.lookup s w ≠ Some Dir →
  Fs.lookup s (Fs.put s (File c) ev w) = Some (File c).
Proof.
  unfold Fs.lookup.
  destruct (String.eqb s "." || String.eqb s "/" || String.eqb s "//");
    [by intros []|].
  intros _. simpl. apply lookup_insert_eq.
Qed.

Lemma lookup_put_dir f s c ev w :
  Fs.lookup s w ≠ Some Dir → Fs.lookup f w = Some Dir →
  Fs.lookup f (Fs.put s (File c) ev w) = Some Dir.
Proof.
  intros Hs Hf. destruct (decide (f = s)) as [->|Hne]; [done|].
  revert Hf. unfold Fs.lookup.
  destruct (String.eqb f "." || String.eqb f "/" || String.eqb f "//");
    [done|].
  simpl. by rewrite lookup_insert_ne.
Qed.

Lemma lookup_put_not_dir f s c ev w :
  Fs.lookup f w ≠ Some Dir → Fs.lookup f (Fs.put s (File c) ev w) ≠ Some Dir.
Proof.
  intros Hf. destruct (decide (f = s)) as [->|Hne].
  - by rewrite lookup_put_file.
  - revert Hf. unfold Fs.lookup.
    destruct (String.eqb f "." || String.eqb f "/" || String.eqb f "//");
      [done|].
    simpl. by rewrite lookup_insert_ne.
Qed.

Lemma lookup_put_some f s n ev w :
  Fs.lookup f w ≠ None → Fs.lookup f (Fs.put s n ev w) ≠ None.
Proof.
  unfold Fs.lookup.
  destruct (String.eqb f "." || String.eqb f "/" || String.eqb f "//");
    [done|].
  simpl. destruct (decide (f = s)) as [->|Hne].
  - by rewrite lookup_insert_eq.
  - by rewrite lookup_insert_ne.
Qed.

Lemma lookup_grows_some A w w' f :
  grows A w w' → Fs.lookup f w ≠ None → Fs.lookup f w' ≠ None.
Proof.
  intros Hg Hf. destruct (Fs.lookup f w) as [n|] eqn:Hl; [|done].
  by rewrite (lookup_grows _ _ _ _ _ Hg Hl).
Qed.

Lemma lookup_put_ne f s n ev w :
  f ≠ s → Fs.lookup f (Fs.put s n ev w) = Fs.lookup f w.
Proof.
  intros Hne. unfold Fs.lookup. simpl. by rewrite lookup_insert_ne.
Qed.

Lemma file_above_put d s c ev w :
  Fs.lookup s w ≠ Some Dir → Fs.file_above d w = true →
  Fs.file_above d (Fs.put s (File c) ev w) = true.
Proof.
  intros Hs. unfold Fs.file_above. intros Hex.
  apply existsb_exists in Hex as (a & Hin & Ha).
  apply existsb_exists. exists a. split; [assumption|].
  destruct (decide (a = s)) as [->|Hne].
  - by rewrite lookup_put_file.
  - by rewrite lookup_put_ne.
Qed.

Lemma file_above_grows A d w w' :
  grows A w w' → Fs.file_above d w = true → Fs.file_above d w' = true.
Proof.
  intros Hg. unfold Fs.file_above. intros Hex.
  apply existsb_exists in Hex as (a & Hin & Ha).
  apply existsb_exists. exists a. split; [assumption|].
  destruct (Fs.lookup a w) as [[|c]|] eqn:E; try discriminate.
  by rewrite (lookup_grows _ _ _ _ _ Hg E).
Qed.

(** Where [os.mkdir] did not raise [FileNotFoundError], the parent is
    there, or a regular file is on the way to it. *)
Lemma os_mkdir_parent p w w' r :
  Fs.os_mkdir p w = (w', r) →
  (∀ f, r ≠ inl (OSError ENOENT f)) →
  Fs.lookup (Path.str (Path.parent p)) w' ≠ None ∨
  Fs.file_above (Path.parent p) w' = true.
Proof.
  unfold Fs.os_mkdir. intros Hrun Hr.
  destruct (Fs.lookup (Path.str (Path.parent p)) w) as [[|c]|] eqn:Hp.
  - left. destruct (Fs.lookup (Path.str p) w); inversion Hrun; subst.
    + by rewrite Hp.
    + apply lookup_put_some. by rewrite Hp.
  - left. inversion Hrun; subst. by rewrite Hp.
  - destruct (Fs.file_above (Path.parent p) w) eqn:Hab;
      inversion Hrun; subst; [by right|].
    by destruct (Hr (Path.str p)).
Qed.

Lemma mkdir_leaf_parent p w w' :
  Fs.mkdir_leaf p w = (w', inr tt) →
  Fs.lookup (Path.str (Path.parent p)) w' ≠ None ∨
  Fs.file_above (Path.parent p) w' = true.
Proof.
  unfold Fs.mkdir_leaf. intros Hrun.
  destruct (Fs.os_mkdir p w) as [w1 [e|[]]] eqn:Hmk.
  - destruct e as [| | | | | |[] f];
      try (destruct (Fs.is_dir (Path.str p) w1) eqn:Hd;
           inversion Hrun; subst;
           by apply (os_mkdir_parent _ _ _ _ Hmk)).
  - inversion Hrun; subst. by apply (os_mkdir_parent _ _ _ _ Hmk).
Qed.

Lemma mkdir_rev_parent r rt w w' :
  Fs.mkdir_rev r rt w = (w', inr tt) →
  Fs.lookup (Path.str (Path.parent (mkPath r (rev rt)))) w' ≠ None ∨
  Fs.file_above (Path.parent (mkPath r (rev rt))) w' = true.
Proof.
  destruct rt as [|x rt]; intros Hrun; simpl in Hrun.
  - destruct (Fs.os_mkdir _ w) as [w1 [e|[]]] eqn:Hmk.
    + destruct e as [| | | | | |[] f];
        try (destruct (Fs.is_dir _ w1) eqn:Hd;
             inversion Hrun; subst;
             by apply (os_mkdir_parent _ _ _ _ Hmk));
        discriminate.
    + inversion Hrun; subst. by apply (os_mkdir_parent _ _ _ _ Hmk).
  - destruct (Fs.os_mkdir _ w) as [w1 [e|[]]] eqn:Hmk.
    + destruct e as [| | | | | |[] f];
        try (destruct (Fs.is_dir _ w1) eqn:Hd;
             inversion Hrun; subst;
             by apply (os_mkdir_parent _ _ _ _ Hmk)).
      destruct (Fs.mkdir_rev r rt w1) as [w2 [e2|u2]]; [discriminate|].
      by apply mkdir_leaf_parent in Hrun.
    + inversion Hrun; subst. by apply (os_mkdir_parent _ _ _ _ Hmk).
Qed.

(** With [exist_ok=True], making a directory that is there, where
    [os.mkdir] finds something in place, changes nothing. *)
Lemma mkdir_rev_exists r rt w e s :
  Fs.os_mkdir (mkPath r (rev rt)) w = (w, inl (OSError e s)) →
  e ≠ ENOENT →
  Fs.is_dir (Path.str (mkPath r (rev rt))) w = true →
  Fs.mkdir_rev r rt w = (w, inr tt).
Proof.
  intros Hmk He Hd.
  destruct rt as [|x rt]; simpl in *; rewrite Hmk; destruct e; try done;
    by rewrite Hd.
Qed.

Lemma mkdir_parents_settled p w :
  Fs.is_dir (Path.str p) w = true →
  Fs.lookup (Path.str (Path.parent p)) w ≠ None ∨
  Fs.file_above (Path.parent p) w = true →
  Fs.mkdir_parents p w = (w, inr tt).
Proof.
  intros Hd Hp.
  assert (∃ e, Fs.os_mkdir p w = (w, inl (OSError e (Path.str p))) ∧
               e ≠ ENOENT) as (e & Hmk & He).
  { unfold Fs.os_mkdir.
    destruct (Fs.lookup (Path.str (Path.parent p)) w) as [[|c]|].
    - apply is_dir_lookup in Hd. rewrite Hd. by exists EEXIST.
    - by exists ENOTDIR.
    - destruct Hp as [?|Hab]; [done|]. rewrite Hab. by exists ENOTDIR. }
  unfold Fs.mkdir_parents.
  apply (mkdir_rev_exists _ _ _ e (Path.str p));
    rewrite ?rev_involutive, ?path_eta; assumption.
Qed.

Lemma archive_phase_steps sp p q w w1 gp npz pkl np :
  archive_phase sp p q w = (w1, inr (gp, npz, pkl, np)) →
  ∃ g wa wd,
    gp = PyDict g ∧ dict_get "global" sp = Some (PyDict g) ∧
    Fs.mkdir_parents (Path.parent (Path.of_string p)) w = (wa, inr tt) ∧
    Fs.mkdir_parents (Path.parent (Path.of_string q)) wa = (wd, inr tt) ∧
    default_suffix (Path.of_string p) ".npz" = inr npz ∧
    default_suffix (Path.of_string q) ".pkl" = inr pkl ∧
    convert_items g [] = inr np ∧
    dict_mem "file" np = false ∧
    Fs.check_writable (Savez.filename npz) wd = (wd, inr tt) ∧
    w1 = archived npz np wd.
Proof.
  unfold archive_phase. intros Hrun.
  apply bind_inv in Hrun as [(wa & [] & Hchk & Hrun)|(e & _ & ?)];
    [|discriminate].
  assert (wa = w) as ->.
  { destruct (dict_mem "global" sp); by inversion Hchk. }
  apply bind_inv in Hrun as [(wa & gp' & Hget & Hrun)|(e & _ & ?)];
    [|discriminate].
  apply lift_inv in Hget as [-> Hget].
  unfold dict_getitem in Hget.
  destruct (dict_get "global" sp) as [gp''|] eqn:Hglobal; [|discriminate].
  injection Hget as Heq; subst gp''.
  apply bind_inv in Hrun as [(wa & [] & Hmk1 & Hrun)|(e & _ & ?)];
    [|discriminate].
  apply bind_inv in Hrun as [(wb & [] & Hmk2 & Hrun)|(e & _ & ?)];
    [|discriminate].
  apply bind_inv in Hrun as [(wc & npz' & Hnpz & Hrun)|(e & _ & ?)];
    [|discriminate].
  apply lift_inv in Hnpz as [-> Hnpz].
  apply bind_inv in Hrun as [(wc & pkl' & Hpkl & Hrun)|(e & _ & ?)];
    [|discriminate].
  apply lift_inv in Hpkl as [-> Hpkl].
  apply bind_inv in Hrun as [(wc & np' & Hconv & Hrun)|(e & _ & ?)];
    [|discriminate].
  apply lift_inv in Hconv as [-> Hconv].
  destruct gp' as [g|ty]; [|discriminate]. simpl in Hconv.
  apply bind_inv in Hrun as [(wc & [] & Hsave & Hrun)|(e & _ & ?)];
    [|discriminate].
  apply savez_inv in Hsave as [(e' & He' & ->)|(_ & Hfile & Hw & ->)];
    [discriminate|].
  inversion Hrun; subst. exists g, wa, wb. done.
Qed.

Lemma lookup_entries f w w' :
  entries w' = entries w → Fs.lookup f w' = Fs.lookup f w.
Proof. unfold Fs.lookup. by intros ->. Qed.

Lemma stat_size_entries p w w' ws r :
  entries w' = entries w →
  Fs.stat_size p w = (ws, r) → Fs.stat_size p w' = (w', r).
Proof.
  intros He. unfold Fs.stat_size. rewrite (lookup_entries _ _ _ He).
  destruct (Fs.lookup (Path.str p) w) as [[|c]|]; intros Hrun;
    by inversion Hrun.
Qed.

(** Writing both files a second time leaves the entries as they are. *)
Lemma entries_rewritten npz pkl np pred w :
  let w2 := dumped pkl pred (archived npz np w) in
  entries (dumped pkl pred (archived npz np w2)) = entries w2.
Proof.
  intros w2. apply map_eq. intros f. unfold w2, dumped, archived. simpl.
  destruct (decide (f = Path.str pkl)) as [->|Hk].
  - by rewrite !lookup_insert_eq.
  - rewrite !(lookup_insert_ne _ (Path.str pkl)) by done.
    destruct (decide (f = Savez.filename npz)) as [->|Hf].
    + by rewrite !lookup_insert_eq.
    + by repeat (rewrite lookup_insert_ne by done).
Qed.

(** X11. A second call with the same inputs, on the file system the
    first left behind.  Where the first call succeeded, the second
    succeeds too and returns the same path and the same report, and the
    files and directories are afterwards exactly as the first call left
    them: both files are written again with the same content, nothing
    else is made or changed. *)
Theorem second_run_repeats sp p q w w' file_path info :
  save_smpl sp p q w = (w', (file_path, info)) →
  file_path ≠ EmptyString →
  ∃ w'', save_smpl sp p q w' = (w'', (file_path, info)) ∧
         entries w'' = entries w' ∧ cwd w'' = cwd w'.
Proof.
  intros Hsave Hne.
  assert (save_smpl_body sp p q w = (w', inr (file_path, info))) as Hrun.
  { unfold save_smpl in Hsave.
    destruct (save_smpl_body sp p q w) as [w1 [e|res]];
      inversion Hsave; subst; done. }
  clear Hsave. unfold save_smpl_body in Hrun.
  apply bind_inv in Hrun
    as [(w1 & [[[gp npz] pkl] np] & Harch & Hrec)|(e & _ & ?)];
    [|discriminate].
  apply archive_phase_steps in Harch
    as (g & wa & wd & -> & Hg & Hm1 & Hm2 & Hnpz & Hpkl & Hconv & Hfile
        & Hw & ->).
  destruct (fill_pred required_keys np (PyDict g) pred_empty)
    as [e|pred] eqn:Hfill.
  { rewrite (record_phase_fail _ _ _ _ _ _ Hfill) in Hrec. discriminate. }
  rewrite (record_phase_after_fill _ _ _ _ _ _ Hfill) in Hrec.
  destruct (Fs.open_wb pkl (archived npz np wd)) as [wo [e|h]] eqn:Hopen;
    [discriminate|].
  apply open_wb_inv in Hopen as [(e' & He & _)|(_ & Hw2 & _)];
    [discriminate|].
  cbv zeta in Hrec.
  match type of Hrec with
  | context [match ?x with inl _ => _ | inr _ => _ end] =>
      destruct x as [e|n] eqn:Hn
  end; [discriminate|].
  destruct (Fs.stat_size npz _) as [ws1 [e|s1]] eqn:Hs1; [discriminate|].
  destruct (Fs.stat_size pkl _) as [ws2 [e|s2]] eqn:Hs2; [discriminate|].
  inversion Hrec; subst; clear Hrec.
  set (w1 := archived npz np wd) in *.
  set (w2 := dumped pkl pred w1) in *.
  (* what the checks of the first run say *)
  pose proof (check_writable_not_dir _ _ Hw) as HF.
  pose proof (check_writable_parent _ _ Hw) as HFd.
  pose proof (check_writable_not_dir _ _ Hw2) as HK.
  pose proof (check_writable_parent _ _ Hw2) as HKd.
  assert (∀ f, Fs.lookup f w1 = Some Dir → Fs.lookup f w2 = Some Dir) as Hk2.
  { intros f Hf. unfold w2, dumped. apply lookup_put_dir;
      [by rewrite lookup_put_file|by apply lookup_put_dir]. }
  assert (∀ f, Fs.lookup f wd = Some Dir → Fs.lookup f w2 = Some Dir) as Hkeep.
  { intros f Hf. apply Hk2. by apply lookup_put_dir. }
  assert (∀ P, Fs.lookup (Path.str (Path.parent P)) wd ≠ None ∨
               Fs.file_above (Path.parent P) wd = true →
               Fs.lookup (Path.str (Path.parent P)) w2 ≠ None ∨
               Fs.file_above (Path.parent P) w2 = true) as Hsome.
  { intros P [Hf|Hf]; [left; by do 3 apply lookup_put_some|right].
    unfold w2, dumped. apply file_above_put; [by rewrite lookup_put_file|].
    apply file_above_put; [assumption|]. by apply file_above_put. }
  assert (Fs.lookup (Savez.filename npz) w2 ≠ Some Dir) as HF2.
  { do 2 apply lookup_put_not_dir. unfold w1. by rewrite lookup_archived_self. }
  assert (Fs.lookup (Path.str pkl) w2 ≠ Some Dir) as HK2.
  { unfold w2, dumped. rewrite lookup_put_file; [done|].
    by rewrite lookup_put_file. }
  (* the directories are there *)
  pose proof (mkdir_parents_grows _ _ _ _ Hm2) as Hgrow.
  pose proof (mkdir_rev_is_dir _ _ _ _ Hm1) as Hd1.
  pose proof (mkdir_rev_parent _ _ _ _ Hm1) as Hp1.
  pose proof (mkdir_rev_is_dir _ _ _ _ Hm2) as Hd2.
  pose proof (mkdir_rev_parent _ _ _ _ Hm2) as Hp2.
  rewrite rev_involutive, path_eta in Hd1, Hp1, Hd2, Hp2.
  apply (is_dir_grows _ _ _ _ Hgrow) in Hd1.
  assert (Fs.lookup (Path.str (Path.parent (Path.parent (Path.of_string p))))
            wd ≠ None ∨
          Fs.file_above (Path.parent (Path.parent (Path.of_string p))) wd
            = true) as Hp1'.
  { destruct Hp1 as [Hp1|Hp1];
      [left; by apply (lookup_grows_some _ _ _ _ Hgrow)
      |right; by apply (file_above_grows _ _ _ _ Hgrow)]. }
  clear Hp1. rename Hp1' into Hp1.
  assert (∀ P, Fs.is_dir (Path.str P) wd = true →
               Fs.lookup (Path.str (Path.parent P)) wd ≠ None ∨
               Fs.file_above (Path.parent P) wd = true →
               Fs.mkdir_parents P w2 = (w2, inr tt)) as Hmk.
  { intros P Hd Hp. apply mkdir_parents_settled; [|by apply Hsome].
    unfold Fs.is_dir. by rewrite (Hkeep _ (is_dir_lookup _ _ Hd)). }
  (* the second run *)
  assert (Fs.check_writable (Savez.filename npz) w2 = (w2, inr tt)) as Hw3
    by (apply check_writable_ok; auto).
  pose proof (archive_phase_run _ _ _ _ _ _ _ _ _ _
                Hg (Hmk _ Hd1 Hp1) (Hmk _ Hd2 Hp2)
                Hnpz Hpkl Hconv Hfile Hw3) as Harch.
  set (w3 := archived npz np w2) in *.
  assert (Fs.check_writable (Path.str pkl) w3 = (w3, inr tt)) as Hw4.
  { apply check_writable_ok.
    - unfold w3, archived. apply lookup_put_dir; auto.
    - by apply lookup_put_not_dir. }
  pose proof (entries_rewritten npz pkl np pred wd) as Hsame.
  cbv zeta in Hsame. fold w1 w2 w3 in Hsame.
  exists (dumped pkl pred w3). split; [|split; [assumption|reflexivity]].
  rewrite (save_smpl_after_archive _ _ _ _ _ _ _ _ _ Harch).
  rewrite (record_phase_after_fill _ _ _ _ _ _ Hfill).
  unfold Fs.open_wb at 1, bind at 1. rewrite Hw4. cbv zeta. rewrite Hn.
  rewrite (stat_size_entries _ _ _ _ _ Hsame Hs1).
  by rewrite (stat_size_entries _ _ _ _ _ Hsame Hs2).
Qed.

(** *** A regular file in the way *)

Lemma mkdir_rev_blocked r rt w e s :
  Fs.os_mkdir (mkPath r (rev rt)) w = (w, inl (OSError e s)) →
  e ≠ ENOENT →
  Fs.is_dir (Path.str (mkPath r (rev rt))) w = false →
  Fs.mkdir_rev r rt w = (w, inl (OSError e s)).
Proof.
  intros Hmk He Hd.
  destruct rt as [|x rt]; simpl in *; rewrite Hmk; destruct e; try done;
    by rewrite Hd.
Qed.

(** X12. Lines 58 and 115-120.  Where the directory of the archive
    path is taken by a regular file (inside an existing directory),
    [mkdir(parents=True, exist_ok=True)] raises [FileExistsError]: the
    call returns the empty path with the error text of that exception,
    and the file system is exactly as it was.  The text is stated for a
    directory name in ASCII. *)
Theorem file_in_place_of_directory sp gp p q w c :
  dict_get "global" sp = Some gp →
  Fs.lookup (Path.str (Path.parent (Path.of_string p))) w = Some (File c) →
  Fs.lookup (Path.str (Path.parent (Path.parent (Path.of_string p)))) w
    = Some Dir →
  PyStr.is_ascii (Path.str (Path.parent (Path.of_string p))) = true →
  save_smpl sp p q w
    = (w, (EmptyString,
           "SaveSMPL failed: [Errno 17] File exists: "
             +:+ PyStr.repr (Path.str (Path.parent (Path.of_string p))))).
Proof.
  intros Hg Hf Hd _.
  set (P := Path.parent (Path.of_string p)) in *.
  assert (Fs.mkdir_parents P w = (w, inl (OSError EEXIST (Path.str P))))
    as Hmk.
  { unfold Fs.mkdir_parents. apply mkdir_rev_blocked;
      rewrite ?rev_involutive, ?path_eta; [|done|].
    - unfold Fs.os_mkdir. by rewrite Hd, Hf.
    - unfold Fs.is_dir. by rewrite Hf. }
  unfold save_smpl, save_smpl_body, archive_phase.
  unfold bind at 1. unfold bind at 1.
  rewrite (dict_get_mem _ _ _ Hg). unfold negb, ret.
  unfold bind at 1. unfold lift, dict_getitem. rewrite Hg.
  unfold bind at 1. fold P. by rewrite Hmk.
Qed.

(** *** The default paths *)

(** X13. Lines 19 and 26.  With the two path inputs left at their
    defaults, a valid bundle is exported whenever neither [output] nor
    [output_pkl] is a regular file and neither output name is a
    directory: the defaults need no extension added, the archive goes to
    [output/motion.npz] under the working directory, and both
    directories exist afterwards. *)
Theorem default_paths_export sp g w np p q :
  default_of "npz_output_path" = Some p →
  default_of "pkl_output_path" = Some q →
  dict_get "global" sp = Some (PyDict g) →
  convert_items g [] = inr np →
  dict_mem "file" g = false →
  (∀ k, k ∈ required_keys → dict_mem k g = true) →
  (∀ a, dict_get "body_pose" np = Some a → shape a ≠ []) →
  (∀ d c, d ∈ ["output"; "output_pkl"] → Fs.lookup d w ≠ Some (File c)) →
  (∀ o, o ∈ ["output/motion.npz"; "output_pkl/motion.pkl"] →
        Fs.lookup o w ≠ Some Dir) →
  ∃ w' info,
    save_smpl sp p q w
      = (w', (Path.str (Path.absolute (cwd w) (Path.of_string p)), info)) ∧
    Path.str (Path.of_string p) = "output/motion.npz" ∧
    Fs.is_dir "output" w' = true ∧
    Fs.is_dir "output_pkl" w' = true.
Proof.
  intros Hp Hq Hg Hc Hfile Hall Hdim Hdirs Houts.
  vm_compute in Hp, Hq. injection Hp as <-. injection Hq as <-.
  destruct (export_run sp g "output/motion.npz" "output_pkl/motion.pkl" w np
              (Path.of_string "output/motion.npz")
              (Path.of_string "output_pkl/motion.pkl"))
    as (w' & info & Hrun & _ & Hd1 & Hd2); try assumption; try reflexivity.
  - split.
    + intros a c Ha.
      change (a ∈ ["output"; "."; "output_pkl"; "."]) in Ha.
      repeat (apply elem_of_cons in Ha as [->|Ha]);
        try (by apply elem_of_nil in Ha); try discriminate;
        apply Hdirs;
        repeat first [apply list_elem_of_here | apply list_elem_of_further].
    + intros o Ho.
      change (o ∈ ["output/motion.npz"; "output_pkl/motion.pkl"]) in Ho.
      split; [by apply Houts|].
      change (o ∉ ["output"; "."; "output_pkl"; "."]).
      repeat (apply elem_of_cons in Ho as [->|Ho]);
        try (by apply elem_of_nil in Ho);
        apply (bool_decide_unpack _); vm_compute; exact I.
  - exists w', info. done.
Qed.

(** *** What the block raises *)











(** *** Outcomes of a call *)



(** *** A missing required key *)


(** *** The archive *)




(** C10, as amended.  Let lines 46-73 run to the end (validation,
    paths, directories, conversion and the archive write succeed) on a
    bundle whose [global] namespace lacks a required key, with an
    archive path whose text ends in [".npz"] (as it does whenever the
    default extension was appended).  Then the call returns the failure
    pair of a missing-key error and changes nothing after the archive
    write: the archive is at the archive path, and the call of
    [np.savez] with the converted set is the last event of the run.
    The archive holds the converted set less a parameter called
    [allow_pickle], so all of it when [global] has no such key. *)
Theorem archive_written_before_key_check sp g p q w w1 gp npz_path pkl_path
    np_params k :
  dict_get "global" sp = Some (PyDict g) →
  k ∈ required_keys → dict_mem k g = false →
  archive_phase sp p q w = (w1, inr (gp, npz_path, pkl_path, np_params)) →
  PyStr.endswith ".npz" (Path.str npz_path) = true →
  (∃ k', k' ∈ required_keys ∧ dict_mem k' g = false ∧
     save_smpl sp p q w =
       (w1, (EmptyString,
             "SaveSMPL failed: " +:+ PyStr.repr (msg_missing k')))) ∧
  entries w1 !! Path.str npz_path
    = Some (File (NpzArchive (Savez.members np_params))) ∧
  Savez.load (Path.str npz_path) w1 = inr (Savez.members np_params) ∧
  (∀ k, k ≠ "allow_pickle" →
        dict_get k (Savez.members np_params) = dict_get k np_params) ∧
  dict_mem "allow_pickle" (Savez.members np_params) = false ∧
  (dict_mem "allow_pickle" g = false → Savez.members np_params = np_params) ∧
  (∃ evs, log w1 = log w ++ evs ++ [EvSavez (Path.str npz_path) np_params]).
Proof.
  intros Hg Hk Hmiss Harch Hends.
  pose proof (archive_phase_inv _ _ _ _ _ _ Harch) as Hinv. simpl in Hinv.
  destruct Hinv as (g' & wd & Hg' & -> & _ & _ & Hc & _ & Hm & _ & ->).
  rewrite Hg in Hg'. injection Hg' as <-.
  destruct (fill_pred_missing g np_params k (converted_mem _ _ Hc) Hk Hmiss)
    as (k' & Hk' & Hmiss' & Hfill).
  assert (Savez.filename npz_path = Path.str npz_path) as Hname
    by (unfold Savez.filename; by rewrite Hends).
  split; [|split; [|split; [|split; [|split; [|split]]]]].
  - exists k'. split; [assumption|]. split; [assumption|].
    unfold save_smpl, save_smpl_body, bind. rewrite Harch.
    by rewrite (record_phase_fail _ _ _ _ _ _ Hfill).
  - rewrite <- Hname. apply entries_archived.
  - rewrite <- Hname. apply load_archive_archived.
  - intros k0 Hk0. by apply members_get.
  - by rewrite members_mem.
  - intros Hap. apply members_id. by rewrite (converted_mem _ _ Hc).
  - destruct Hm as (_ & dirs & Hlog & _). exists dirs.
    rewrite <- Hname. simpl. rewrite Hlog. by rewrite <- app_assoc.
Qed.

End Further.


(** ** Worked runs of the further properties *)


(** X2 on a bundle whose second value is ragged and whose fourth is a
    bfloat16 tensor: the ragged one is reported. *)
Lemma convert_items_first_failure_witness :
  convert_items Cases.motion_bad []
    = inl (ValueError "setting an array element with a sequence.").
Proof.
  refine (convert_items_first_failure
           [("body_pose", NdArray Examples.body_pose)]
           "global_orient" Cases.ragged
           [("transl", NdArray Examples.transl); ("betas", Cases.bf16)]
           (ValueError "setting an array element with a sequence.")
           _ _ []);
    [|reflexivity].
  repeat constructor. simpl. eexists. reflexivity.
Defined.

(** X3 on the valid bundle. *)
Lemma empty_path_signals_failure_witness :
  let r := Examples.call Examples.bundle "output/motion" "output_pkl/motion" in
  let w' := fst r in
  let file_path := fst (snd r) in
  let info := snd (snd r) in
  let body := @save_smpl_body Examples.platform Examples.bundle
                "output/motion" "output_pkl/motion" Examples.w0 in
  (file_path = EmptyString ↔ ∃ e, body = (w', inl e)) ∧
  (file_path ≠ EmptyString ↔ body = (w', inr (file_path, info))) ∧
  (file_path ≠ EmptyString →
     ∃ npz, default_suffix (Path.of_string "output/motion") ".npz" = inr npz ∧
            file_path = Path.str (Path.absolute (cwd Examples.w0) npz) ∧
            (root (cwd Examples.w0) ≠ EmptyString →
             root (Path.absolute (cwd Examples.w0) npz) ≠ EmptyString)).
Proof.
  intros r w' file_path info body.
  apply (@empty_path_signals_failure Examples.platform Examples.bundle
           "output/motion" "output_pkl/motion" Examples.w0 w' file_path info).
  vm_compute. reflexivity.
Defined.

(** X4 on a bundle whose [body_pose] is a tensor of seven frames. *)
Lemma frames_is_leading_dimension_witness :
  let r := @save_smpl_body Examples.platform Cases.bundle_seven
             "output/motion" "output_pkl/motion" Examples.w0 in
  ∃ pre, snd (Examples.result_of r)
         = pre +:+ "Frames: " +:+ PyStr.of_N (N.of_nat 7) +:+ PyStr.NL.
Proof.
  intros r.
  apply (@frames_is_leading_dimension Examples.platform Cases.bundle_seven
           Cases.motion_seven "output/motion" "output_pkl/motion"
           Examples.w0 (fst r) (fst (Examples.result_of r))
           (snd (Examples.result_of r)) (Tensor Cases.seven)
           (mkArray np_float32 [7; 24; 3] []) 7 [24; 3]);
    try (vm_compute; reflexivity).
  apply (bool_decide_unpack _). vm_compute. exact I.
Defined.

(** X5 on a bundle with a parameter called [file]. *)
Lemma invalid_bundle_writes_no_file_witness :
  let r := Examples.call Cases.bundle_file "output/motion" "output_pkl/motion" in
  fst (snd r) = EmptyString ∧ mkdirs_only Examples.w0 (fst r).
Proof.
  intros r.
  apply (@invalid_bundle_writes_no_file Examples.platform Cases.bundle_file
           "output/motion" "output_pkl/motion" Examples.w0 (fst r) (snd r)).
  - right. exists Cases.motion_file. split; [reflexivity|].
    right. reflexivity.
  - vm_compute. reflexivity.
Defined.

(** X6 where the object path [out.pkl] is a directory. *)
Lemma archive_stays_when_open_fails_witness :
  let w1 := fst (archive_phase Examples.bundle "output/motion.npz" "out.pkl"
                   Cases.w_used) in
  @save_smpl Examples.platform Examples.bundle "output/motion.npz" "out.pkl"
    Cases.w_used
    = (w1, (EmptyString,
            "SaveSMPL failed: [Errno " +:+ PyStr.of_N (os_errno EISDIR) +:+ "] "
              +:+ os_strerror EISDIR +:+ ": " +:+ PyStr.repr "out.pkl")) ∧
  "out.pkl" = Path.str (mkPath EmptyString ["out.pkl"]) ∧
  Savez.load "output/motion.npz" w1 = inr (Savez.members Examples.motion_np) ∧
  (dict_mem "allow_pickle" Examples.motion = false →
   Savez.load "output/motion.npz" w1 = inr Examples.motion_np).
Proof.
  intros w1.
  apply (@archive_stays_when_open_fails Examples.platform Examples.bundle
           Examples.motion "output/motion.npz" "out.pkl" Cases.w_used w1
           (PyDict Examples.motion) Examples.npz_path
           (mkPath EmptyString ["out.pkl"]) Examples.motion_np w1
           EISDIR "out.pkl");
    try (vm_compute; reflexivity).
  intros k Hk. all_keys Hk.
Defined.

(** X7 on a bundle whose [body_pose] is a scalar. *)
Lemma scalar_body_pose_fails_after_writing_witness :
  let w1 := fst (archive_phase Cases.bundle_scalar "output/motion"
                   "output_pkl/motion" Examples.w0) in
  ∃ pred,
    @save_smpl Examples.platform Cases.bundle_scalar "output/motion"
      "output_pkl/motion" Examples.w0
      = (@dumped Examples.platform Examples.pkl_path pred w1,
         (EmptyString, "SaveSMPL failed: tuple index out of range")) ∧
    Pickle.load "output_pkl/motion.pkl"
      (@dumped Examples.platform Examples.pkl_path pred w1) = inr pred ∧
    EvSavez "output/motion.npz"
      [("body_pose", Examples.f32 []);
       ("global_orient", Examples.global_orient);
       ("transl", Examples.transl); ("betas", Examples.betas)] ∈ log w1.
Proof.
  intros w1.
  apply (@scalar_body_pose_fails_after_writing Examples.platform
           Cases.bundle_scalar Cases.motion_scalar "output/motion"
           "output_pkl/motion" Examples.w0 w1 (PyDict Cases.motion_scalar)
           Examples.npz_path Examples.pkl_path
           [("body_pose", Examples.f32 []);
            ("global_orient", Examples.global_orient);
            ("transl", Examples.transl); ("betas", Examples.betas)]
           (Examples.f32 [])
           (fst (Fs.open_wb Examples.pkl_path w1)) "output_pkl/motion.pkl");
    try (vm_compute; reflexivity).
  intros k Hk. all_keys Hk.
Defined.

(** X8 with the archive path [out/motion.dat]. *)
Lemma foreign_extension_fails_after_writing_witness :
  let npz := mkPath EmptyString ["out"; "motion.dat"] in
  let pkl := mkPath EmptyString ["out"; "motion.pkl"] in
  let w1 := fst (archive_phase Examples.bundle "out/motion.dat"
                   "out/motion.pkl" Examples.w0) in
  ∃ pred,
    @save_smpl Examples.platform Examples.bundle "out/motion.dat"
      "out/motion.pkl" Examples.w0
      = (@dumped Examples.platform pkl pred w1,
         (EmptyString,
          "SaveSMPL failed: [Errno 2] No such file or directory: "
            +:+ PyStr.repr "out/motion.dat")) ∧
    Pickle.load "out/motion.pkl" (@dumped Examples.platform pkl pred w1)
      = inr pred ∧
    entries w1 !! "out/motion.dat.npz"
      = Some (File (NpzArchive (Savez.members Examples.motion_np))) ∧
    (dict_mem "allow_pickle" Examples.motion = false →
     Savez.members Examples.motion_np = Examples.motion_np).
Proof.
  intros npz pkl w1.
  apply (@foreign_extension_fails_after_writing Examples.platform
           Examples.bundle Examples.motion "out/motion.dat" "out/motion.pkl"
           Examples.w0 w1 (PyDict Examples.motion) npz pkl Examples.motion_np
           Examples.body_pose 5 [24; 3]
           (fst (Fs.open_wb pkl w1)) "out/motion.pkl");
    try (vm_compute; reflexivity).
  - intros k Hk. all_keys Hk.
  - vm_compute. discriminate.
Defined.

(** X9 on a file system that holds a note, an old archive and the
    directory [output], at the name [pkls/take1]. *)
Lemma only_outputs_and_directories_change_witness :
  let w := Cases.w_used in
  let w' := fst (@save_smpl Examples.platform Examples.bundle
                   "output/motion.npz" "pkls/take1/motion" w) in
  let f := Path.str (mkPath EmptyString ["pkls"; "take1"]) in
    entries w' !! f = entries w !! f ∨
    (entries w !! f = None ∧ entries w' !! f = Some Dir ∧
     f ∈ ancestors (Path.parent (Path.of_string "output/motion.npz"))
           ++ ancestors (Path.parent (Path.of_string "pkls/take1/motion"))) ∨
    (entries w !! f ≠ Some Dir ∧ (∃ c, entries w' !! f = Some (File c)) ∧
     ((∃ npz, default_suffix (Path.of_string "output/motion.npz") ".npz"
              = inr npz ∧ f = Savez.filename npz) ∨
      (∃ pkl, default_suffix (Path.of_string "pkls/take1/motion") ".pkl"
              = inr pkl ∧ f = Path.str pkl))).
Proof.
  intros w w'.
  apply (@only_outputs_and_directories_change Examples.platform
           Examples.bundle "output/motion.npz" "pkls/take1/motion" w w'
           (snd (@save_smpl Examples.platform Examples.bundle
                   "output/motion.npz" "pkls/take1/motion" w))
           (mkPath EmptyString ["pkls"; "take1"]));
    try (vm_compute; reflexivity).
  split; [by left|]. repeat constructor.
Defined.

(** X10 on the same file system: the old archive is replaced, two
    directories are made for the object file. *)
Lemma export_succeeds_witness :
  let npz := Examples.npz_path in
  ∃ w' info,
    @save_smpl Examples.platform Examples.bundle "output/motion"
      "pkls/take1/motion" Cases.w_used
      = (w', (Path.str (Path.absolute (cwd Cases.w_used) npz), info)) ∧
    Path.str (Path.absolute (cwd Cases.w_used) npz) ≠ EmptyString ∧
    Fs.is_dir (Path.str (Path.parent (Path.of_string "output/motion"))) w'
      = true ∧
    Fs.is_dir (Path.str (Path.parent (Path.of_string "pkls/take1/motion"))) w'
      = true.
Proof.
  intros npz.
  apply (@export_succeeds Examples.platform Examples.bundle Examples.motion
           "output/motion" "pkls/take1/motion" Cases.w_used
           Examples.motion_np npz
           (mkPath EmptyString ["pkls"; "take1"; "motion.pkl"]));
    try (vm_compute; reflexivity).
  - intros k Hk. all_keys Hk.
  - intros a Ha. vm_compute in Ha. injection Ha as <-. discriminate.
  - split.
    + intros a c Ha.
      change (a ∈ ["output"; "."; "pkls/take1"; "pkls"; "."]) in Ha.
      repeat (apply elem_of_cons in Ha as [->|Ha]);
        try (by apply elem_of_nil in Ha); vm_compute; discriminate.
    + intros o Ho.
      change (o ∈ ["output/motion.npz"; "pkls/take1/motion.pkl"]) in Ho.
      change (Fs.lookup o Cases.w_used ≠ Some Dir ∧
              o ∉ ["output"; "."; "pkls/take1"; "pkls"; "."]).
      repeat (apply elem_of_cons in Ho as [->|Ho]);
        try (by apply elem_of_nil in Ho);
        (split; [vm_compute; discriminate
                |apply (bool_decide_unpack _); vm_compute; exact I]).
Defined.

(** X11 on the valid bundle, from the empty file system. *)
Lemma second_run_repeats_witness :
  let r := Examples.call Examples.bundle "output/motion" "output_pkl/motion" in
  ∃ w'', @save_smpl Examples.platform Examples.bundle "output/motion"
           "output_pkl/motion" (fst r) = (w'', snd r) ∧
         entries w'' = entries (fst r) ∧ cwd w'' = cwd (fst r).
Proof.
  intros r.
  apply (@second_run_repeats Examples.platform Examples.bundle
           "output/motion" "output_pkl/motion" Examples.w0 (fst r)
           (fst (snd r)) (snd (snd r))).
  - vm_compute. reflexivity.
  - vm_compute. discriminate.
Defined.

(** X12 with the archive path [notes.txt/motion.npz], where
    [notes.txt] is a regular file. *)
Lemma file_in_place_of_directory_witness :
  @save_smpl Examples.platform Examples.bundle "notes.txt/motion.npz"
    "output_pkl/motion.pkl" Cases.w_used
  = (Cases.w_used,
     (EmptyString,
      "SaveSMPL failed: [Errno 17] File exists: " +:+ PyStr.repr "notes.txt")).
Proof.
  apply (@file_in_place_of_directory Examples.platform Examples.bundle
           (PyDict Examples.motion) "notes.txt/motion.npz"
           "output_pkl/motion.pkl" Cases.w_used (Bytes 12));
    vm_compute; reflexivity.
Defined.

(** X13 on the valid bundle, with an old archive in place. *)
Lemma default_paths_export_witness :
  ∃ w' info,
    @save_smpl Examples.platform Examples.bundle "output/motion.npz"
      "output_pkl/motion.pkl" Cases.w_used
      = (w', (Path.str (Path.absolute (cwd Cases.w_used)
                          (Path.of_string "output/motion.npz")), info)) ∧
    Path.str (Path.of_string "output/motion.npz") = "output/motion.npz" ∧
    Fs.is_dir "output" w' = true ∧
    Fs.is_dir "output_pkl" w' = true.
Proof.
  apply (@default_paths_export Examples.platform Examples.bundle
           Examples.motion Cases.w_used Examples.motion_np
           "output/motion.npz" "output_pkl/motion.pkl");
    try (vm_compute; reflexivity).
  - intros k Hk. all_keys Hk.
  - intros a Ha. vm_compute in Ha. injection Ha as <-. discriminate.
  - intros d c Hd.
    repeat (apply elem_of_cons in Hd as [->|Hd]);
      try (by apply elem_of_nil in Hd); vm_compute; discriminate.
  - intros o Ho.
    repeat (apply elem_of_cons in Ho as [->|Ho]);
      try (by apply elem_of_nil in Ho); vm_compute; discriminate.
Defined.

(** ** Worked runs of the amended claims *)








(** C10 as stated fails, on the bundle that lacks [betas] (all its
    values are arrays), in two ways.  When [output] is a regular file,
    [mkdir] fails, the call returns a failure pair and no archive is
    written: the file system is as it was.  With the archive path
    [out/motion.dat], which lines 61-62 leave unchanged, the call
    returns the missing-key failure pair and there is no file at the
    archive path: [np.savez] wrote the archive as [out/motion.dat.npz]. *)
Lemma archive_missing_at_archive_path :
  let r1 := @save_smpl Examples.platform Examples.no_betas
              "output/motion.npz" "output_pkl/motion.pkl" Examples.w_blocked in
  let r2 := Examples.call Examples.no_betas "out/motion.dat" "out/motion.pkl" in
  (dict_get "global" Examples.no_betas = Some (PyDict Examples.motion_no_betas) ∧
   convert_items Examples.motion_no_betas [] = inr Examples.no_betas_np ∧
   dict_mem "betas" Examples.motion_no_betas = false) ∧
  (snd r1 = (EmptyString, "SaveSMPL failed: [Errno 17] File exists: 'output'") ∧
   fst r1 = Examples.w_blocked ∧
   entries (fst r1) !! "output/motion.npz" = None) ∧
  (snd r2 = (EmptyString,
             "SaveSMPL failed: " +:+ PyStr.repr (msg_missing "betas")) ∧
   default_suffix (Path.of_string "out/motion.dat") ".npz"
     = inr (mkPath EmptyString ["out"; "motion.dat"]) ∧
   entries (fst r2) !! "out/motion.dat" = None ∧
   entries (fst r2) !! "out/motion.dat.npz"
     = Some (File (NpzArchive Examples.no_betas_np))).
Proof.
  vm_compute. repeat split.
Defined.

(** C10, as amended, on the bundle that lacks [betas]. *)
Lemma archive_written_before_key_check_witness :
  let r := Examples.call Examples.no_betas "output/motion" "output_pkl/motion" in
  let np := Examples.no_betas_np in
  (∃ k', k' ∈ required_keys ∧ dict_mem k' Examples.motion_no_betas = false ∧
     r = (fst r, (EmptyString,
                  "SaveSMPL failed: " +:+ PyStr.repr (msg_missing k')))) ∧
  entries (fst r) !! "output/motion.npz"
    = Some (File (NpzArchive (Savez.members np))) ∧
  Savez.load "output/motion.npz" (fst r) = inr (Savez.members np) ∧
  (∀ k, k ≠ "allow_pickle" →
        dict_get k (Savez.members np) = dict_get k np) ∧
  dict_mem "allow_pickle" (Savez.members np) = false ∧
  (dict_mem "allow_pickle" Examples.motion_no_betas = false →
   Savez.members np = np) ∧
  (∃ evs, log (fst r) = log Examples.w0 ++ evs ++
                          [EvSavez "output/motion.npz" np]).
Proof.
  intros r np.
  apply (@archive_written_before_key_check Examples.platform Examples.no_betas
           Examples.motion_no_betas "output/motion" "output_pkl/motion"
           Examples.w0 (fst r) (PyDict Examples.motion_no_betas)
           Examples.npz_path Examples.pkl_path Examples.no_betas_np "betas");
    try (vm_compute; reflexivity).
  key_in.
Defined.
